(** * downline: the download orchestration core ([src/lib/api.js])

    A shallow embedding of the module and the properties of its format
    ranker, progress parser and admission-controlled queue.

    Conventions of the embedding.
    - JavaScript values that come out of [JSON.parse] are the inductive
      [jsval].  A number is given by a decimal that denotes it, such as its
      literal: the number is the double nearest to the decimal, [Number_of]
      finds it, as the shortest decimal that reads back as it, and every
      operation on a number starts from there.  The integer-valued doubles
      that arithmetic produces are integers of [Z], with [2^1024] for
      [Infinity]; they are printed through the same shortest decimal.
    - An object is a plain data object: its own properties hold data, as
      they do after [JSON.parse], never a function.
    - A thrown exception is the [Throw] constructor of [result]; statements
      after the throwing one are not run.
    - Text is [string] (bytes of the UTF-8 encoding).  The regular
      expressions of the module only capture ASCII characters and every byte
      of a multi-byte character is a non-digit and a non-word character, so
      matching bytes and matching UTF-16 code units give the same captures;
      the white space that [parseInt] skips is recognised in its encoded
      form.
    - The two module-level variables [active] (a [Map]) and [queue] (an
      array) are the fields of [Scheduler]; what the module does to the
      outside world (signals, events, dispatches, spawned commands) is
      appended to its [log]. *)

From Stdlib Require Import ZArith NArith List Ascii String Bool Lia.
From Stdlib Require Import Sorting.Sorted Sorting.Permutation.
From Stdlib Require Import Floats.SpecFloat.
From stdpp Require Import gmap strings list fin_maps pretty.

Set Warnings "-register-all,-clear-no-such-hyp".
Local Open Scope string_scope.
Local Open Scope list_scope.
Local Open Scope Z_scope.

(** ** Exceptions *)

Inductive exn :=
| TypeError (msg : string)
| SyntaxError (msg : string).

Inductive result (A : Type) :=
| Ret (a : A)
| Throw (e : exn).
Arguments Ret {A} a.
Arguments Throw {A} e.

Global Instance result_ret : MRet result := fun _ a => Ret a.
Global Instance result_bind : MBind result := fun _ _ k r =>
  match r with
  | Ret a => k a
  | Throw e => Throw e
  end.

Definition returns {A} (r : result A) : bool :=
  match r with Ret _ => true | Throw _ => false end.

Global Instance exn_eq_dec : EqDecision exn.
Proof. solve_decision. Defined.

Global Instance result_eq_dec {A} `{EqDecision A} : EqDecision (result A).
Proof. solve_decision. Defined.

(** ** Values *)

(** The decimal [mant * 10^-scale]. *)
Record jsnum := mkNum { mant : Z; scale : nat }.

Inductive jsval :=
| Undefined
| Null
| Bool (b : bool)
| Num (n : jsnum)
| Str (s : string)
| Arr (items : list jsval)
| Obj (fields : list (string * jsval)).

Definition int (z : Z) : jsval := Num (mkNum z 0).

(** ** Characters and strings *)

Definition char_code (c : ascii) : Z := Z.of_N (N_of_ascii c).

Definition is_digit (c : ascii) : bool :=
  (48 <=? char_code c) && (char_code c <=? 57).

(** [\w]: letters, digits and the underscore. *)
Definition is_word (c : ascii) : bool :=
  is_digit c
  || ((65 <=? char_code c) && (char_code c <=? 90))
  || ((97 <=? char_code c) && (char_code c <=? 122))
  || (char_code c =? 95).

Definition is_char (x : ascii) (c : ascii) : bool := Ascii.eqb c x.

(** White space and line terminators of one byte: the space and the
    characters from the tabulation to the carriage return. *)
Definition is_space (c : ascii) : bool :=
  (char_code c =? 32) || ((9 <=? char_code c) && (char_code c <=? 13)).

(** The no-break space U+00A0, encoded on two bytes. *)
Definition is_space2 (a b : ascii) : bool :=
  (char_code a =? 194) && (char_code b =? 160).

(** The white space and the line terminators encoded on three bytes:
    U+1680, U+2000 to U+200A, U+2028, U+2029, U+202F, U+205F, U+3000 and
    the byte order mark U+FEFF. *)
Definition is_space3 (a b c : ascii) : bool :=
  ((char_code a =? 225) && (char_code b =? 154) && (char_code c =? 128))
  || ((char_code a =? 226) && (char_code b =? 128)
      && (((128 <=? char_code c) && (char_code c <=? 138))
          || (char_code c =? 168) || (char_code c =? 169)
          || (char_code c =? 175)))
  || ((char_code a =? 226) && (char_code b =? 129) && (char_code c =? 159))
  || ((char_code a =? 227) && (char_code b =? 128) && (char_code c =? 128))
  || ((char_code a =? 239) && (char_code b =? 187) && (char_code c =? 191)).

Definition hex_value (c : ascii) : option Z :=
  if is_digit c then Some (char_code c - 48)
  else if (65 <=? char_code c) && (char_code c <=? 70)
  then Some (char_code c - 55)
  else if (97 <=? char_code c) && (char_code c <=? 102)
  then Some (char_code c - 87)
  else None.

Fixpoint zeros (n : nat) : string :=
  match n with
  | O => ""
  | S n' => String "0" (zeros n')
  end.

(** [String.prototype.includes]. *)
Fixpoint includes (needle s : string) : bool :=
  String.prefix needle s ||
  match s with
  | EmptyString => false
  | String _ s' => includes needle s'
  end.

(** Number of UTF-16 code units of a UTF-8 text. *)
Fixpoint utf16_length (s : string) : nat :=
  match s with
  | EmptyString => O
  | String c s' =>
      let units :=
        if (128 <=? char_code c) && (char_code c <? 192) then 0%nat
        else if 240 <=? char_code c then 2%nat else 1%nat in
      (units + utf16_length s')%nat
  end.

(** ** Numbers *)

Definition double := spec_float.
Definition fdiv : double -> double -> double := SFdiv 53 1024.
Definition fmul : double -> double -> double := SFmul 53 1024.
Definition double_of_Z (z : Z) : double := binary_normalize 53 1024 z 0 false.

(** The digits of a text without its trailing zeros. *)
Fixpoint strip_zeros (s : string) : string :=
  match s with
  | EmptyString => ""
  | String c s' =>
      match strip_zeros s' with
      | EmptyString => if is_char "0" c then "" else String c ""
      | t => String c t
      end
  end.

Definition exponent_text (e : Z) : string :=
  (if e <? 0 then "e-" else "e+") +:+ pretty (Z.abs_N e).

(** How [Number::toString] prints the shortest decimal of a number.  With
    [k] significant digits and the decimal point after the first [point]
    of them: an integer below 1e21 prints its digits and its zeros;
    another number from 1 up to below 1e21 prints the point between its
    digits; a number from 1e-6 up to below 1 prints [0.] and its zeros;
    every other number prints in exponent form. *)
Definition decimal_to_string (n : jsnum) : string :=
  if mant n =? 0 then "0"
  else
    let d := pretty (Z.abs_N (mant n)) in
    let s := strip_zeros d in
    let k := String.length s in
    let point := Z.of_nat (String.length d) - Z.of_nat (scale n) in
    (if mant n <? 0 then "-" else "") +:+
    (if (Z.of_nat k <=? point) && (point <=? 21)
     then s +:+ zeros (Z.to_nat point - k)
     else if (0 <? point) && (point <=? 21)
     then substring 0 (Z.to_nat point) s +:+ "."
          +:+ substring (Z.to_nat point) (k - Z.to_nat point) s
     else if (-6 <? point) && (point <=? 0)
     then "0." +:+ zeros (Z.to_nat (- point)) +:+ s
     else match s with
          | String c (String c' rest) =>
              String c ("." +:+ String c' rest) +:+ exponent_text (point - 1)
          | _ => s +:+ exponent_text (point - 1)
          end).

(** Order of the values of two decimals. *)
Definition num_ltb (a b : jsnum) : bool :=
  mant a * 10 ^ Z.of_nat (scale b) <? mant b * 10 ^ Z.of_nat (scale a).

(** The nearest integer with at most 53 significant bits (ties to even). *)
Definition round53 (a : Z) : Z :=
  let k := Z.log2 a - 52 in
  if k <=? 0 then a
  else
    let q := a / 2 ^ k in
    let rem := a mod 2 ^ k in
    let half := 2 ^ (k - 1) in
    (if (half <? rem) || ((rem =? half) && Z.odd q) then q + 1 else q)
    * 2 ^ k.

(** The double nearest to an integer; [2^1024] and its opposite stand for
    the two infinities. *)
Definition to_double (z : Z) : Z :=
  Z.sgn z * Z.min (round53 (Z.abs z)) (2 ^ 1024).

(** The decimal with the fewest significant digits that reads back as the
    double [x], a positive integer: the multiples of [10^j] next to [x]
    are tried from the largest [j] down; of two that read back as [x] the
    nearer one is taken, the even one when they are as near. *)
Fixpoint shorten_at (j : nat) (x : Z) : Z :=
  let p := 10 ^ Z.of_nat j in
  let below := x / p * p in
  let above := below + p in
  let ok_below := to_double below =? x in
  let ok_above := to_double above =? x in
  if ok_below && ok_above then
    if x - below <? above - x then below
    else if above - x <? x - below then above
    else if Z.even (x / p) then below else above
  else if ok_below then below
  else if ok_above then above
  else match j with
       | O => x
       | S j' => shorten_at j' x
       end.

Definition shorten (x : Z) : Z :=
  shorten_at (String.length (pretty (Z.to_N x)) - 1) x.

(** [Number::toString] of an integer-valued double. *)
Definition double_to_string (x : Z) : string :=
  if 2 ^ 1024 <=? Z.abs x then (if x <? 0 then "-Infinity" else "Infinity")
  else decimal_to_string (mkNum (Z.sgn x * shorten (Z.abs x)) 0).

(** The double nearest to a decimal that is not an integer literal: the
    quotient of the digits by the power of ten, rounded once. *)
Definition double_of_decimal (n : jsnum) : double :=
  let power := S754_finite false (Z.to_pos (10 ^ Z.of_nat (scale n))) 0 in
  match mant n with
  | Z0 => S754_zero false
  | Zpos m => fdiv (S754_finite false m 0) power
  | Zneg m => fdiv (S754_finite true m 0) power
  end.

(** The place of the decimal point of the positive quotient [N / D]: the
    [n] with [10^(n-1) <= N / D < 10^n]. *)
Definition decimal_point (N D : Z) : Z :=
  if D <=? N then Z.of_nat (String.length (pretty (Z.to_N (N / D))))
  else 1 - Z.of_nat (String.length (pretty (Z.to_N ((D + N - 1) / N - 1)))).

(** The decimal of [k] digits, or of more when [fuel] allows, next to the
    positive double [N / D] that reads back as it: the digits below and
    above are tried, the nearer ones win, the even ones when they are as
    near. *)
Fixpoint shortest_at (fuel : nat) (k : Z) (x : double) (N D point : Z)
    : jsnum :=
  let E := point - k in
  let N' := if 0 <=? E then N else N * 10 ^ (- E) in
  let D' := if 0 <=? E then D * 10 ^ E else D in
  let below := N' / D' in
  let above := below + 1 in
  let decimal digits :=
    if 0 <=? E then mkNum (digits * 10 ^ E) 0
    else mkNum digits (Z.to_nat (- E)) in
  let reads digits :=
    match SFcompare (double_of_decimal (decimal digits)) x with
    | Some Eq => true
    | _ => false
    end in
  let rest := N' - below * D' in
  if reads below && reads above then
    if rest <? D' - rest then decimal below
    else if D' - rest <? rest then decimal above
    else if Z.even below then decimal below else decimal above
  else if reads below then decimal below
  else if reads above then decimal above
  else match fuel with
       | O => decimal below
       | S fuel' => shortest_at fuel' (k + 1) x N D point
       end.

(** The shortest decimal that reads back as a finite double; seventeen
    digits always do. *)
Definition shortest_decimal (x : double) : jsnum :=
  match x with
  | S754_finite s m e =>
      let N := if 0 <=? e then Z.pos m * 2 ^ e else Z.pos m in
      let D := if 0 <=? e then 1 else 2 ^ (- e) in
      let d :=
        shortest_at 16 1 (S754_finite false m e) N D (decimal_point N D) in
      if s then mkNum (- mant d) (scale d) else d
  | _ => mkNum 0 0
  end.

(** A number: a finite double, as its shortest decimal, or an infinity. *)
Inductive number :=
| Finite (shortest : jsnum)
| Infinite (negative : bool).

(** The number that a decimal denotes.  An integer literal is rounded as
    an integer, another decimal as a quotient. *)
Definition Number_of (n : jsnum) : number :=
  match scale n with
  | O =>
      let x := to_double (mant n) in
      if 2 ^ 1024 <=? Z.abs x then Infinite (x <? 0)
      else Finite (mkNum (Z.sgn x * shorten (Z.abs x)) 0)
  | S _ =>
      match double_of_decimal n with
      | S754_finite s m e => Finite (shortest_decimal (S754_finite s m e))
      | S754_infinity s => Infinite s
      | _ => Finite (mkNum 0 0)
      end
  end.

(** [Number::toString]. *)
Definition num_to_string (n : jsnum) : string :=
  match Number_of n with
  | Finite d => decimal_to_string d
  | Infinite negative => if negative then "-Infinity" else "Infinity"
  end.

Definition num_is_zero (n : jsnum) : bool :=
  match Number_of n with
  | Finite d => mant d =? 0
  | Infinite _ => false
  end.

(** [Number.isInteger]. *)
Definition num_is_integer (n : jsnum) : bool :=
  match Number_of n with
  | Finite d => mant d mod 10 ^ Z.of_nat (scale d) =? 0
  | Infinite _ => false
  end.

(** [Math.floor], with [2^1024] and its opposite for the infinities. *)
Definition num_floor (n : jsnum) : Z :=
  match Number_of n with
  | Finite d => mant d / 10 ^ Z.of_nat (scale d)
  | Infinite negative => if negative then - 2 ^ 1024 else 2 ^ 1024
  end.

(** [Math.floor] of a double; [None] for what is not a number or not
    finite. *)
Definition floor_of_double (x : double) : option Z :=
  match x with
  | S754_zero _ => Some 0
  | S754_finite s m e =>
      let whole := if 0 <=? e then Z.pos m * 2 ^ e else Z.pos m / 2 ^ (- e) in
      let exact := if 0 <=? e then true else Z.pos m mod 2 ^ (- e) =? 0 in
      Some (if s then (if exact then - whole else - whole - 1) else whole)
  | _ => None
  end.

(** [Math.floor(n / d)] for an integer-valued double [n] and a small
    positive integer [d]: the quotient is rounded to the nearest double
    before its floor is taken.  The quotient is cut after 1200 binary
    places, with one more bit that tells whether anything was cut. *)
Definition floor_quotient (n d : Z) : Z :=
  let scaled := Z.abs n * 2 ^ 1200 in
  let sticky := if scaled mod d =? 0 then 0 else 1 in
  Z.sgn n * round53 (2 * (scaled / d) + sticky) / 2 ^ 1201.

(** ** Conversions and tests on values *)

Definition not_primitive : exn :=
  TypeError "Cannot convert object to primitive value".

(** Whether an object has an own property of that name. *)
Definition has_field (name : string) (fields : list (string * jsval)) : bool :=
  existsb (fun kv => String.eqb kv.1 name) fields.

(** [Array.prototype.join]: the elements are converted in order and
    separated by commas; [null] and [undefined] elements give nothing. *)
Section Join.
Variable convert : jsval -> result string.

Fixpoint join (l : list jsval) : result string :=
  match l with
  | [] => Ret ""
  | x :: l' =>
      e ← match x with
          | Undefined | Null => Ret ""
          | _ => convert x
          end;
      match l' with
      | [] => Ret e
      | _ :: _ => rest ← join l'; Ret (e +:+ "," +:+ rest)
      end
  end.
End Join.

(** The conversion of a value to a string, in a template, in a
    concatenation or in [parseInt].  An array prints through [join].  An
    object prints through [Object.prototype.toString], unless an own
    property named [toString] hides it: that property holds data, it
    cannot be called, and the conversion throws. *)
Fixpoint ToString (v : jsval) : result string :=
  match v with
  | Undefined => Ret "undefined"
  | Null => Ret "null"
  | Bool true => Ret "true"
  | Bool false => Ret "false"
  | Num n => Ret (num_to_string n)
  | Str s => Ret s
  | Arr items => join ToString items
  | Obj fields =>
      if has_field "toString" fields then Throw not_primitive
      else Ret "[object Object]"
  end.

(** [ToBoolean]. *)
Definition truthy (v : jsval) : bool :=
  match v with
  | Undefined | Null => false
  | Bool b => b
  | Num n => negb (num_is_zero n)
  | Str s => negb (String.eqb s "")
  | Arr _ | Obj _ => true
  end.

(** [v == undefined]. *)
Definition nullish (v : jsval) : bool :=
  match v with
  | Undefined | Null => true
  | _ => false
  end.

(** [v === s] for a string literal [s]. *)
Definition is_str (s : string) (v : jsval) : bool :=
  match v with
  | Str s' => String.eqb s' s
  | _ => false
  end.

(** [a || b]. *)
Definition js_or (a b : jsval) : jsval := if truthy a then a else b.

(** Property read [v.name]; a property list is in creation order. *)
Fixpoint lookup_field (name : string) (fields : list (string * jsval)) : jsval :=
  match fields with
  | [] => Undefined
  | (k, v) :: rest => if String.eqb k name then v else lookup_field name rest
  end.

Definition get (v : jsval) (name : string) : jsval :=
  match v with
  | Obj fields => lookup_field name fields
  | _ => Undefined
  end.

(** ** [parseInt] *)

Fixpoint skip_spaces (s : string) : string :=
  match s with
  | String a s1 =>
      if is_space a then skip_spaces s1
      else
        match s1 with
        | String b s2 =>
            if is_space2 a b then skip_spaces s2
            else
              match s2 with
              | String c s3 => if is_space3 a b c then skip_spaces s3 else s
              | EmptyString => s
              end
        | EmptyString => s
        end
  | EmptyString => s
  end.

(** Reads the longest prefix of digits of the radix; [None] when there is
    no digit at all. *)
Fixpoint read_digits (radix : Z) (s : string) (acc : option Z) : option Z :=
  match s with
  | String c s' =>
      match hex_value c with
      | Some d =>
          if d <? radix
          then read_digits radix s' (Some (default 0 acc * radix + d))
          else acc
      | None => acc
      end
  | EmptyString => acc
  end.

(** [parseInt(text)] with no radix argument; [None] is [NaN].  Leading
    white space is skipped, then a sign and a [0x] prefix are read, then
    the digits. *)
Definition parseInt_string (text : string) : option Z :=
  let s := skip_spaces text in
  let '(sign, s) :=
    match s with
    | String c s' =>
        if is_char "-" c then (-1, s')
        else if is_char "+" c then (1, s')
        else (1, s)
    | EmptyString => (1, s)
    end in
  let '(radix, s) :=
    match s with
    | String c (String x s') =>
        if is_char "0" c && (is_char "x" x || is_char "X" x) then (16, s')
        else (10, s)
    | _ => (10, s)
    end in
  match read_digits radix s None with
  | Some n => Some (to_double (sign * n))
  | None => None
  end.

Definition parseInt (v : jsval) : result (option Z) :=
  text ← ToString v;
  Ret (parseInt_string text).

(** ** [Array.prototype.sort] *)

(** The sort of ECMAScript 2019 is stable: for a consistent comparator its
    result is the one of this insertion sort. *)
Section Sort.
Context {A : Type} (compare : A -> A -> Z).

Fixpoint sort_insert (x : A) (l : list A) : list A :=
  match l with
  | [] => [x]
  | y :: l' => if compare x y <=? 0 then x :: l else y :: sort_insert x l'
  end.

Definition sort (l : list A) : list A := foldr sort_insert [] l.
End Sort.

(** The same sort for a comparator that may throw: the exception leaves
    the sort. *)
Section SortBy.
Context {A : Type} (compare : A -> A -> result Z).

Fixpoint insert_by (x : A) (l : list A) : result (list A) :=
  match l with
  | [] => Ret [x]
  | y :: l' =>
      c ← compare x y;
      if c <=? 0 then Ret (x :: l)
      else (rest ← insert_by x l'; Ret (y :: rest))
  end.

Definition sort_by (l : list A) : result (list A) :=
  foldr (fun x sorted => l' ← sorted; insert_by x l') (Ret []) l.
End SortBy.

(** ** [Object.keys] *)

(** A canonical array index: no sign, no leading zero, below [2^32 - 1]. *)
Definition array_index (k : string) : option Z :=
  match k with
  | EmptyString => None
  | String c rest =>
      if forallb is_digit (list_ascii_of_string k)
         && (negb (char_code c =? 48) || String.eqb rest "")
      then match read_digits 10 k None with
           | Some n => if n <? 2 ^ 32 - 1 then Some n else None
           | None => None
           end
      else None
  end.

(** Own keys of an object: array indices in ascending order, then the other
    keys in creation order. *)
Definition own_keys (fields : list (string * jsval)) : list string :=
  let ks := map fst fields in
  let idx := filter (fun k => is_Some (array_index k)) ks in
  let others := filter (fun k => array_index k = None) ks in
  sort (fun a b => default 0 (array_index a) - default 0 (array_index b)) idx
  ++ others.

Definition indices (n : nat) : list string := map (fun i => pretty i) (seq 0 n).

Definition Object_keys (v : jsval) : result (list string) :=
  match v with
  | Undefined | Null =>
      Throw (TypeError "Cannot convert undefined or null to object")
  | Bool _ | Num _ => Ret []
  | Str s => Ret (indices (utf16_length s))
  | Arr items => Ret (indices (length items))
  | Obj fields => Ret (own_keys fields)
  end.

(** ** Regular expressions *)

(** The patterns of the module are sequences of single characters and of
    greedy repetitions [c+] of a character class, some of them inside named
    groups.  [match_here] is the backtracking matcher of ECMAScript on such
    a sequence: a repetition first takes as many characters as it can and
    gives them back one at a time while the rest of the pattern fails.  It
    returns the text taken by every atom. *)
Inductive atom :=
| One (p : ascii -> bool)
| Many (p : ascii -> bool).

Fixpoint match_here (r : list atom) (s : string) : option (list string) :=
  match r with
  | [] => Some []
  | One p :: r' =>
      match s with
      | String c s' =>
          if p c then cons (String c "") <$> match_here r' s' else None
      | EmptyString => None
      end
  | Many p :: r' =>
      (fix many (s : string) : option (list string) :=
         match s with
         | String c s' =>
             if p c then
               match many s' with
               | Some (piece :: rest) => Some (String c piece :: rest)
               | _ => cons (String c "") <$> match_here r' s'
               end
             else None
         | EmptyString => None
         end) s
  end.

(** [exec] without flags: the match at the leftmost position that has one. *)
Fixpoint exec_atoms (r : list atom) (s : string) : option (list string) :=
  match match_here r s with
  | Some pieces => Some pieces
  | None =>
      match s with
      | String _ s' => exec_atoms r s'
      | EmptyString => None
      end
  end.

(** Atoms tagged with the named group they belong to. *)
Definition regex := list (option string * atom).

Definition group (name : string) (atoms : list atom) : regex :=
  map (pair (Some name)) atoms.

Definition plain (atoms : list atom) : regex := map (pair None) atoms.

Definition exec (r : regex) (s : string) : option (list string) :=
  exec_atoms (map snd r) s.

Definition in_group (name : string) (tag : option string) : bool :=
  match tag with
  | Some g => String.eqb g name
  | None => false
  end.

(** The text of a named group of a match; [None] ([undefined]) when the
    pattern has no such group. *)
Fixpoint capture (name : string) (tags : list (option string))
    (pieces : list string) : option string :=
  match tags, pieces with
  | t :: tags', p :: pieces' =>
      let rest := capture name tags' pieces' in
      if in_group name t then Some (p +:+ default "" rest) else rest
  | _, _ => None
  end.

Definition groups (r : regex) (pieces : list string) (name : string)
    : option string :=
  capture name (map fst r) pieces.

Definition non_digit (c : ascii) : bool := negb (is_digit c).
Definition digit_or_colon (c : ascii) : bool := is_digit c || is_char ":" c.

Definition decimal : list atom := [Many is_digit; One (is_char "."); Many is_digit].

Definition progress_regex : regex :=
  (group "percent" decimal ++ plain [Many non_digit]
   ++ group "size" decimal ++ group "unit" [Many is_word]
   ++ plain [Many non_digit]
   ++ group "speed"
        (decimal ++ [Many is_word; One (is_char "/"); One (is_char "s")])
   ++ plain [Many non_digit]
   ++ group "eta" [Many digit_or_colon])%list.

Definition hRegex : regex :=
  (group "hr" [Many is_digit] ++ plain [One (is_char ":")]
   ++ group "min" [Many is_digit] ++ plain [One (is_char ":")]
   ++ group "sec" [Many is_digit])%list.

Definition mRegex : regex :=
  (group "min" [Many is_digit] ++ plain [One (is_char ":")]
   ++ group "sec" [Many is_digit])%list.

(** ** Numbers read from text *)

(** Value of a run of decimal digits. *)
Definition digits_value (s : string) : Z := default 0 (read_digits 10 s None).

(** [Number(text)] for a text made of digits: an integer-valued double. *)
Definition Number_of_digits (s : string) : Z := to_double (digits_value s).

Fixpoint split_at_dot (s : string) : string * string :=
  match s with
  | EmptyString => ("", "")
  | String c s' =>
      if is_char "." c then ("", s')
      else let '(a, b) := split_at_dot s' in (String c a, b)
  end.

(** The quotient of two non-negative integers, rounded once. *)
Definition ratio (n d : Z) : double :=
  match n, d with
  | Zpos n, Zpos d => fdiv (S754_finite false n 0) (S754_finite false d 0)
  | _, _ => S754_zero false
  end.

(** [Number(text)] for a text [digits.digits]: the double nearest to the
    decimal. *)
Definition Number_of_decimal (s : string) : double :=
  let '(ip, fp) := split_at_dot s in
  ratio (digits_value (ip +:+ fp)) (10 ^ Z.of_nat (String.length fp)).

(** The plain digits of an integer. *)
Definition int_to_string (z : Z) : string := pretty z.

(** [x.toFixed(2)]: from 1e21 on, the number as [Number::toString] prints
    it; below, the integer [n] nearest to [100 x], the larger one on a tie,
    printed with a point before its last two digits. *)
Definition toFixed2 (x : double) : string :=
  match x with
  | S754_nan => "NaN"
  | S754_infinity s => (if s then "-" else "") +:+ "Infinity"
  | S754_zero _ => "0.00"
  | S754_finite s m e =>
      if (0 <=? e) && (10 ^ 21 <=? Z.pos m * 2 ^ e)
      then double_to_string ((if s then -1 else 1) * (Z.pos m * 2 ^ e))
      else
        let n :=
          if 0 <=? e then 100 * Z.pos m * 2 ^ e
          else (200 * Z.pos m + 2 ^ (- e)) / (2 * 2 ^ (- e)) in
        let d := pretty (Z.to_N n) in
        let d := zeros (3 - String.length d) +:+ d in
        let i := (String.length d - 2)%nat in
        (if s then "-" else "") +:+ substring 0 i d +:+ "." +:+ substring i 2 d
  end.

(** ** Progress parser *)

Module Progress.
Record t := mk {
  percent : string;
  downloaded : string;
  size : string;
  speed : string;
  eta : string
}.
End Progress.

(** What the transform of a download pushes: a progress record or one of
    the texts ["processing"] and [""]. *)
Inductive signal :=
| Info (p : Progress.t)
| Text (s : string).

Definition null_groups : exn :=
  TypeError "Cannot read property 'groups' of null".

Definition getETA (eta : string) : result string :=
  let m :=
    match exec hRegex eta with
    | Some pieces => Some (groups hRegex pieces)
    | None => groups mRegex <$> exec mRegex eta
    end in
  match m with
  | None => Throw null_groups
  | Some g =>
      let hr :=
        match g "hr" with
        | Some h => if String.eqb h "" then 0 else Number_of_digits h
        | None => 0
        end in
      let min := Number_of_digits (default "" (g "min")) in
      let sec := Number_of_digits (default "" (g "sec")) in
      Ret (if negb (hr =? 0)
           then double_to_string (if 30 <=? min then to_double (hr + 1) else hr)
                +:+ "h left"
           else if negb (min =? 0)
           then double_to_string (if 30 <=? sec then to_double (min + 1) else min)
                +:+ "min left"
           else double_to_string (to_double (sec + 1)) +:+ "s left")
  end.

Definition getProgress (data : string) : result signal :=
  match exec progress_regex data with
  | Some pieces =>
      let g name := default "" (groups progress_regex pieces name) in
      eta ← getETA (g "eta");
      Ret (Info {|
        Progress.percent := g "percent";
        Progress.downloaded :=
          toFixed2 (fmul (fdiv (Number_of_decimal (g "percent")) (double_of_Z 100))
                         (Number_of_decimal (g "size")));
        Progress.size := g "size" +:+ g "unit";
        Progress.speed := g "speed";
        Progress.eta := eta
      |})
  | None =>
      if includes "[ffmpeg]" data then Ret (Text "processing")
      else Ret (Text "")
  end.

(** ** Format ranker *)

Module Format.
Record t := mk {
  isAudioOnly : bool;
  quality : jsval;
  suffix : string;
  code : jsval
}.
End Format.

(** A loop whose body may throw. *)
Fixpoint forEach {A S} (body : S -> A -> result S) (l : list A) (s : S)
    : result S :=
  match l with
  | [] => Ret s
  | x :: l' => s' ← body s x; forEach body l' s'
  end.

Definition destructure_null : exn :=
  TypeError "Cannot destructure property of undefined or null".

(** The key of the [seen] set. *)
Definition seen_key (isAudioOnly : bool) (quality : jsval) : result string :=
  text ← ToString quality;
  Ret ((if isAudioOnly then "a" else "v") +:+ text).

(** What the body of the [forEach] of [getFormats] computes from one raw
    record; the templates of the selector code convert [abr] and [height]
    to strings. *)
Definition classify (format : jsval) : result Format.t :=
  let acodec := get format "acodec" in
  let vcodec := get format "vcodec" in
  let abr := get format "abr" in
  let width := get format "width" in
  let height := get format "height" in
  let format_id := get format "format_id" in
  let isAudioOnly :=
    nullish height && nullish width && negb (nullish abr) in
  let isVideoOnly := negb (is_str "none" vcodec) && is_str "none" acodec in
  let quality := if isAudioOnly then abr else js_or height format_id in
  let suffix :=
    if isAudioOnly then "kbps"
    else if isVideoOnly then "p"
    else match quality with
         | Num n => if num_is_integer n then "p" else ""
         | _ => ""
         end in
  code ←
    (if isAudioOnly then
       a ← ToString abr;
       Ret (Str ("bestaudio[abr<=" +:+ a +:+ "]"))
     else if isVideoOnly then
       h ← ToString height;
       h' ← ToString height;
       Ret (Str ("bestvideo[height<=" +:+ h
                 +:+ "]+bestaudio/best[height<=" +:+ h' +:+ "]"))
     else Ret format_id);
  Ret (Format.mk isAudioOnly quality suffix code).

Definition key_of (f : Format.t) : result string :=
  seen_key (Format.isAudioOnly f) (Format.quality f).

(** The body of the [forEach]; the state is the array [formats] and the
    set [seen].  Destructuring [null] or [undefined] throws. *)
Definition rank (st : list Format.t * gset string) (format : jsval)
    : result (list Format.t * gset string) :=
  if nullish format then Throw destructure_null
  else
    let '(formats, seen) := st in
    f ← classify format;
    key ← key_of f;
    if truthy (Format.quality f) && negb (bool_decide (key ∈ seen))
    then Ret (formats ++ [f], {[key]} ∪ seen)
    else Ret (formats, seen).

(** The comparator of the sort.  When both qualities are read as numbers
    the larger comes first; when only [x] is, [y] comes first; when only
    [y] is, [x] comes first; otherwise the order is left as it is. *)
Definition compare (x y : Format.t) : result Z :=
  a ← parseInt (Format.quality x);
  b ← parseInt (Format.quality y);
  Ret match a, b with
      | Some a, Some b => b - a
      | Some _, None => 1
      | None, Some _ => -1
      | None, None => 0
      end.

Definition getFormats (data : jsval) : result (list Format.t) :=
  match data with
  | Arr items =>
      '(formats, _) ← forEach rank items ([], ∅);
      sort_by compare formats
  | _ => Ret [Format.mk false data "" data]
  end.

(** ** Subtitles and duration *)

Definition getSubtitles (subtitles : jsval) : result (list string) :=
  match subtitles with
  | Null => Ret []
  | _ => Object_keys subtitles
  end.

(** [String(num).padStart(2, '0')]. *)
Definition pad (num : Z) : string :=
  let d := double_to_string num in
  zeros (2 - String.length d) +:+ d.

(** The duration of the metadata is a number, or is missing ([None]).  The
    two divisions are divisions of doubles; the remainders are exact. *)
Definition getDuration (duration : option jsnum) : string :=
  let total :=
    match duration with
    | Some n => if num_is_zero n then 0 else num_floor n
    | None => 0
    end in
  if total =? 0 then "-"
  else if 2 ^ 1024 <=? Z.abs total
  then (* infinite hours; the remainders of an infinity are not numbers *)
    double_to_string total +:+ ":NaN:NaN"
  else
    let hours := floor_quotient total 3600 in
    let minutes := floor_quotient (Z.rem total 3600) 60 in
    let seconds := Z.rem (Z.rem total 3600) 60 in
    if negb (hours =? 0)
    then double_to_string hours +:+ ":" +:+ pad minutes +:+ ":" +:+ pad seconds
    else if negb (minutes =? 0) then pad minutes +:+ ":" +:+ pad seconds
    else "0:" +:+ pad seconds.

(** ** Metadata records *)

Module Playlist.
Record t := mk {
  exists_ : bool;
  title : jsval;
  index : jsval;
  count : jsval
}.
End Playlist.

(** What [JSON.parse] makes of a well-formed chunk: the properties that
    [createDownloadable] reads. *)
Module Metadata.
Record t := mk {
  webpage_url : jsval;
  title : jsval;
  thumbnail : jsval;
  duration : option jsnum;
  formats : jsval;
  format_id : jsval;
  requested_subtitles : jsval;
  playlist : jsval;
  playlist_title : jsval;
  playlist_index : jsval;
  n_entries : jsval
}.
End Metadata.

Module Downloadable.
Record t := mk {
  url : jsval;
  title : jsval;
  thumbnail : jsval;
  duration : string;
  formats : list Format.t;
  formatIndex : Z;
  state : jsval;
  progress : option Progress.t;
  subtitles : list string;
  playlist : Playlist.t;
  filepath : option string
}.
End Downloadable.

(** [JSON.parse] belongs to the engine: a chunk is given with what the
    parser makes of its text, a syntax error, the value [null] or a value
    with the properties that [createDownloadable] reads. *)
Inductive chunk :=
| Malformed (text : string)
| Null_ (text : string)
| Record_ (text : string) (metadata : Metadata.t).

Definition JSON_parse (data : chunk) : result (option Metadata.t) :=
  match data with
  | Malformed _ => Throw (SyntaxError "Unexpected token in JSON")
  | Null_ _ => Ret None
  | Record_ _ metadata => Ret (Some metadata)
  end.

(** The destructuring of the parsed value; [null] has no properties. *)
Definition destructure (parsed : option Metadata.t) : result Metadata.t :=
  match parsed with
  | Some metadata => Ret metadata
  | None => Throw destructure_null
  end.

(** [findIndex(x => x.isAudioOnly === false)]. *)
Fixpoint findIndex {A} (p : A -> bool) (l : list A) (i : Z) : Z :=
  match l with
  | [] => -1
  | x :: l' => if p x then i else findIndex p l' (i + 1)
  end.

(** [STOPPED] is the constant [State.STOPPED] of the state module. *)
Definition createDownloadable (STOPPED : jsval) (data : chunk)
    : result Downloadable.t :=
  parsed ← JSON_parse data;
  metadata ← destructure parsed;
  newFormats ← getFormats (js_or (Metadata.formats metadata)
                                 (Metadata.format_id metadata));
  let formatIndex :=
    findIndex (fun x => negb (Format.isAudioOnly x)) newFormats 0 in
  subtitles ← getSubtitles (Metadata.requested_subtitles metadata);
  Ret {|
    Downloadable.url := Metadata.webpage_url metadata;
    Downloadable.title := Metadata.title metadata;
    Downloadable.thumbnail := Metadata.thumbnail metadata;
    Downloadable.duration := getDuration (Metadata.duration metadata);
    Downloadable.formats := newFormats;
    Downloadable.formatIndex := formatIndex;
    Downloadable.state := STOPPED;
    Downloadable.progress := None;
    Downloadable.subtitles := subtitles;
    Downloadable.playlist := {|
      Playlist.exists_ := truthy (Metadata.playlist metadata);
      Playlist.title := Metadata.playlist_title metadata;
      Playlist.index := Metadata.playlist_index metadata;
      Playlist.count := Metadata.n_entries metadata
    |};
    Downloadable.filepath := None
  |}.

(** ** Collaborators: settings store, platform, child processes *)

(** The values [db.get] returns.  [filenameFormats] lists the [key] of
    every filename template. *)
Module Db.
Record t := mk {
  simultaneous : Z;
  ascii : bool;
  autonumber : bool;
  audioIndex : nat;
  videoIndex : nat;
  audioFormats : list string;
  videoFormats : list string;
  filenameIndex : nat;
  filenameFormats : list string;
  downloadLocation : string
}.
End Db.

(** [path.join] on texts, [process.cwd()] and [process.env.NODE_ENV]. *)
Module Os.
Record t := mk {
  join : list string -> string;
  cwd : string;
  NODE_ENV : option string
}.
End Os.

(** The object [spawn] returns; [pid] is [undefined] ([None]) when the
    process could not be started. *)
Module Child.
Record t := mk { pid : option Z }.
End Child.

Module Request.
Record t := mk {
  url : string;
  format : Format.t;
  playlist : Playlist.t
}.
End Request.

Definition isDevelopment (os : Os.t) : bool :=
  negb (bool_decide (Os.NODE_ENV os = Some "production")).

Definition resource (os : Os.t) (name : string) : string :=
  if isDevelopment os
  then Os.join os [Os.cwd os; "dev"; "resources"; name]
  else Os.join os [Os.cwd os; "resources"; name].

Definition ytdlPath (os : Os.t) : string := resource os "youtube-dl".
Definition ffmpegPath (os : Os.t) : string := resource os "ffmpeg".

(** [path.join] throws on an argument that is not a string. *)
Definition path_join (os : Os.t) (parts : list jsval) : result string :=
  texts ← mapM (fun v => match v with
                         | Str s => Ret s
                         | _ => Throw (TypeError "Path must be a string")
                         end) parts;
  Ret (Os.join os texts).

(** ** The scheduler state and its effects *)

Inductive effect :=
| Dispatch (url : string) (filepath : string)
| Spawn (command : string) (args : list jsval)
| Kill (pid : Z)
| Emit (next : option string).

Record Scheduler := mkScheduler {
  active : gmap string (option Z);
  queue : list string;
  log : list effect
}.

(** ** Argument list of a download *)

Definition element (l : list string) (i : nat) : jsval :=
  match nth_error l i with
  | Some s => Str s
  | None => Undefined
  end.

Definition getAVOptions (db : Db.t) (isAudio : bool) : list jsval :=
  let index := if isAudio then Db.audioIndex db else Db.videoIndex db in
  let format :=
    element (if isAudio then Db.audioFormats db else Db.videoFormats db)
            index in
  let options :=
    if isAudio then [Str "--extract-audio"; Str "--audio-format"; format]
    else [Str "--recode-video"; format] in
  if is_str "default" format then [] else options.

(** Returns the output template and the dispatch made on the way. *)
Definition getOutputFormat (db : Db.t) (os : Os.t) (url : string)
    (playlist : Playlist.t) : result (string * effect) :=
  let index := Db.filenameIndex db in
  key ← match nth_error (Db.filenameFormats db) index with
        | Some k => Ret k
        | None => Throw (TypeError "Cannot read property 'key' of undefined")
        end;
  format ←
    (if Playlist.exists_ playlist then
       format ←
         (if Db.autonumber db then
            let separator := if Db.ascii db then "_" else " - " in
            index ← ToString (Playlist.index playlist);
            Ret (index +:+ separator +:+ key)
          else Ret key);
       path_join os [Playlist.title playlist; Str format]
     else Ret key);
  filepath ←
    (if Playlist.exists_ playlist
     then path_join os [Str (Db.downloadLocation db); Playlist.title playlist;
                        Str "*"]
     else path_join os [Str (Db.downloadLocation db); Str "*"]);
  out ← path_join os [Str (Db.downloadLocation db); Str format];
  Ret (out, Dispatch url filepath).

Definition generateArgs (db : Db.t) (os : Os.t) (req : Request.t)
    : result (list jsval * effect) :=
  '(out, dispatched) ←
    getOutputFormat db os (Request.url req) (Request.playlist req);
  let format := Request.format req in
  let args :=
    [Str "--ffmpeg-location"; Str (ffmpegPath os); Str "-f";
     Format.code format; Str "-o"; Str out] in
  let args := args ++ getAVOptions db (Format.isAudioOnly format) in
  let args :=
    if Db.ascii db then args ++ [Str "--restrict-filenames"] else args in
  Ret (args ++ [Str (Request.url req)], dispatched).

(** ** Transform streams *)

(** A transform stream hands the next chunk to [transform] once the
    callback of the previous one has been called.  The transforms of the
    module call it after [push]; when the pushed expression throws, neither
    [push] nor the callback runs and the exception leaves the stream. *)
Module Transform.
Record t (A : Type) := mk {
  pushed : list A;
  thrown : option exn
}.
Arguments mk {A} pushed thrown.
Arguments pushed {A} t.
Arguments thrown {A} t.
End Transform.

Definition transform {C A} (f : C -> result A) (t : Transform.t A) (chunk : C)
    : Transform.t A :=
  match Transform.thrown t with
  | Some _ => t
  | None =>
      match f chunk with
      | Ret a => Transform.mk (Transform.pushed t ++ [a]) None
      | Throw e => Transform.mk (Transform.pushed t) (Some e)
      end
  end.

(** The stream after the chunks of [stdout] have been piped into it. *)
Definition pipe {C A} (f : C -> result A) (stdout : list C) : Transform.t A :=
  fold_left (transform f) stdout (Transform.mk [] None).


(** ** Admission-controlled queue *)

(** The stream [download] returns: the output of the child piped through
    [getProgress]. *)
Inductive Stream := Piped (child : Child.t).

Definition progress_stream (stdout : list string) : Transform.t signal :=
  pipe getProgress stdout.

(** [child] is the object that [spawn] returns for the arguments. *)
Definition download (db : Db.t) (os : Os.t) (child : Child.t)
    (req : Request.t) (st : Scheduler) : result (Scheduler * option Stream) :=
  let url := Request.url req in
  if Db.simultaneous db <=? Z.of_nat (size (active st)) then
    Ret (mkScheduler (active st) (queue st ++ [url]) (log st), None)
  else
    '(args, dispatched) ← generateArgs db os req;
    Ret (mkScheduler (<[url := Child.pid child]> (active st)) (queue st)
           (log st ++ [dispatched; Spawn (ytdlPath os) args]),
         Some (Piped child)).

(** The listener that [download] puts on the end of the child's output. *)
Definition on_end (url : string) (st : Scheduler) : Scheduler :=
  mkScheduler (delete url (active st)) (tail (queue st))
    (log st ++ [Emit (head (queue st))]).

(** [Array.prototype.indexOf]. *)
Fixpoint indexOf (x : string) (l : list string) (i : Z) : Z :=
  match l with
  | [] => -1
  | y :: l' => if String.eqb y x then i else indexOf x l' (i + 1)
  end.

(** [l.splice(i, 1)] for an index within the array. *)
Definition splice1 (i : Z) (l : list string) : list string :=
  delete (Z.to_nat i) l.

Definition pause (url : string) (st : Scheduler) : Scheduler :=
  let index := indexOf url (queue st) 0 in
  let queue' :=
    if negb (index =? -1) then splice1 index (queue st) else queue st in
  let pid := mjoin (active st !! url) in
  let log' :=
    match pid with
    | Some p => if negb (p =? 0) then log st ++ [Kill p] else log st
    | None => log st
    end in
  mkScheduler (active st) queue' log'.

(** The module starts with an empty map and an empty array. *)
Definition initial : Scheduler := mkScheduler ∅ [] [].

(** ** Runs of the module *)

(** What the callers of the module and the children do to it: a request,
    the end of a child's output, a cancellation. *)
Inductive call :=
| Requested (child : Child.t) (req : Request.t)
| Ended (url : string)
| Paused (url : string).

(** A request that throws leaves the two variables as they were: every
    throwing statement of [download] comes before its first assignment. *)
Definition step (db : Db.t) (os : Os.t) (st : Scheduler) (c : call)
    : Scheduler :=
  match c with
  | Requested child req =>
      match download db os child req st with
      | Ret (st', _) => st'
      | Throw _ => st
      end
  | Ended url => on_end url st
  | Paused url => pause url st
  end.

Definition run (db : Db.t) (os : Os.t) (calls : list call) (st : Scheduler)
    : Scheduler :=
  fold_left (step db os) calls st.

(** The state after the output of the children of [urls] has ended, in
    that order. *)
Definition ends (urls : list string) (st : Scheduler) : Scheduler :=
  fold_left (fun s url => on_end url s) urls st.

(** ** Vocabulary of the statements *)

Fixpoint all_chars (p : ascii -> bool) (s : string) : bool :=
  match s with
  | EmptyString => true
  | String c s' => p c && all_chars p s'
  end.

(** A non-empty run of characters of a class. *)
Definition run_of (p : ascii -> bool) (s : string) : Prop :=
  s <> "" /\ all_chars p s = true.

(** A line of the extractor: a percentage, a size with its unit, a speed
    per second and an ETA, with text between them. *)
Definition progress_line
    (pre p1 p2 sep1 s1 s2 unit sep2 v1 v2 per sep3 eta post : string)
    : string :=
  pre +:+ p1 +:+ "." +:+ p2 +:+ sep1 +:+ s1 +:+ "." +:+ s2 +:+ unit +:+ sep2
  +:+ v1 +:+ "." +:+ v2 +:+ per +:+ "/s" +:+ sep3 +:+ eta +:+ post.

(** A non-empty run of decimal digits. *)
Definition digits (s : string) : Prop :=
  s <> "" /\ all_chars is_digit s = true.

(** The text an atom can take. *)
Definition conforms (a : atom) (piece : string) : Prop :=
  match a with
  | One p => exists c, piece = String c "" /\ p c = true
  | Many p => piece <> "" /\ all_chars p piece = true
  end.

(** The text does not start with a character of the class. *)
Definition stops (p : ascii -> bool) (s : string) : Prop :=
  match s with
  | EmptyString => True
  | String c _ => p c = false
  end.

Fixpoint count_char (x : ascii) (s : string) : nat :=
  match s with
  | EmptyString => O
  | String c s' => ((if Ascii.eqb c x then 1 else 0) + count_char x s')%nat
  end.

(** A colon between two digits somewhere in the text. *)
Definition has_pair (eta : string) : Prop :=
  exists pre d1 d2 post,
    eta = pre +:+ String d1 (String ":" (String d2 post))
    /\ is_digit d1 = true /\ is_digit d2 = true.

(** A value that converts to a string: no object with an own property
    named [toString] is reached, in the value or in the elements of an
    array. *)
Fixpoint printable (v : jsval) : bool :=
  match v with
  | Arr items => forallb printable items
  | Obj fields => negb (has_field "toString" fields)
  | _ => true
  end.

(** The string of a value that converts. *)
Definition text (v : jsval) : string :=
  match ToString v with
  | Ret s => s
  | Throw _ => ""
  end.

(** A request whose argument list can be built: the selected filename
    template exists and, for a playlist item, the index converts to a
    string when the files are numbered and the title is a string. *)
Definition well_formed (db : Db.t) (req : Request.t) : Prop :=
  (Db.filenameIndex db < length (Db.filenameFormats db))%nat
  /\ (Playlist.exists_ (Request.playlist req) = true ->
      (Db.autonumber db = true ->
       printable (Playlist.index (Request.playlist req)) = true)
      /\ exists t, Playlist.title (Request.playlist req) = Str t).

(** The order of the ranker: a quality that [parseInt] cannot read comes
    before one it can read, and two readable ones come larger first. *)
Definition ranks_before (x y : Format.t) : Prop :=
  match parseInt (Format.quality x), parseInt (Format.quality y) with
  | Ret None, Ret _ => True
  | Ret (Some _), Ret None => False
  | Ret (Some a), Ret (Some b) => b <= a
  | _, _ => False
  end.

(** The quality that the loop of [getFormats] gives a raw record. *)
Definition quality_of (format : jsval) : jsval :=
  if nullish (get format "height") && nullish (get format "width")
     && negb (nullish (get format "abr"))
  then get format "abr"
  else js_or (get format "height") (get format "format_id").

(** A raw record that the loop can rank: it is an object and its quality
    converts to a string. *)
Definition rankable (format : jsval) : bool :=
  negb (nullish format) && printable (quality_of format).

(** The key of a format whose quality converts. *)
Definition key (f : Format.t) : string :=
  (if Format.isAudioOnly f then "a" else "v") +:+ text (Format.quality f).

(** A number of magnitude from 1e-6 up to below 1e21, or zero, and the
    integer part of a number. *)
Definition plain_decimal (n : jsnum) : Prop :=
  mant n = 0
  \/ (10 ^ Z.of_nat (scale n) <= Z.abs (mant n) * 10 ^ 6
      /\ Z.abs (mant n) < 10 ^ 21 * 10 ^ Z.of_nat (scale n)).

Definition integer_part (n : jsnum) : Z :=
  Z.quot (mant n) (10 ^ Z.of_nat (scale n)).

(** What [parseInt] reads from the quality of such a format, and the
    comparator of the sort on two of them. *)
Definition reading (f : Format.t) : option Z :=
  parseInt_string (text (Format.quality f)).

Definition order (x y : Format.t) : Z :=
  match reading x, reading y with
  | Some a, Some b => b - a
  | Some _, None => 1
  | None, Some _ => -1
  | None, None => 0
  end.

(** What the loop of [getFormats] has kept of the formats [done] that it
    has computed from the raw records so far: the key of each of them was
    computed, [seen] holds the keys of the kept formats, no key is kept
    twice, the kept formats are in the order of the records, each is the
    first one with its key among those with a truthy quality, and the key
    of every such format is kept. *)
Definition kept (done fs : list Format.t) (seen : gset string) : Prop :=
  Forall (fun g => key_of g = Ret (key g)) done
  /\ (forall k, k ∈ seen <-> k ∈ key <$> fs)
  /\ NoDup (key <$> fs)
  /\ fs `sublist_of` done
  /\ (forall f, f ∈ fs ->
        truthy (Format.quality f) = true /\
        exists pre post,
          done = pre ++ f :: post /\
          forall g, g ∈ pre -> truthy (Format.quality g) = true ->
                    key g <> key f)
  /\ (forall g, g ∈ done ->
        truthy (Format.quality g) = true -> key g ∈ key <$> fs).

(** A request of a run that was admitted: [download] returned the stream
    of its child, which it does after it has spawned the child. *)
Definition launched (db : Db.t) (os : Os.t) (calls : list call)
    (child : Child.t) (req : Request.t) : Prop :=
  exists before after st',
    calls = before ++ Requested child req :: after
    /\ download db os child req (run db os before initial)
       = Ret (st', Some (Piped child)).

(** A request of a run that was put on the wait list. *)
Definition waited (db : Db.t) (os : Os.t) (calls : list call)
    (req : Request.t) : Prop :=
  exists before child after st',
    calls = before ++ Requested child req :: after
    /\ download db os child req (run db os before initial) = Ret (st', None).

(** ** Sample inputs *)

Definition os0 : Os.t := Os.mk (String.concat "/") "/app" None.

Definition db0 : Db.t :=
  Db.mk 2 false true 0 0 ["default"; "mp3"] ["default"; "mp4"] 0
    ["%(title)s.%(ext)s"] "/downloads".

Definition db1 : Db.t :=
  Db.mk 1 false true 0 0 ["default"; "mp3"] ["default"; "mp4"] 0
    ["%(title)s.%(ext)s"] "/downloads".

Definition request0 (url : string) : Request.t :=
  Request.mk url (Format.mk false (int 720) "p" (Str "22"))
    (Playlist.mk false Undefined Undefined Undefined).

(** One url both running (process 7) and waiting: the state after two
    requests for it under a limit of one. *)
Definition busy : Scheduler :=
  mkScheduler {["u" := Some 7]} ["u"]
    [Dispatch "u" "/downloads/*";
     Spawn "/app/dev/resources/youtube-dl"
       [Str "--ffmpeg-location"; Str "/app/dev/resources/ffmpeg"; Str "-f";
        Str "22"; Str "-o"; Str "/downloads/%(title)s.%(ext)s"; Str "u"]].

(** A record with one combined format, English subtitles, no playlist. *)
Definition metadata0 : Metadata.t :=
  Metadata.mk (Str "https://example.org/v/1") (Str "Clip") Null
    (Some (mkNum 125 0))
    (Arr [Obj [("format_id", Str "18"); ("height", int 360);
               ("width", int 640); ("acodec", Str "mp4a");
               ("vcodec", Str "avc1")]])
    (Str "18") (Obj [("en", Arr [])]) Null Null Null Null.

(** * Properties *)

(** ** Conversions *)

(** A value converts to a string exactly when it is printable. *)
Lemma ToString_returns v : returns (ToString v) = printable v.
Proof.
  revert v. fix IH 1. intros [| | b | n | s | items | fields]; try reflexivity.
  - by destruct b.
  - cbn [ToString printable].
    induction items as [| x l IHl]; [reflexivity |].
    cbn [forallb join]. rewrite <- (IH x), <- IHl.
    assert (forall r : result string,
      returns (e ← r;
               match l with
               | [] => Ret e
               | _ :: _ => rest ← join ToString l; Ret (e +:+ "," +:+ rest)
               end)
      = returns r && returns (join ToString l)) as Hbind.
    { intros [e |]; [| reflexivity]. cbn [mbind result_bind returns andb].
      destruct l; [reflexivity |]. by destruct (join ToString (_ :: _)). }
    rewrite Hbind. by destruct x.
  - cbn. by destruct (has_field "toString" fields).
Qed.

Lemma ToString_text v : printable v = true -> ToString v = Ret (text v).
Proof.
  rewrite <- ToString_returns. unfold text. by destruct (ToString v).
Qed.

Lemma ToString_throws v : printable v = false -> exists e, ToString v = Throw e.
Proof.
  rewrite <- ToString_returns. destruct (ToString v); [done | by eexists].
Qed.

(** A falsy value is not an object: it converts. *)
Lemma falsy_printable v : truthy v = false -> printable v = true.
Proof. by destruct v. Qed.

(** ** Admission, advancement and cancellation *)

Section Scheduler.
Variables (db : Db.t) (os : Os.t).

Lemma download_queued child req st :
  Db.simultaneous db <= Z.of_nat (size (active st)) ->
  download db os child req st =
  Ret (mkScheduler (active st) (queue st ++ [Request.url req]) (log st), None).
Proof.
  intros Hfull. unfold download.
  destruct (Z.leb_spec (Db.simultaneous db) (Z.of_nat (size (active st))));
    [reflexivity | lia].
Qed.

Lemma download_launched child req st :
  Z.of_nat (size (active st)) < Db.simultaneous db ->
  returns (generateArgs db os req) = true ->
  exists args dispatched,
    generateArgs db os req = Ret (args, dispatched) /\
    download db os child req st =
    Ret (mkScheduler (<[Request.url req := Child.pid child]> (active st))
           (queue st)
           (log st ++ [dispatched; Spawn (ytdlPath os) args]),
         Some (Piped child)).
Proof.
  intros Hroom Hargs. unfold download.
  destruct (Z.leb_spec (Db.simultaneous db) (Z.of_nat (size (active st))));
    [lia |].
  destruct (generateArgs db os req) as [[args d] | e]; [| discriminate].
  exists args, d. split; reflexivity.
Qed.

(** Below the limit a request that cannot build its arguments throws. *)
Lemma download_throws child req st :
  Z.of_nat (size (active st)) < Db.simultaneous db ->
  returns (generateArgs db os req) = false ->
  exists e, download db os child req st = Throw e.
Proof.
  intros Hroom Hargs. unfold download.
  destruct (Z.leb_spec (Db.simultaneous db) (Z.of_nat (size (active st))));
    [lia |].
  destruct (generateArgs db os req) as [[args d] | e]; [discriminate |].
  by exists e.
Qed.

(** What a request does to the state when it returns: it was put on the
    wait list, or it was launched. *)
Lemma download_inv child req st st' stream :
  download db os child req st = Ret (st', stream) ->
  (Db.simultaneous db <= Z.of_nat (size (active st))
   /\ stream = None
   /\ st' = mkScheduler (active st) (queue st ++ [Request.url req]) (log st))
  \/ (Z.of_nat (size (active st)) < Db.simultaneous db
      /\ stream = Some (Piped child)
      /\ exists args dispatched,
          generateArgs db os req = Ret (args, dispatched)
          /\ st' = mkScheduler
                     (<[Request.url req := Child.pid child]> (active st))
                     (queue st)
                     (log st ++ [dispatched; Spawn (ytdlPath os) args])).
Proof.
  unfold download.
  destruct (Z.leb_spec (Db.simultaneous db) (Z.of_nat (size (active st)))).
  - intros [= <- <-]. by left.
  - destruct (generateArgs db os req) as [[args d] | e]; [| done].
    cbn. intros [= <- <-]. right. split; [done |]. split; [done |].
    by exists args, d.
Qed.
End Scheduler.

(** The dispatch of a request reports its url. *)
Lemma generateArgs_dispatch db os req args dispatched :
  generateArgs db os req = Ret (args, dispatched) ->
  exists filepath, dispatched = Dispatch (Request.url req) filepath.
Proof.
  unfold generateArgs.
  destruct (getOutputFormat db os (Request.url req) (Request.playlist req))
    as [[out d] |] eqn:Hout; [| done].
  cbn [mbind result_bind]. intros [= _ <-].
  unfold getOutputFormat in Hout.
  repeat match type of Hout with
         | (?r ≫= _) = _ =>
             destruct r; cbn [mbind result_bind] in Hout; [| discriminate]
         end.
  injection Hout as _ <-. by eexists.
Qed.

(** The arguments can be built exactly when the request is well formed. *)
Lemma generateArgs_returns db os req :
  returns (generateArgs db os req) = true <-> well_formed db req.
Proof.
  unfold well_formed, generateArgs, getOutputFormat.
  destruct (nth_error (Db.filenameFormats db) (Db.filenameIndex db)) as [k |] eqn:Hk.
  - assert (Hlt : (Db.filenameIndex db < length (Db.filenameFormats db))%nat)
      by (apply nth_error_Some; congruence).
    cbn [mbind result_bind].
    destruct (Playlist.exists_ (Request.playlist req));
      [| cbn; split; [intros _; split; [done | discriminate] | reflexivity]].
    assert (returns (if Db.autonumber db
                     then index ← ToString (Playlist.index (Request.playlist req));
                          Ret (index +:+ (if Db.ascii db then "_" else " - ") +:+ k)
                     else Ret k) = true
            <-> (Db.autonumber db = true ->
                 printable (Playlist.index (Request.playlist req)) = true))
      as Hnumber.
    { rewrite <- ToString_returns.
      destruct (Db.autonumber db); [| done].
      destruct (ToString (Playlist.index (Request.playlist req))); cbn;
        split; auto. }
    destruct (if Db.autonumber db then _ else _) as [f |];
      cbn [mbind result_bind].
    + destruct (Playlist.title (Request.playlist req)) as [| | | | t | |];
        cbn; split; try discriminate;
        try (intros [_ H]; by destruct (H eq_refl) as [_ [? ?]]).
      intros _. split; [done |]. intros _. split; [by apply Hnumber |].
      by eexists.
    + split; [discriminate |]. intros [_ H].
      destruct (H eq_refl) as [Hp _]. by apply Hnumber in Hp.
  - apply nth_error_None in Hk. cbn. split; [discriminate | lia].
Qed.
Lemma indexOf_absent url l i : url ∉ l -> indexOf url l i = -1.
Proof.
  revert i. induction l as [| y l IH]; intros i Hnot; [reflexivity |].
  cbn. apply not_elem_of_cons in Hnot as [Hne Hnot].
  destruct (String.eqb_spec y url); [congruence | auto].
Qed.

Lemma indexOf_first url pre post i :
  url ∉ pre ->
  indexOf url (pre ++ url :: post) i = i + Z.of_nat (length pre).
Proof.
  revert i. induction pre as [| y pre IH]; intros i Hnot; cbn.
  - rewrite String.eqb_refl. lia.
  - apply not_elem_of_cons in Hnot as [Hne Hnot].
    destruct (String.eqb_spec y url); [congruence |].
    rewrite IH by assumption. lia.
Qed.

(** [pause] takes the first occurrence of the url out of the wait list. *)
Lemma pause_queue_first url st pre post :
  queue st = pre ++ url :: post -> url ∉ pre ->
  queue (pause url st) = pre ++ post.
Proof.
  intros Hq Hnot. unfold pause. cbn. rewrite Hq.
  rewrite indexOf_first by assumption.
  destruct (Z.eqb_spec (0 + Z.of_nat (length pre)) (-1)); [lia |]. cbn.
  unfold splice1. replace (Z.to_nat (0 + Z.of_nat (length pre))) with (length pre) by lia.
  apply delete_middle.
Qed.

Lemma pause_queue_absent url st :
  url ∉ queue st -> queue (pause url st) = queue st.
Proof.
  intros Hnot. unfold pause. cbn. rewrite indexOf_absent by assumption.
  reflexivity.
Qed.

Lemma pause_active url st : active (pause url st) = active st.
Proof. reflexivity. Qed.

(** C1, as stated, fails for a request whose arguments cannot be built.
    The active set is empty and the limit is 2, yet this request for an
    item of a playlist whose title is [null] is not launched: [path.join]
    throws, nothing is spawned and nothing is recorded. *)
Lemma download_null_title_throws :
  let req :=
    Request.mk "u" (Format.mk false (int 720) "p" (Str "22"))
      (Playlist.mk true Null (int 1) (int 3)) in
  Z.of_nat (size (active initial)) < Db.simultaneous db0
  /\ download db0 os0 (Child.mk (Some 11)) req initial
     = Throw (TypeError "Path must be a string")
  /\ run db0 os0 [Requested (Child.mk (Some 11)) req] initial = initial.
Proof. by vm_compute. Qed.

(** C1, amended.  A request made while the active set has reached the
    limit of simultaneous downloads appends its url to the wait list,
    returns no stream and changes nothing else.  A well-formed request
    made below the limit is launched: the file pattern is dispatched, the
    downloader is spawned with the arguments of the request, the url is
    recorded in the active set with the process of the child, the wait
    list stays as it is and the progress stream is returned.  A request
    made below the limit that is not well formed throws.  With a limit of
    2, three well-formed requests in a row for distinct urls leave two
    running, both spawned, and one waiting. *)
Theorem download_admission (db : Db.t) (os : Os.t) :
  (forall child req st,
      Db.simultaneous db <= Z.of_nat (size (active st)) ->
      download db os child req st =
      Ret (mkScheduler (active st) (queue st ++ [Request.url req]) (log st),
           None))
  /\ (forall child req st,
      Z.of_nat (size (active st)) < Db.simultaneous db ->
      well_formed db req ->
      exists args filepath,
        generateArgs db os req
        = Ret (args, Dispatch (Request.url req) filepath) /\
        download db os child req st
        = Ret (mkScheduler
                 (<[Request.url req := Child.pid child]> (active st))
                 (queue st)
                 (log st ++ [Dispatch (Request.url req) filepath;
                             Spawn (ytdlPath os) args]),
               Some (Piped child)) /\
        Request.url req
          ∈ dom (<[Request.url req := Child.pid child]> (active st)))
  /\ (forall child req st,
      Z.of_nat (size (active st)) < Db.simultaneous db ->
      ~ well_formed db req ->
      exists e, download db os child req st = Throw e)
  /\ (forall c1 c2 c3 r1 r2 r3,
      Db.simultaneous db = 2 ->
      NoDup [Request.url r1; Request.url r2; Request.url r3] ->
      well_formed db r1 -> well_formed db r2 ->
      exists s1 s2 s3 a1 f1 a2 f2,
        download db os c1 r1 initial = Ret (s1, Some (Piped c1)) /\
        download db os c2 r2 s1 = Ret (s2, Some (Piped c2)) /\
        download db os c3 r3 s2 = Ret (s3, None) /\
        dom (active s3) = {[Request.url r1; Request.url r2]} /\
        size (active s3) = 2%nat /\
        queue s3 = [Request.url r3] /\
        log s3 = [Dispatch (Request.url r1) f1; Spawn (ytdlPath os) a1;
                  Dispatch (Request.url r2) f2; Spawn (ytdlPath os) a2]).
Proof.
  assert (forall child req st,
    Z.of_nat (size (active st)) < Db.simultaneous db ->
    well_formed db req ->
    exists args filepath,
      generateArgs db os req
      = Ret (args, Dispatch (Request.url req) filepath) /\
      download db os child req st
      = Ret (mkScheduler
               (<[Request.url req := Child.pid child]> (active st))
               (queue st)
               (log st ++ [Dispatch (Request.url req) filepath;
                           Spawn (ytdlPath os) args]),
             Some (Piped child))) as Hlaunch.
  { intros child req st Hroom Hargs%(generateArgs_returns db os).
    destruct (download_launched db os child req st Hroom Hargs)
      as (args & d & Hgen & Hd).
    destruct (generateArgs_dispatch db os req args d Hgen) as [filepath ->].
    by exists args, filepath. }
  split; [| split; [| split]].
  - intros child req st Hfull. by apply download_queued.
  - intros child req st Hroom Hwf.
    destruct (Hlaunch child req st Hroom Hwf) as (args & filepath & Hgen & Hd).
    exists args, filepath. split; [done |]. split; [done |].
    rewrite dom_insert_L. set_solver.
  - intros child req st Hroom Hbad. apply download_throws; [done |].
    destruct (returns (generateArgs db os req)) eqn:Hret; [| done].
    by apply generateArgs_returns in Hret.
  - intros c1 c2 c3 r1 r2 r3 Hlimit Hnodup Hw1 Hw2.
    apply NoDup_cons in Hnodup as [Hne1 Hnodup].
    apply NoDup_cons in Hnodup as [Hne2 _].
    assert (Request.url r1 <> Request.url r2) as Hne12 by set_solver.
    destruct (Hlaunch c1 r1 initial) as (a1 & f1 & _ & H1);
      [cbn; rewrite map_size_empty; lia | assumption |].
    set (s1 := mkScheduler (<[Request.url r1 := Child.pid c1]> ∅) []
                 ([] ++ [Dispatch (Request.url r1) f1;
                         Spawn (ytdlPath os) a1])).
    assert (size (active s1) = 1%nat) as Hs1.
    { cbn. rewrite map_size_insert_None by apply lookup_empty.
      by rewrite map_size_empty. }
    destruct (Hlaunch c2 r2 s1) as (a2 & f2 & _ & H2); [lia | assumption |].
    set (s2 := mkScheduler (<[Request.url r2 := Child.pid c2]> (active s1))
                 (queue s1)
                 (log s1 ++ [Dispatch (Request.url r2) f2;
                             Spawn (ytdlPath os) a2])).
    assert (size (active s2) = 2%nat) as Hs2.
    { cbn. rewrite map_size_insert_None.
      - f_equal. exact Hs1.
      - rewrite lookup_insert_ne by done. apply lookup_empty. }
    exists s1, s2,
      (mkScheduler (active s2) (queue s2 ++ [Request.url r3]) (log s2)),
      a1, f1, a2, f2.
    split; [exact H1 |]. split; [exact H2 |].
    split; [apply download_queued; lia |].
    split; [| split; [exact Hs2 | split; reflexivity]].
    cbn. rewrite !dom_insert_L, dom_empty_L. set_solver.
Qed.

Lemma download_admission_witness :
  (exists args filepath,
      generateArgs db0 os0 (request0 "a")
      = Ret (args, Dispatch "a" filepath) /\
      download db0 os0 (Child.mk (Some 11)) (request0 "a") initial
      = Ret (mkScheduler (<["a" := Some 11]> ∅) []
               ([] ++ [Dispatch "a" filepath; Spawn (ytdlPath os0) args]),
             Some (Piped (Child.mk (Some 11)))) /\
      "a" ∈ dom (<["a" := Some 11]> (∅ : gmap string (option Z))))
  /\ download db1 os0 (Child.mk (Some 8)) (request0 "v") busy
     = Ret (mkScheduler (active busy) ["u"; "v"] (log busy), None)
  /\ (exists e,
        download db0 os0 (Child.mk (Some 11))
          (Request.mk "u" (Format.mk false (int 720) "p" (Str "22"))
             (Playlist.mk true Null (int 1) (int 3))) initial = Throw e)
  /\ exists s1 s2 s3 a1 f1 a2 f2,
      download db0 os0 (Child.mk (Some 11)) (request0 "a") initial
      = Ret (s1, Some (Piped (Child.mk (Some 11)))) /\
      download db0 os0 (Child.mk (Some 12)) (request0 "b") s1
      = Ret (s2, Some (Piped (Child.mk (Some 12)))) /\
      download db0 os0 (Child.mk (Some 13)) (request0 "c") s2 = Ret (s3, None) /\
      dom (active s3) = {["a"; "b"]} /\
      size (active s3) = 2%nat /\
      queue s3 = ["c"] /\
      log s3 = [Dispatch "a" f1; Spawn (ytdlPath os0) a1;
                Dispatch "b" f2; Spawn (ytdlPath os0) a2].
Proof.
  destruct (download_admission db0 os0) as (Hfull & Hlaunch & Hthrow & Hthree).
  destruct (download_admission db1 os0) as (Hfull1 & _).
  split; [| split; [| split]].
  - apply (Hlaunch (Child.mk (Some 11)) (request0 "a") initial).
    + vm_compute. reflexivity.
    + split; [cbn; lia | discriminate].
  - apply (Hfull1 (Child.mk (Some 8)) (request0 "v") busy).
    vm_compute. discriminate.
  - apply Hthrow; [vm_compute; reflexivity |].
    intros [_ H]. by destruct (H eq_refl) as [_ [t Ht]].
  - apply (Hthree (Child.mk (Some 11)) (Child.mk (Some 12)) (Child.mk (Some 13))
             (request0 "a") (request0 "b") (request0 "c")).
    + reflexivity.
    + repeat constructor; cbn; set_solver.
    + split; [cbn; lia | discriminate].
    + split; [cbn; lia | discriminate].
Defined.

(** C2. Advancement: the end of a child's output removes its url from the
    active set, then takes the url at the front of the wait list and emits
    it on [dequeue]; with an empty wait list the event carries nothing, and
    a url that is not in the active set leaves the set as it is while the
    wait list is popped all the same. *)
Theorem end_of_stream_advances (url : string) (st : Scheduler) :
  active (on_end url st) = delete url (active st)
  /\ (url ∉ dom (active (on_end url st)))
  /\ queue (on_end url st) = tail (queue st)
  /\ log (on_end url st) = log st ++ [Emit (head (queue st))]
  /\ (forall next rest,
        queue st = next :: rest ->
        queue (on_end url st) = rest /\
        log (on_end url st) = log st ++ [Emit (Some next)])
  /\ (queue st = [] ->
      queue (on_end url st) = [] /\
      log (on_end url st) = log st ++ [Emit None])
  /\ (active st !! url = None ->
      active (on_end url st) = active st /\
      queue (on_end url st) = tail (queue st) /\
      log (on_end url st) = log st ++ [Emit (head (queue st))]).
Proof.
  split; [reflexivity |]. split.
  { cbn. rewrite dom_delete_L. set_solver. }
  split; [reflexivity |]. split; [reflexivity |].
  split; [| split].
  - intros next rest Hq. cbn. by rewrite Hq.
  - intros Hq. cbn. by rewrite Hq.
  - intros Hnone. cbn. split; [by apply delete_id | done].
Qed.

Lemma end_of_stream_advances_witness :
  (queue (on_end "u" busy) = [] /\
   log (on_end "u" busy) = log busy ++ [Emit (Some "u")])
  /\ (queue (on_end "a" initial) = [] /\
      log (on_end "a" initial) = log initial ++ [Emit None])
  /\ (active (on_end "zz" busy) = active busy /\
      queue (on_end "zz" busy) = tail (queue busy) /\
      log (on_end "zz" busy) = log busy ++ [Emit (head (queue busy))]).
Proof.
  destruct (end_of_stream_advances "u" busy) as (_ & _ & _ & _ & H1 & _).
  destruct (end_of_stream_advances "a" initial) as (_ & _ & _ & _ & _ & H2 & _).
  destruct (end_of_stream_advances "zz" busy) as (_ & _ & _ & _ & _ & _ & H3).
  split; [apply (H1 "u" []); reflexivity |].
  split; [apply H2; reflexivity |].
  apply H3. vm_compute. reflexivity.
Defined.

(** [busy] is what two requests for one url leave under a limit of one. *)
Lemma busy_reachable :
  ('(s1, _) ← download db1 os0 (Child.mk (Some 7)) (request0 "u") initial;
   '(s2, _) ← download db1 os0 (Child.mk (Some 9)) (request0 "u") s1;
   Ret s2) = Ret busy.
Proof. vm_compute. reflexivity. Qed.

(** C5, as stated, fails: cancelling a url that waits is not free of
    process side effects when the same url is also running.  In [busy] the
    url is in the wait list, and [pause] signals process 7. *)
Lemma pause_signals_running_duplicate :
  "u" ∈ queue busy /\ log (pause "u" busy) = log busy ++ [Kill 7].
Proof. split; [set_solver | vm_compute; reflexivity]. Qed.

(** C5, amended.  Cancellation does two independent things: it takes the
    first occurrence of the url, if there is one, out of the wait list; and
    it signals the process recorded for the url in the active set, if one
    is recorded, whether or not the url was waiting too.  It never changes
    the active set, and for a url that is in neither it changes nothing. *)
Theorem pause_cancels (url : string) (st : Scheduler) :
  active (pause url st) = active st
  /\ (forall pre post,
        queue st = pre ++ url :: post -> url ∉ pre ->
        queue (pause url st) = pre ++ post)
  /\ (url ∉ queue st -> queue (pause url st) = queue st)
  /\ (forall pid,
        active st !! url = Some (Some pid) -> pid <> 0 ->
        log (pause url st) = log st ++ [Kill pid])
  /\ (active st !! url = None \/ active st !! url = Some None
      \/ active st !! url = Some (Some 0) ->
      log (pause url st) = log st)
  /\ (url ∉ queue st -> active st !! url = None -> pause url st = st).
Proof.
  split; [reflexivity |].
  split; [intros pre post; apply pause_queue_first |].
  split; [apply pause_queue_absent |].
  split; [| split].
  - intros pid Hpid Hnz. unfold pause. cbn. rewrite Hpid. cbn.
    destruct (Z.eqb_spec pid 0); [contradiction | reflexivity].
  - intros [H | [H | H]]; unfold pause; cbn; rewrite H; reflexivity.
  - intros Hq Ha. destruct st as [a q l]. unfold pause. cbn in *.
    rewrite indexOf_absent by assumption. rewrite Ha. reflexivity.
Qed.

Lemma pause_cancels_witness :
  queue (pause "u" busy) = []
  /\ log (pause "u" busy) = log busy ++ [Kill 7]
  /\ queue (pause "w" busy) = queue busy
  /\ log (pause "w" busy) = log busy
  /\ pause "w" busy = busy.
Proof.
  destruct (pause_cancels "u" busy) as (_ & Hfirst & _ & Hkill & _).
  destruct (pause_cancels "w" busy) as (_ & _ & Hkeep & _ & Hquiet & Hnop).
  split; [apply (Hfirst [] []); [reflexivity | set_solver] |].
  split; [apply Hkill; [vm_compute; reflexivity | lia] |].
  split; [apply Hkeep; vm_compute; set_solver |].
  split; [apply Hquiet; left; vm_compute; reflexivity |].
  apply Hnop; [vm_compute; set_solver | vm_compute; reflexivity].
Defined.




(** ** Texts *)

Lemma str_app_nil_l (s : string) : "" +:+ s = s.
Proof. reflexivity. Qed.

Lemma str_app_cons (c : ascii) (a b : string) :
  String c a +:+ b = String c (a +:+ b).
Proof. reflexivity. Qed.

Lemma str_app_nil_r (s : string) : s +:+ "" = s.
Proof. induction s as [| c s IH]; [reflexivity |]. by rewrite str_app_cons, IH. Qed.

Lemma str_app_assoc (a b c : string) : (a +:+ b) +:+ c = a +:+ b +:+ c.
Proof.
  induction a as [| x a IH]; [reflexivity |]. by rewrite !str_app_cons, IH.
Qed.

Lemma all_chars_app p a b :
  all_chars p (a +:+ b) = all_chars p a && all_chars p b.
Proof.
  induction a as [| c a IH]; [reflexivity |].
  rewrite str_app_cons. cbn. rewrite IH. by rewrite andb_assoc.
Qed.

Lemma count_char_app x a b :
  count_char x (a +:+ b) = (count_char x a + count_char x b)%nat.
Proof.
  induction a as [| c a IH]; [reflexivity |].
  rewrite str_app_cons. cbn. rewrite IH. lia.
Qed.

Lemma count_char_none p x s :
  p x = false -> all_chars p s = true -> count_char x s = O.
Proof.
  intros Hx. induction s as [| c s IH]; [reflexivity |]. cbn.
  intros [Hc Hs]%andb_true_iff. rewrite (IH Hs).
  destruct (Ascii.eqb_spec c x); [congruence | reflexivity].
Qed.

(** A non-empty text ends with a character. *)
Lemma last_char p s :
  s <> "" -> all_chars p s = true ->
  exists s' c, s = s' +:+ String c "" /\ p c = true.
Proof.
  induction s as [| c s IH]; [done |]. intros _ [Hc Hs]%andb_true_iff.
  destruct s as [| c' s'].
  - exists "", c. done.
  - destruct IH as (t & d & Ht & Hd); [done | done |].
    exists (String c t), d. by rewrite str_app_cons, <- Ht.
Qed.

(** ** The matcher *)

Lemma match_many_nil p r : match_here (Many p :: r) "" = None.
Proof. reflexivity. Qed.

Lemma match_many_cons p r c s :
  match_here (Many p :: r) (String c s) =
  if p c then
    match match_here (Many p :: r) s with
    | Some (piece :: rest) => Some (String c piece :: rest)
    | _ => cons (String c "") <$> match_here r s
    end
  else None.
Proof. reflexivity. Qed.

Lemma match_many_stops p r s : stops p s -> match_here (Many p :: r) s = None.
Proof.
  destruct s as [| c s]; [reflexivity |]. cbn [stops]. intros Hc.
  by rewrite match_many_cons, Hc.
Qed.

(** A repetition takes the whole run when the rest of the pattern matches
    what follows the run. *)
Lemma match_many_run p r run rest pieces :
  run <> "" -> all_chars p run = true -> stops p rest ->
  match_here r rest = Some pieces ->
  match_here (Many p :: r) (run +:+ rest) = Some (run :: pieces).
Proof.
  intros Hne Hall Hstop Hrest.
  induction run as [| c run IH]; [done |].
  cbn in Hall. apply andb_true_iff in Hall as [Hc Hall].
  rewrite str_app_cons, match_many_cons, Hc.
  destruct run as [| c' run'].
  - rewrite str_app_nil_l, match_many_stops by assumption. by rewrite Hrest.
  - by rewrite IH.
Qed.

(** What a successful match took conforms to the pattern and is a prefix of
    the text. *)
Lemma match_here_sound r s pieces :
  match_here r s = Some pieces ->
  Forall2 conforms r pieces /\
  exists rest, s = fold_right String.append rest pieces.
Proof.
  revert s pieces. induction r as [| a r IH]; intros s pieces.
  - cbn. intros [= <-]. split; [constructor | by exists s].
  - destruct a as [p | p].
    + destruct s as [| c s]; [done |]. cbn.
      destruct (p c) eqn:Hc; [| done].
      destruct (match_here r s) as [ps |] eqn:Hm; [| done].
      intros [= <-]. destruct (IH _ _ Hm) as [Hf [rest Hr]].
      split; [constructor; [by exists c | done] |].
      exists rest. cbn. by rewrite str_app_cons, str_app_nil_l, <- Hr.
    + revert pieces. induction s as [| c s IHs]; intros pieces; [done |].
      rewrite match_many_cons. destruct (p c) eqn:Hc; [| done].
      destruct (match_here (Many p :: r) s) as [[| piece ps] |] eqn:Hm.
      * destruct (IHs _ eq_refl) as [Hf _]. inversion Hf.
      * intros [= <-]. destruct (IHs _ eq_refl) as [Hf [rest Hr]].
        inversion Hf as [| ? ? ? ? Hpiece Hf']; subst.
        destruct Hpiece as [Hne Hall].
        split.
        { constructor; [| exact Hf']. split; [done |]. cbn. by rewrite Hc. }
        exists rest. cbn. rewrite str_app_cons. by f_equal.
      * destruct (match_here r s) as [ps |] eqn:Hm'; [| done].
        intros [= <-]. destruct (IH _ _ Hm') as [Hf [rest Hr]].
        split.
        { constructor; [| exact Hf]. split; [done |]. cbn. by rewrite Hc. }
        exists rest. cbn. by rewrite str_app_cons, str_app_nil_l, <- Hr.
Qed.

Lemma exec_atoms_sound r s pieces :
  exec_atoms r s = Some pieces ->
  exists pre suffix, s = pre +:+ suffix /\ match_here r suffix = Some pieces.
Proof.
  induction s as [| c s IH]; cbn [exec_atoms].
  - destruct (match_here r "") eqn:Hm; [| done].
    intros [= <-]. by exists "", "".
  - destruct (match_here r (String c s)) eqn:Hm.
    + intros [= <-]. by exists "", (String c s).
    + intros (pre & suffix & -> & Hs)%IH. by exists (String c pre), suffix.
Qed.

Lemma exec_atoms_here r s pieces :
  match_here r s = Some pieces -> exec_atoms r s = Some pieces.
Proof. intros H. destruct s; cbn [exec_atoms]; by rewrite H. Qed.

Lemma exec_atoms_complete r pre suffix :
  is_Some (match_here r suffix) -> is_Some (exec_atoms r (pre +:+ suffix)).
Proof.
  intros [pieces Hm]. induction pre as [| c pre IH].
  - rewrite str_app_nil_l. exists pieces. by apply exec_atoms_here.
  - rewrite str_app_cons. cbn [exec_atoms].
    destruct (match_here r (String c (pre +:+ suffix))); [by eexists | done].
Qed.

Lemma match_one_cons p r c s :
  match_here (One p :: r) (String c s) =
  if p c then cons (String c "") <$> match_here r s else None.
Proof. reflexivity. Qed.

Lemma match_many_last p c s :
  p c = true -> is_Some (match_here [Many p] (String c s)).
Proof.
  intros Hc. rewrite match_many_cons, Hc.
  destruct (match_here [Many p] s) as [[| piece rest] |]; cbn; by eexists.
Qed.

Ltac invert_pieces :=
  repeat match goal with
         | H : Forall2 conforms (_ :: _) _ |- _ =>
             inversion H; subst; clear H
         | H : Forall2 conforms [] _ |- _ => inversion H; subst; clear H
         | H : conforms (One _) _ |- _ => destruct H as (? & -> & ?)
         | H : conforms (Many _) _ |- _ => destruct H as [? ?]
         | H : is_char _ _ = true |- _ =>
             apply Ascii.eqb_eq in H; subst
         end.

(** ** ETA formatting *)

Lemma hRegex_atoms :
  map snd hRegex =
  [Many is_digit; One (is_char ":"); Many is_digit; One (is_char ":");
   Many is_digit].
Proof. reflexivity. Qed.

Lemma mRegex_atoms :
  map snd mRegex = [Many is_digit; One (is_char ":"); Many is_digit].
Proof. reflexivity. Qed.

Lemma match_digits_end s :
  digits s -> match_here [Many is_digit] s = Some [s].
Proof.
  intros [Hne Hall]. rewrite <- (str_app_nil_r s) at 1.
  by apply match_many_run.
Qed.

Lemma match_digits_colon r run rest pieces :
  digits run -> match_here r rest = Some pieces ->
  match_here (Many is_digit :: One (is_char ":") :: r) (run +:+ ":" +:+ rest)
  = Some (run :: ":" :: pieces).
Proof.
  intros [Hne Hall] Hrest. apply match_many_run; [done | done | done |].
  change (":" +:+ rest) with (String ":" rest).
  rewrite match_one_cons. cbn. by rewrite Hrest.
Qed.

Lemma exec_hRegex_hms h m s :
  digits h -> digits m -> digits s ->
  exec hRegex (h +:+ ":" +:+ m +:+ ":" +:+ s) = Some [h; ":"; m; ":"; s].
Proof.
  intros Hh Hm Hs. unfold exec. rewrite hRegex_atoms.
  apply exec_atoms_here.
  apply match_digits_colon; [done |].
  apply match_digits_colon; [done |].
  by apply match_digits_end.
Qed.

Lemma exec_mRegex_ms m s :
  digits m -> digits s ->
  exec mRegex (m +:+ ":" +:+ s) = Some [m; ":"; s].
Proof.
  intros Hm Hs. unfold exec. rewrite mRegex_atoms.
  apply exec_atoms_here.
  apply match_digits_colon; [done |].
  by apply match_digits_end.
Qed.

(** A match of the three-field pattern holds two colons. *)
Lemma exec_hRegex_colons eta pieces :
  exec hRegex eta = Some pieces -> (2 <= count_char ":" eta)%nat.
Proof.
  unfold exec. rewrite hRegex_atoms.
  intros (pre & suffix & -> & Hm)%exec_atoms_sound.
  apply match_here_sound in Hm as [Hf [rest ->]].
  invert_pieces. cbn [fold_right].
  rewrite !count_char_app. cbn. lia.
Qed.

Lemma exec_hRegex_ms m s :
  digits m -> digits s -> exec hRegex (m +:+ ":" +:+ s) = None.
Proof.
  intros [_ Hm] [_ Hs].
  destruct (exec hRegex (m +:+ ":" +:+ s)) as [pieces |] eqn:He; [| done].
  apply exec_hRegex_colons in He.
  rewrite !count_char_app in He.
  rewrite (count_char_none is_digit ":" m) in He by done.
  rewrite (count_char_none is_digit ":" s) in He by done.
  cbn in He. lia.
Qed.

(** ** Numbers read from digits *)

Lemma hex_value_digit c :
  is_digit c = true -> exists d, hex_value c = Some d /\ 0 <= d <= 9.
Proof.
  intros Hc. unfold hex_value. rewrite Hc. eexists. split; [done |].
  unfold is_digit in Hc. lia.
Qed.

Lemma read_digits_bound s a :
  all_chars is_digit s = true -> 0 <= a ->
  exists v, read_digits 10 s (Some a) = Some v /\
            a * 10 ^ Z.of_nat (String.length s) <= v
            < (a + 1) * 10 ^ Z.of_nat (String.length s).
Proof.
  revert a. induction s as [| c s IH]; intros a Hall Ha.
  - exists a. cbn. split; [done | lia].
  - cbn in Hall. apply andb_true_iff in Hall as [Hc Hall].
    destruct (hex_value_digit c Hc) as (d & Hd & Hrange).
    cbn [read_digits]. rewrite Hd.
    destruct (Z.ltb_spec d 10); [| lia]. cbn [default].
    destruct (IH (a * 10 + d) Hall) as (v & Hv & Hb); [lia |].
    exists v. split; [done |].
    cbn [String.length]. rewrite Nat2Z.inj_succ, Z.pow_succ_r by lia. nia.
Qed.

Lemma digits_value_bound s :
  all_chars is_digit s = true ->
  0 <= digits_value s < 10 ^ Z.of_nat (String.length s).
Proof.
  intros Hall. unfold digits_value. destruct s as [| c s]; [cbn; lia |].
  cbn in Hall. apply andb_true_iff in Hall as [Hc Hall].
  destruct (hex_value_digit c Hc) as (d & Hd & Hrange).
  cbn [read_digits]. rewrite Hd. destruct (Z.ltb_spec d 10); [| lia].
  cbn [default].
  destruct (read_digits_bound s (0 * 10 + d) Hall) as (v & -> & Hb); [lia |].
  cbn [default String.length]. rewrite Nat2Z.inj_succ, Z.pow_succ_r by lia.
  assert (0 < 10 ^ Z.of_nat (String.length s)) by (apply Z.pow_pos_nonneg; lia).
  unfold id. nia.
Qed.

(** Integers below [2^53] are doubles. *)
Lemma to_double_small z : 0 <= z < 2 ^ 53 -> to_double z = z.
Proof.
  intros Hz. unfold to_double, round53.
  destruct (Z.eq_dec z 0) as [-> | Hnz]; [reflexivity |].
  rewrite Z.abs_eq by lia.
  assert (Z.log2 z < 53) by (apply Z.log2_lt_pow2; lia).
  destruct (Z.leb_spec (Z.log2 z - 52) 0); [| lia].
  rewrite Z.sgn_pos by lia.
  rewrite Z.min_l; [lia |].
  transitivity (2 ^ 53); [lia |]. apply Z.pow_le_mono_r; lia.
Qed.

Lemma Number_of_digits_small s :
  all_chars is_digit s = true -> (String.length s <= 15)%nat ->
  Number_of_digits s = digits_value s /\ 0 <= digits_value s < 10 ^ 15.
Proof.
  intros Hall Hlen. pose proof (digits_value_bound s Hall) as Hb.
  assert (10 ^ Z.of_nat (String.length s) <= 10 ^ 15)
    by (apply Z.pow_le_mono_r; lia).
  split; [| lia]. unfold Number_of_digits. apply to_double_small.
  assert (10 ^ 15 < 2 ^ 53) by (vm_compute; reflexivity). lia.
Qed.

(** ** Integers printed and read back *)

Lemma pretty_char_digit d :
  (d < 10)%N ->
  is_digit (pretty_N_char d) = true /\
  hex_value (pretty_N_char d) = Some (Z.of_N d).
Proof.
  intros Hd.
  assert (d = 0 \/ d = 1 \/ d = 2 \/ d = 3 \/ d = 4 \/ d = 5 \/ d = 6
          \/ d = 7 \/ d = 8 \/ d = 9)%N as Hcases by lia.
  repeat destruct Hcases as [-> | Hcases]; try subst d; by vm_compute.
Qed.

Lemma pretty_go_digits x s :
  all_chars is_digit s = true -> all_chars is_digit (pretty_N_go x s) = true.
Proof.
  revert s. induction (N.lt_wf_0 x) as [x _ IH]; intros s Hs.
  destruct (decide (x = 0%N)) as [-> | Hx]; [by rewrite pretty_N_go_0 |].
  rewrite pretty_N_go_step by lia.
  apply IH; [apply N.div_lt; lia |]. cbn.
  destruct (pretty_char_digit (x mod 10)) as [-> _]; [| done].
  apply N.mod_lt. lia.
Qed.

Lemma read_pretty_go x s :
  read_digits 10 (pretty_N_go x s) None
  = read_digits 10 s (if decide (x = 0%N) then None else Some (Z.of_N x)).
Proof.
  revert s. induction (N.lt_wf_0 x) as [x _ IH]; intros s.
  destruct (decide (x = 0%N)) as [-> | Hx]; [by rewrite pretty_N_go_0 |].
  rewrite pretty_N_go_step by lia.
  rewrite IH by (apply N.div_lt; lia).
  cbn [read_digits].
  destruct (pretty_char_digit (x mod 10)) as [_ ->]; [apply N.mod_lt; lia |].
  assert (x mod 10 < 10)%N by (apply N.mod_lt; lia).
  destruct (Z.ltb_spec (Z.of_N (x mod 10)) 10); [| lia].
  f_equal. f_equal.
  pose proof (N.div_mod x 10) as Hdm.
  destruct (decide ((x `div` 10)%N = 0%N)) as [Hq | Hq]; cbn [default].
  - rewrite Hq in Hdm. lia.
  - unfold id. lia.
Qed.

Lemma pretty_N_digits (n : N) :
  all_chars is_digit (pretty n) = true /\
  read_digits 10 (pretty n) None = Some (Z.of_N n).
Proof.
  unfold pretty, pretty_N.
  destruct (decide (n = 0%N)) as [-> | Hn]; [done |].
  split; [by apply pretty_go_digits |].
  rewrite read_pretty_go. by destruct (decide (n = 0%N)).
Qed.

(** [digits_value] is the number that the digits denote. *)
Lemma digits_value_pretty (n : N) : digits_value (pretty n) = Z.of_N n.
Proof.
  unfold digits_value. by destruct (pretty_N_digits n) as [_ ->].
Qed.


(** ** Numbers printed *)

(** Rounding does not take an integer from [2^53] on below [2^53]. *)
Lemma to_double_large c : 2 ^ 53 <= c -> 2 ^ 53 <= to_double c.
Proof.
  intros Hc. unfold to_double, round53.
  rewrite Z.abs_eq, Z.sgn_pos by lia.
  assert (53 <= Z.log2 c) as Hlog by (apply Z.log2_le_pow2; lia).
  destruct (Z.leb_spec (Z.log2 c - 52) 0); [lia |].
  set (k := Z.log2 c - 52) in *.
  assert (2 ^ (k + 52) <= c) as Hlow.
  { replace (k + 52) with (Z.log2 c) by lia. apply Z.log2_spec. lia. }
  rewrite Z.pow_add_r in Hlow by lia.
  assert (2 <= 2 ^ k) as Hk.
  { change 2 with (2 ^ 1) at 1. apply Z.pow_le_mono_r; lia. }
  assert (2 ^ 52 <= c / 2 ^ k) as Hq.
  { apply Z.div_le_lower_bound; lia. }
  assert (2 ^ 53 <= 2 ^ 1024) by (apply Z.pow_le_mono_r; lia).
  assert (2 ^ 53 = 2 ^ 52 * 2) as H53 by reflexivity.
  destruct ((_ <? _) || _); nia.
Qed.

(** Below [2^53] only the integer itself reads back as it. *)
Lemma to_double_exact x c :
  0 <= x < 2 ^ 53 -> 0 <= c -> to_double c = x -> c = x.
Proof.
  intros Hx Hc Heq. destruct (Z.lt_ge_cases c (2 ^ 53)) as [Hlt | Hge].
  - by rewrite to_double_small in Heq.
  - pose proof (to_double_large c Hge). lia.
Qed.

Lemma shorten_at_small j x : 0 <= x < 2 ^ 53 -> shorten_at j x = x.
Proof.
  intros Hx. induction j as [| j IH]; cbn [shorten_at].
  all: set (p := 10 ^ Z.of_nat _).
  all: assert (0 < p) as Hp by (apply Z.pow_pos_nonneg; lia).
  all: pose proof (Z.mul_div_le x p Hp) as Hle.
  all: pose proof (Z.mod_pos_bound x p Hp) as Hmod.
  all: pose proof (Z.div_mod x p) as Hdm.
  all: assert (0 <= x / p) as Hq by (apply Z.div_pos; lia).
  all: destruct (Z.eqb_spec (to_double (x / p * p + p)) x) as [Ha | Ha];
    [apply to_double_exact in Ha; [lia | done | nia] |].
  all: rewrite andb_false_r.
  all: destruct (Z.eqb_spec (to_double (x / p * p)) x) as [Hb | Hb];
    [apply to_double_exact in Hb; [done | done | nia] | done].
Qed.

Lemma strip_zeros_spec d :
  (String.length (strip_zeros d) <= String.length d)%nat /\
  strip_zeros d
  +:+ zeros (String.length d - String.length (strip_zeros d)) = d.
Proof.
  induction d as [| c d [Hlen Heq]]; [done |]. cbn [strip_zeros].
  destruct (strip_zeros d) as [| c' t] eqn:Hs.
  - rewrite str_app_nil_l in Heq. cbn [String.length] in Heq.
    rewrite Nat.sub_0_r in Heq.
    unfold is_char. destruct (Ascii.eqb_spec c "0") as [-> | Hc];
      cbn [String.length]; (split; [lia |]).
    + rewrite str_app_nil_l, Nat.sub_0_r. cbn [zeros]. by rewrite Heq.
    + rewrite str_app_cons, str_app_nil_l.
      replace (S (String.length d) - 1)%nat with (String.length d) by lia.
      by rewrite Heq.
  - cbn [String.length] in *. split; [lia |].
    rewrite str_app_cons. cbn [Nat.sub]. by rewrite Heq.
Qed.

Lemma pretty_go_length x s :
  (0 < x)%N ->
  exists n : nat,
    String.length (pretty_N_go x s) = (String.length s + S n)%nat
    /\ 10 ^ Z.of_nat n <= Z.of_N x < 10 ^ Z.of_nat (S n).
Proof.
  revert s. induction (N.lt_wf_0 x) as [x _ IH]; intros s Hx.
  rewrite pretty_N_go_step by done.
  destruct (decide ((x `div` 10)%N = 0%N)) as [Hq | Hq].
  - rewrite Hq, pretty_N_go_0. exists O. cbn [String.length].
    split; [lia |].
    apply N.div_small_iff in Hq; [| done].
    change (10 ^ Z.of_nat 0) with 1. change (10 ^ Z.of_nat 1) with 10. lia.
  - assert (x `div` 10 < x)%N as Hlt by (apply N.div_lt; lia).
    assert (0 < x `div` 10)%N as Hpos by (by apply N.neq_0_lt_0).
    destruct (IH _ Hlt (String (pretty_N_char (x `mod` 10)) s) Hpos)
      as (n & Hlen & Hn).
    exists (S n). rewrite Hlen. cbn [String.length]. split; [lia |].
    pose proof (N.div_mod x 10) as Hdm.
    pose proof (N.mod_lt x 10) as Hm.
    rewrite !Nat2Z.inj_succ, !Z.pow_succ_r in * by lia.
    generalize dependent (x `div` 10)%N. generalize dependent (x `mod` 10)%N.
    intros. lia.
Qed.

(** A positive integer has as many digits as its size tells. *)
Lemma pretty_length (n : N) :
  (0 < n)%N ->
  10 ^ (Z.of_nat (String.length (pretty n)) - 1) <= Z.of_N n
  < 10 ^ Z.of_nat (String.length (pretty n)).
Proof.
  intros Hn. unfold pretty, pretty_N.
  destruct (decide (n = 0%N)); [lia |].
  destruct (pretty_go_length n "" Hn) as (k & -> & Hk).
  cbn [String.length Nat.add].
  by replace (Z.of_nat (S k) - 1) with (Z.of_nat k) by lia.
Qed.

(** The shortest decimal of an integer of magnitude below 1e21 prints as
    plain digits. *)
Lemma decimal_to_string_int z :
  Z.abs z < 10 ^ 21 -> decimal_to_string (mkNum z 0) = pretty z.
Proof.
  intros Hz. unfold decimal_to_string. cbn [mant scale].
  destruct (Z.eqb_spec z 0) as [-> | Hnz]; [reflexivity |].
  set (d := pretty (Z.abs_N z)).
  destruct (strip_zeros_spec d) as [Hlen Heq].
  assert (Z.of_nat (String.length d) <= 21) as Hd.
  { destruct (pretty_length (Z.abs_N z)) as [Hlow _]; [lia |]. fold d in Hlow.
    destruct (Z.le_gt_cases (Z.of_nat (String.length d)) 21) as [| Hgt];
      [done |].
    assert (10 ^ 21 <= 10 ^ (Z.of_nat (String.length d) - 1))
      by (apply Z.pow_le_mono_r; lia).
    lia. }
  rewrite Z.sub_0_r.
  destruct (Z.leb_spec (Z.of_nat (String.length (strip_zeros d)))
              (Z.of_nat (String.length d))); [| lia].
  destruct (Z.leb_spec (Z.of_nat (String.length d)) 21); [| lia].
  cbn [andb]. rewrite Nat2Z.id, Heq.
  destruct z as [| p | p]; [done | reflexivity | reflexivity].
Qed.

(** An integer-valued double below [2^53] prints its plain digits. *)
Lemma double_to_string_small x :
  Z.abs x < 2 ^ 53 -> double_to_string x = int_to_string x.
Proof.
  intros Hx. unfold double_to_string, int_to_string.
  assert (2 ^ 53 < 10 ^ 21) by (vm_compute; reflexivity).
  assert (2 ^ 53 <= 2 ^ 1024) by (apply Z.pow_le_mono_r; lia).
  destruct (Z.leb_spec (2 ^ 1024) (Z.abs x)); [lia |].
  unfold shorten. rewrite shorten_at_small by lia.
  replace (Z.sgn x * Z.abs x) with x by lia.
  apply decimal_to_string_int. lia.
Qed.

Lemma to_double_opp z : to_double (- z) = - to_double z.
Proof. unfold to_double. rewrite Z.abs_opp, Z.sgn_opp. lia. Qed.

(** An integer literal of magnitude below [2^53] denotes itself. *)
Lemma Number_of_int z :
  Z.abs z < 2 ^ 53 -> Number_of (mkNum z 0) = Finite (mkNum z 0).
Proof.
  intros Hz. unfold Number_of. cbn [mant scale].
  assert (to_double z = z) as ->.
  { destruct (Z.le_gt_cases 0 z); [apply to_double_small; lia |].
    rewrite <- (Z.opp_involutive z), to_double_opp, to_double_small; lia. }
  assert (2 ^ 53 <= 2 ^ 1024) by (apply Z.pow_le_mono_r; lia).
  destruct (Z.leb_spec (2 ^ 1024) (Z.abs z)); [lia |].
  unfold shorten. rewrite shorten_at_small by lia.
  by replace (Z.sgn z * Z.abs z) with z by lia.
Qed.

Lemma num_to_string_int z :
  Z.abs z < 2 ^ 53 -> num_to_string (mkNum z 0) = pretty z.
Proof.
  intros Hz. unfold num_to_string. rewrite Number_of_int by done.
  assert (2 ^ 53 < 10 ^ 21) by (vm_compute; reflexivity).
  apply decimal_to_string_int. lia.
Qed.


(** Numbers as [Number::toString] prints them: the nearest double of a
    long literal, exponent forms below 1e-6 and from 1e21 on, the
    infinities. *)
Lemma num_to_string_samples :
  num_to_string (mkNum 1 1) = "0.1"
  /\ num_to_string (mkNum 1282 1) = "128.2"
  /\ num_to_string (mkNum 7200 1) = "720"
  /\ num_to_string (mkNum 1 7) = "1e-7"
  /\ num_to_string (mkNum 123 8) = "0.00000123"
  /\ num_to_string (mkNum 30000000000000004 17) = "0.30000000000000004"
  /\ num_to_string (mkNum 99999999999999999999 20) = "1"
  /\ num_to_string (mkNum 9007199254740993 0) = "9007199254740992"
  /\ num_to_string (mkNum 12345678901234567890 0) = "12345678901234567000"
  /\ num_to_string (mkNum (2 ^ 64) 0) = "18446744073709552000"
  /\ num_to_string (mkNum (10 ^ 21) 0) = "1e+21"
  /\ num_to_string (mkNum (2 ^ 70) 0) = "1.1805916207174113e+21"
  /\ num_to_string (mkNum 5 324) = "5e-324"
  /\ num_to_string (mkNum 1 400) = "0"
  /\ num_to_string (mkNum (10 ^ 400) 0) = "Infinity"
  /\ double_to_string (to_double (10 ^ 23)) = "1e+23".
Proof. by vm_compute. Qed.
Lemma groups_hRegex h c1 m c2 s :
  groups hRegex [h; c1; m; c2; s] "hr" = Some h
  /\ groups hRegex [h; c1; m; c2; s] "min" = Some m
  /\ groups hRegex [h; c1; m; c2; s] "sec" = Some s.
Proof. unfold groups. cbn. by rewrite !str_app_nil_r. Qed.

Lemma groups_mRegex m c s :
  groups mRegex [m; c; s] "hr" = None
  /\ groups mRegex [m; c; s] "min" = Some m
  /\ groups mRegex [m; c; s] "sec" = Some s.
Proof. unfold groups. cbn. by rewrite !str_app_nil_r. Qed.

(** C4, as stated, fails on its first example: ["00:45"] has no hours and
    zero minutes, so the seconds are reported. *)
Lemma getETA_zero_minutes :
  getETA "00:45" = Ret "46s left" /\ getETA "00:45" <> Ret "1min left".
Proof. split; [vm_compute; reflexivity | vm_compute; discriminate]. Qed.

(** C4, amended.  For fields of at most 15 digits: with three fields and
    non-zero hours the result counts hours, one more when the minutes are
    30 or more; with zero or no hours and non-zero minutes it counts
    minutes, one more when the seconds are 30 or more; otherwise it counts
    the seconds plus one.  So ["00:45"] gives ["46s left"]; the other three
    examples are as stated. *)
Theorem getETA_format (h m s : string) :
  digits h -> digits m -> digits s ->
  (String.length h <= 15)%nat -> (String.length m <= 15)%nat ->
  (String.length s <= 15)%nat ->
  let hr := digits_value h in
  let min := digits_value m in
  let sec := digits_value s in
  let without_hours :=
    if negb (min =? 0)
    then int_to_string (if 30 <=? sec then min + 1 else min) +:+ "min left"
    else int_to_string (sec + 1) +:+ "s left" in
  getETA (h +:+ ":" +:+ m +:+ ":" +:+ s) =
    Ret (if negb (hr =? 0)
         then int_to_string (if 30 <=? min then hr + 1 else hr) +:+ "h left"
         else without_hours)
  /\ getETA (m +:+ ":" +:+ s) = Ret without_hours
  /\ getETA "00:45" = Ret "46s left"
  /\ getETA "44:10" = Ret "44min left"
  /\ getETA "01:35:00" = Ret "2h left"
  /\ getETA "00:00:03" = Ret "4s left".
Proof.
  intros Hh Hm Hs Lh Lm Ls hr min sec without_hours.
  destruct (Number_of_digits_small h (proj2 Hh) Lh) as [Nh Bh].
  destruct (Number_of_digits_small m (proj2 Hm) Lm) as [Nm Bm].
  destruct (Number_of_digits_small s (proj2 Hs) Ls) as [Ns Bs].
  assert (forall z, 0 <= z < 10 ^ 15 -> to_double (z + 1) = z + 1) as Hsucc.
  { intros z Hz. apply to_double_small.
    assert (10 ^ 15 < 2 ^ 53) by (vm_compute; reflexivity). lia. }
  assert (10 ^ 15 < 2 ^ 53) as Hbig by (vm_compute; reflexivity).
  split; [| split; [| repeat split; vm_compute; reflexivity]].
  - unfold getETA. rewrite exec_hRegex_hms by assumption.
    destruct (groups_hRegex h ":" m ":" s) as (-> & -> & ->). cbn [default].
    destruct (String.eqb_spec h ""); [by destruct Hh |]. unfold id.
    rewrite Nh, Nm, Ns, !Hsucc by assumption.
    subst hr min sec without_hours. cbv zeta.
    repeat case_match; rewrite ?double_to_string_small by lia; reflexivity.
  - unfold getETA. rewrite exec_hRegex_ms, exec_mRegex_ms by assumption.
    cbn [fmap option_fmap option_map].
    destruct (groups_mRegex m ":" s) as (-> & -> & ->). cbn [default].
    unfold id. change (negb (0 =? 0)) with false. cbv iota.
    rewrite Nm, Ns, !Hsucc by assumption.
    subst hr min sec without_hours. cbv zeta.
    repeat case_match; rewrite ?double_to_string_small by lia; reflexivity.
Qed.

Lemma getETA_format_witness :
  getETA ("1" +:+ ":" +:+ "35" +:+ ":" +:+ "00") = Ret "2h left"
  /\ getETA ("00" +:+ ":" +:+ "45") = Ret "46s left".
Proof.
  assert (digits "1" /\ digits "35" /\ digits "00" /\ digits "45")
    as (H1 & H35 & H00 & H45) by (repeat split; done).
  destruct (getETA_format "1" "35" "00" H1 H35 H00) as (Hhms & _);
    [cbn; lia | cbn; lia | cbn; lia |].
  destruct (getETA_format "1" "00" "45" H1 H00 H45) as (_ & Hms & _);
    [cbn; lia | cbn; lia | cbn; lia |].
  split; [exact Hhms | exact Hms].
Defined.

(** ** When the ETA formatter throws *)

Lemma has_pair_intro pre a c rest :
  a <> "" -> all_chars is_digit a = true ->
  c <> "" -> all_chars is_digit c = true ->
  has_pair (pre +:+ a +:+ ":" +:+ c +:+ rest).
Proof.
  intros Ha Hda Hc Hdc.
  destruct (last_char is_digit a Ha Hda) as (a' & d1 & -> & Hd1).
  destruct c as [| d2 c']; [done |].
  cbn in Hdc. apply andb_true_iff in Hdc as [Hd2 _].
  exists (pre +:+ a'), d1, d2, (c' +:+ rest).
  split; [| done]. by rewrite !str_app_assoc.
Qed.

Lemma exec_mRegex_pair eta pieces :
  exec mRegex eta = Some pieces -> has_pair eta.
Proof.
  unfold exec. rewrite mRegex_atoms.
  intros (pre & suffix & -> & Hm)%exec_atoms_sound.
  apply match_here_sound in Hm as [Hf [rest ->]].
  invert_pieces. cbn [fold_right]. by apply has_pair_intro.
Qed.

Lemma exec_hRegex_pair eta pieces :
  exec hRegex eta = Some pieces -> has_pair eta.
Proof.
  unfold exec. rewrite hRegex_atoms.
  intros (pre & suffix & -> & Hm)%exec_atoms_sound.
  apply match_here_sound in Hm as [Hf [rest ->]].
  invert_pieces. cbn [fold_right]. by apply has_pair_intro.
Qed.

Lemma pair_exec_mRegex eta : has_pair eta -> is_Some (exec mRegex eta).
Proof.
  intros (pre & d1 & d2 & post & -> & Hd1 & Hd2).
  unfold exec. rewrite mRegex_atoms. apply exec_atoms_complete.
  rewrite match_many_cons, Hd1.
  rewrite match_many_stops by done.
  rewrite match_one_cons. cbn [is_char Ascii.eqb].
  destruct (match_many_last is_digit d2 post Hd2) as [ps ->].
  cbn. by eexists.
Qed.

(** [getETA] throws exactly on a text without a colon between two
    digits. *)
Lemma getETA_returns eta : returns (getETA eta) = true <-> has_pair eta.
Proof.
  unfold getETA. split.
  - destruct (exec hRegex eta) as [ph |] eqn:Hh;
      [intros _; by eapply exec_hRegex_pair |].
    destruct (exec mRegex eta) as [pm |] eqn:Hm;
      [intros _; by eapply exec_mRegex_pair | done].
  - intros [pm Hm]%pair_exec_mRegex.
    destruct (exec hRegex eta); [done |]. by rewrite Hm.
Qed.

Lemma getETA_throws eta : ~ has_pair eta -> getETA eta = Throw null_groups.
Proof.
  intros Hno. unfold getETA.
  destruct (exec hRegex eta) as [ph |] eqn:Hh;
    [destruct Hno; by eapply exec_hRegex_pair |].
  destruct (exec mRegex eta) as [pm |] eqn:Hm;
    [destruct Hno; by eapply exec_mRegex_pair | done].
Qed.

(** ** Download mode *)

Lemma getProgress_unmatched line :
  exec progress_regex line = None ->
  getProgress line =
  Ret (Text (if includes "[ffmpeg]" line then "processing" else "")).
Proof.
  intros Hno. unfold getProgress. rewrite Hno.
  by destruct (includes "[ffmpeg]" line).
Qed.

(** A matching line whose ETA can be formatted gives a record; the size is
    the number followed by its unit. *)
Lemma getProgress_matched line pieces :
  let g name := default "" (groups progress_regex pieces name) in
  exec progress_regex line = Some pieces ->
  has_pair (g "eta") ->
  exists p,
    getProgress line = Ret (Info p) /\
    Progress.percent p = g "percent" /\
    Progress.downloaded p =
      toFixed2 (fmul (fdiv (Number_of_decimal (g "percent")) (double_of_Z 100))
                     (Number_of_decimal (g "size"))) /\
    Progress.size p = g "size" +:+ g "unit" /\
    Progress.speed p = g "speed" /\
    getETA (g "eta") = Ret (Progress.eta p).
Proof.
  intros g Hm Hpair. unfold getProgress. rewrite Hm.
  apply getETA_returns in Hpair. subst g. cbv beta in *.
  destruct (getETA (default "" (groups progress_regex pieces "eta")))
    as [e |] eqn:He; [| done].
  eexists. split; [reflexivity |]. done.
Qed.

Lemma getProgress_example :
  getProgress "[download]  45.20% of 100.00MiB at  1.20MiB/s ETA 00:45" =
  Ret (Info (Progress.mk "45.20" "45.20" "100.00MiB" "1.20MiB/s" "46s left")).
Proof. vm_compute. reflexivity. Qed.

(** C6, at a failing input.  This line matches the five groups, with the
    ETA ["12"], and the parser throws where a record was to be emitted. *)
Theorem getProgress_bare_eta :
  let line := "[download]  45.20% of 100.00MiB at  1.20MiB/s ETA 12" in
  exists pieces,
    exec progress_regex line = Some pieces /\
    groups progress_regex pieces "percent" = Some "45.20" /\
    groups progress_regex pieces "size" = Some "100.00" /\
    groups progress_regex pieces "unit" = Some "MiB" /\
    groups progress_regex pieces "speed" = Some "1.20MiB/s" /\
    groups progress_regex pieces "eta" = Some "12" /\
    getProgress line = Throw null_groups.
Proof. eexists. split; [vm_compute; reflexivity |]. by vm_compute. Qed.

(** C10. The parser of the download mode is partial: a line that matches
    the five groups with an ETA holding no colon between two digits makes
    [getETA] read [groups] of a failed match, and the exception leaves
    [getProgress]; the parser returns on every other line and on no line of
    this kind.  A line cut after the first digits of the ETA is one. *)
Theorem getProgress_partial (line : string) :
  (forall pieces,
      exec progress_regex line = Some pieces ->
      ~ has_pair (default "" (groups progress_regex pieces "eta")) ->
      getProgress line = Throw null_groups)
  /\ (returns (getProgress line) = true <->
      exec progress_regex line = None \/
      exists pieces,
        exec progress_regex line = Some pieces /\
        has_pair (default "" (groups progress_regex pieces "eta")))
  /\ getProgress "[download]  12.5% of 30.00MiB at 500.00KiB/s ETA 0"
     = Throw null_groups.
Proof.
  split; [| split; [| by vm_compute]].
  - intros pieces Hm Hno. unfold getProgress. rewrite Hm.
    by rewrite (getETA_throws _ Hno).
  - split.
    + destruct (exec progress_regex line) as [pieces |] eqn:Hm; [| by left].
      intros Hret. right. exists pieces. split; [done |].
      apply getETA_returns. unfold getProgress in Hret. rewrite Hm in Hret.
      by destruct (getETA (default "" (groups progress_regex pieces "eta"))).
    + intros [Hno | (pieces & Hm & Hpair)].
      * by rewrite getProgress_unmatched.
      * by destruct (getProgress_matched line pieces Hm Hpair) as (p & -> & _).
Qed.

Lemma getProgress_partial_witness :
  getProgress "[download]  7.1% of 9.50MiB at 1.00MiB/s ETA :" = Throw null_groups
  /\ returns (getProgress "[download]  7.1% of 9.50MiB at 1.00MiB/s ETA 1:5")
     = true.
Proof.
  split.
  - destruct (getProgress_partial
                "[download]  7.1% of 9.50MiB at 1.00MiB/s ETA :") as [H _].
    apply (H ["7"; "."; "1"; "% of "; "9"; "."; "50"; "MiB"; " at "; "1"; ".";
              "00"; "MiB"; "/"; "s"; " ETA "; ":"]).
    + vm_compute. reflexivity.
    + intros Hpair%getETA_returns. vm_compute in Hpair. discriminate.
  - destruct (getProgress_partial
                "[download]  7.1% of 9.50MiB at 1.00MiB/s ETA 1:5")
      as (_ & [_ H] & _).
    apply H. right.
    exists ["7"; "."; "1"; "% of "; "9"; "."; "50"; "MiB"; " at "; "1"; ".";
            "00"; "MiB"; "/"; "s"; " ETA "; "1:5"].
    split; [vm_compute; reflexivity |].
    exists "", "1"%char, "5"%char, "". by vm_compute.
Defined.

(** ** Sorting *)

Section SortFacts.
Context {A : Type} (cmp : A -> A -> Z).

Lemma sort_insert_perm x l : sort_insert cmp x l ≡ₚ x :: l.
Proof.
  induction l as [| y l IH]; [done |]. cbn.
  destruct (cmp x y <=? 0); [done |].
  rewrite IH. apply Permutation_swap.
Qed.

Lemma sort_perm l : sort cmp l ≡ₚ l.
Proof.
  induction l as [| x l IH]; [done |]. cbn.
  fold (sort cmp l). by rewrite sort_insert_perm, IH.
Qed.

(** Elements that compare equal among themselves keep their order. *)
Lemma sort_insert_filter (P : A -> Prop) `{!forall x, Decision (P x)} x l :
  (forall a b, P a -> P b -> cmp a b <= 0) ->
  filter P (sort_insert cmp x l) = filter P (x :: l).
Proof.
  intros Heq. induction l as [| y l IH]; [done |]. cbn [sort_insert].
  destruct (Z.leb_spec (cmp x y) 0) as [Hle | Hgt]; [done |].
  rewrite filter_cons, IH, !filter_cons.
  destruct (decide (P y)) as [Py |], (decide (P x)) as [Px |]; try done.
  specialize (Heq x y Px Py). lia.
Qed.

Lemma sort_filter (P : A -> Prop) `{!forall x, Decision (P x)} l :
  (forall a b, P a -> P b -> cmp a b <= 0) ->
  filter P (sort cmp l) = filter P l.
Proof.
  intros Heq. induction l as [| x l IH]; [done |]. cbn.
  fold (sort cmp l). rewrite sort_insert_filter by done.
  by rewrite !filter_cons, IH.
Qed.

(** For a comparator that is total and transitive the result is sorted. *)
Lemma sort_insert_sorted x l :
  (forall a b, cmp a b <= 0 \/ cmp b a <= 0) ->
  (forall a b c, cmp a b <= 0 -> cmp b c <= 0 -> cmp a c <= 0) ->
  StronglySorted (fun a b => cmp a b <= 0) l ->
  StronglySorted (fun a b => cmp a b <= 0) (sort_insert cmp x l).
Proof.
  intros Htotal Htrans. induction l as [| y l IH]; intros Hs.
  - cbn. repeat constructor.
  - cbn. apply StronglySorted_inv in Hs as [Hs Hy].
    destruct (Z.leb_spec (cmp x y) 0) as [Hle | Hgt].
    + constructor; [by constructor |]. constructor; [done |].
      eapply Forall_impl; [exact Hy |]. intros z Hz. by eapply Htrans.
    + constructor; [by apply IH |].
      rewrite sort_insert_perm. constructor; [| done].
      destruct (Htotal x y); [lia | done].
Qed.

Lemma sort_sorted l :
  (forall a b, cmp a b <= 0 \/ cmp b a <= 0) ->
  (forall a b c, cmp a b <= 0 -> cmp b c <= 0 -> cmp a c <= 0) ->
  StronglySorted (fun a b => cmp a b <= 0) (sort cmp l).
Proof.
  intros Htotal Htrans. induction l as [| x l IH]; [constructor |].
  cbn. fold (sort cmp l). by apply sort_insert_sorted.
Qed.
End SortFacts.

(** With a comparator that does not throw on the elements, the sort with
    exceptions is the sort. *)
Section SortByFacts.
Context {A : Type} (compare : A -> A -> result Z) (cmp : A -> A -> Z).

Lemma insert_by_pure x l :
  (forall y, y ∈ l -> compare x y = Ret (cmp x y)) ->
  insert_by compare x l = Ret (sort_insert cmp x l).
Proof.
  induction l as [| y l IH]; intros Hpure; [reflexivity |].
  cbn [insert_by sort_insert]. rewrite Hpure by set_solver.
  cbn [mbind result_bind]. destruct (cmp x y <=? 0); [reflexivity |].
  rewrite IH by set_solver. reflexivity.
Qed.

Lemma sort_by_pure l :
  (forall x y, x ∈ l -> y ∈ l -> compare x y = Ret (cmp x y)) ->
  sort_by compare l = Ret (sort cmp l).
Proof.
  induction l as [| x l IH]; intros Hpure; [reflexivity |].
  cbn [sort_by sort foldr]. fold (sort_by compare l). fold (sort cmp l).
  rewrite IH by set_solver. cbn [mbind result_bind].
  apply insert_by_pure. intros y Hy. apply Hpure; [set_solver |].
  rewrite sort_perm in Hy. set_solver.
Qed.
End SortByFacts.

(** ** Subtitles *)

Lemma own_keys_perm fields : own_keys fields ≡ₚ map fst fields.
Proof.
  unfold own_keys. rewrite sort_perm.
  rewrite <- (filter_app_complement (fun k => is_Some (array_index k))
                (map fst fields)) at 3.
  f_equiv. apply reflexive_eq, list_filter_iff.
  intros k. by rewrite eq_None_not_Some.
Qed.

Lemma own_keys_plain fields :
  Forall (fun k => array_index k = None) (map fst fields) ->
  own_keys fields = map fst fields.
Proof.
  unfold own_keys. generalize (map fst fields) as ks.
  intros ks Hall.
  assert (filter (fun k => is_Some (array_index k)) ks = []) as ->.
  { induction Hall as [| k ks Hk _ IH]; [done |].
    rewrite filter_cons_False; [done |]. rewrite Hk. by intros [? ?]. }
  cbn. induction Hall as [| k ks Hk _ IH]; [done |].
  rewrite filter_cons_True by done. by rewrite IH.
Qed.

(** C8, as stated, fails for an absent map: only [null] is tested for, and
    [Object.keys(undefined)] throws. *)
Lemma getSubtitles_undefined :
  getSubtitles Undefined
  = Throw (TypeError "Cannot convert undefined or null to object")
  /\ getSubtitles Undefined <> Ret [].
Proof. split; [reflexivity | discriminate]. Qed.

(** C8, amended.  A [null] map gives the empty list; an absent
    ([undefined]) map makes the extraction throw; an object gives its keys,
    whatever the values: all of them, array indices first, and in the
    order of the object when no key is an array index, as language codes
    are. *)
Theorem getSubtitles_keys :
  getSubtitles Null = Ret []
  /\ getSubtitles Undefined
     = Throw (TypeError "Cannot convert undefined or null to object")
  /\ forall fields,
      exists keys,
        getSubtitles (Obj fields) = Ret keys /\
        keys ≡ₚ map fst fields /\
        (Forall (fun k => array_index k = None) (map fst fields) ->
         keys = map fst fields) /\
        (forall fields',
            map fst fields' = map fst fields ->
            getSubtitles (Obj fields') = Ret keys).
Proof.
  split; [reflexivity |]. split; [reflexivity |].
  intros fields. exists (own_keys fields).
  split; [reflexivity |]. split; [apply own_keys_perm |].
  split; [apply own_keys_plain |].
  intros fields' Hsame. cbn. unfold own_keys. by rewrite Hsame.
Qed.

Lemma getSubtitles_keys_witness :
  getSubtitles (Obj [("en", Arr []); ("pt-BR", Null)]) = Ret ["en"; "pt-BR"].
Proof.
  destruct getSubtitles_keys as (_ & _ & H).
  destruct (H [("en", Arr []); ("pt-BR", Null)]) as (keys & -> & _ & Hplain & _).
  f_equal. apply Hplain. repeat constructor.
Defined.

(** ** Metadata mode *)

Section Pipe.
Context {C A : Type} (f : C -> result A).

Lemma transform_pushes ps c a :
  f c = Ret a ->
  transform f (Transform.mk ps None) c = Transform.mk (ps ++ [a]) None.
Proof. intros Hc. unfold transform. cbn. by rewrite Hc. Qed.

Lemma transform_throws ps c e :
  f c = Throw e ->
  transform f (Transform.mk ps None) c = Transform.mk ps (Some e).
Proof. intros Hc. unfold transform. cbn. by rewrite Hc. Qed.

Lemma transform_stalled t c e :
  Transform.thrown t = Some e -> transform f t c = t.
Proof. intros He. unfold transform. by rewrite He. Qed.

Lemma pipe_thrown l t e :
  Transform.thrown t = Some e -> fold_left (transform f) l t = t.
Proof.
  intros He. induction l as [| c l IH]; [done |]. cbn [fold_left].
  by rewrite (transform_stalled t c e).
Qed.

Lemma pipe_good l ds ps :
  mapM f l = Ret ds ->
  fold_left (transform f) l (Transform.mk ps None) = Transform.mk (ps ++ ds) None.
Proof.
  revert ds ps. induction l as [| c l IH]; intros ds ps.
  - cbn. intros [= <-]. by rewrite app_nil_r.
  - intros Hm. cbn in Hm.
    destruct (f c) as [d | e] eqn:Hc; [| done]. cbn in Hm.
    destruct (mapM f l) as [ds' |] eqn:Hl; [| done]. cbn in Hm.
    injection Hm as <-. cbn [fold_left].
    rewrite (transform_pushes ps c d Hc).
    rewrite (IH ds') by done. by rewrite <- app_assoc.
Qed.

Lemma pipe_stops good bad rest ds e :
  mapM f good = Ret ds -> f bad = Throw e ->
  pipe f (good ++ bad :: rest) = Transform.mk ds (Some e).
Proof.
  intros Hgood Hbad. unfold pipe. rewrite fold_left_app.
  rewrite (pipe_good _ ds) by done. cbn [fold_left app].
  rewrite (transform_throws _ _ e Hbad).
  by apply (pipe_thrown _ _ e).
Qed.
End Pipe.




(** ** Integers read back *)

Lemma digit_plain c :
  is_digit c = true ->
  is_space c = false /\ is_char "-" c = false /\ is_char "+" c = false
  /\ is_char "x" c = false /\ is_char "X" c = false.
Proof.
  intros Hc.
  assert (forall x, is_digit x = false -> is_char x c = false) as Hne.
  { intros x Hx. unfold is_char. destruct (Ascii.eqb_spec c x); [| done].
    congruence. }
  split; [unfold is_digit, is_space in *; lia |].
  repeat split; by apply Hne.
Qed.

(** White space starts with a space of one byte or with a byte that is
    not an ASCII character. *)
Lemma skip_spaces_plain c s :
  char_code c < 128 -> is_space c = false ->
  skip_spaces (String c s) = String c s.
Proof.
  intros Hc Hsp. cbn [skip_spaces]. rewrite Hsp.
  destruct s as [| b s]; [reflexivity |].
  assert (is_space2 c b = false) as -> by (unfold is_space2; lia).
  destruct s as [| x s]; [reflexivity |].
  by assert (is_space3 c b x = false) as -> by (unfold is_space3; lia).
Qed.

Lemma parseInt_digits d :
  d <> "" -> all_chars is_digit d = true ->
  parseInt_string d = Some (to_double (digits_value d))
  /\ parseInt_string ("-" +:+ d) = Some (to_double (- digits_value d)).
Proof.
  intros Hne Hall. destruct d as [| c d]; [done |].
  cbn in Hall. apply andb_true_iff in Hall as [Hc Hd].
  destruct (digit_plain c Hc) as (Hsp & Hminus & Hplus & _).
  assert (forall sign,
    (let '(radix, s) :=
       match String c d with
       | String c0 (String x s') =>
           if is_char "0" c0 && (is_char "x" x || is_char "X" x)
           then (16, s') else (10, String c d)
       | _ => (10, String c d)
       end in
     match read_digits radix s None with
     | Some n => Some (to_double (sign * n))
     | None => None
     end) = Some (to_double (sign * digits_value (String c d)))) as Hrest.
  { intros sign.
    assert (exists v, read_digits 10 (String c d) None = Some v) as [v Hv].
    { destruct (hex_value_digit c Hc) as (k & Hk & Hrange).
      cbn [read_digits]. rewrite Hk. destruct (Z.ltb_spec k 10); [| lia].
      destruct (read_digits_bound d (default 0 None * 10 + k) Hd) as (v & -> & _);
        [cbn; lia | by eexists]. }
    unfold digits_value. rewrite Hv. cbn [default]. unfold id.
    destruct d as [| x d']; [by rewrite Hv |].
    cbn in Hd. apply andb_true_iff in Hd as [Hx _].
    destruct (digit_plain x Hx) as (_ & _ & _ & -> & ->).
    rewrite andb_false_r. by rewrite Hv. }
  split.
  - unfold parseInt_string.
    rewrite skip_spaces_plain by (unfold is_digit in Hc; lia || done).
    cbv zeta. rewrite Hminus, Hplus.
    rewrite (Hrest 1). do 2 f_equal; lia.
  - unfold parseInt_string.
    change ("-" +:+ String c d) with (String "-" (String c d)).
    rewrite skip_spaces_plain by (vm_compute; done).
    cbv zeta. change (is_char "-" "-") with true. cbv iota.
    rewrite (Hrest (-1)). do 2 f_equal; lia.
Qed.

(** An integer quality below [2^53] is read back as itself. *)
Lemma parseInt_int z : Z.abs z < 2 ^ 53 -> parseInt (int z) = Ret (Some z).
Proof.
  intros Hz. unfold parseInt, int. cbn [ToString mbind result_bind].
  rewrite num_to_string_int by lia. do 2 f_equal.
  destruct z as [| p | p]; [reflexivity | |].
  - destruct (pretty_N_digits (N.pos p)) as [Hdigits Hread].
    change (pretty (Z.pos p)) with (pretty (N.pos p)).
    destruct (parseInt_digits (pretty (N.pos p))) as [-> _];
      [intros Hd; by rewrite Hd in Hread | done |].
    unfold digits_value. rewrite Hread. cbn [default].
    f_equal. apply to_double_small. lia.
  - destruct (pretty_N_digits (N.pos p)) as [Hdigits Hread].
    change (pretty (Z.neg p)) with ("-" +:+ pretty (N.pos p)).
    destruct (parseInt_digits (pretty (N.pos p))) as [_ ->];
      [intros Hd; by rewrite Hd in Hread | done |].
    unfold digits_value. rewrite Hread. cbn [default].
    unfold id. f_equal. rewrite to_double_opp, to_double_small; lia.
Qed.

(** ** Format ranker *)

Lemma key_of_returns f :
  returns (key_of f) = printable (Format.quality f).
Proof.
  unfold key_of, seen_key. rewrite <- ToString_returns.
  by destruct (ToString (Format.quality f)).
Qed.

Lemma key_of_inv f k : key_of f = Ret k -> k = key f.
Proof.
  unfold key_of, seen_key, key, text.
  destruct (ToString (Format.quality f)); [| done]. by intros [= <-].
Qed.

Lemma key_of_key f : printable (Format.quality f) = true -> key_of f = Ret (key f).
Proof.
  rewrite <- key_of_returns. destruct (key_of f) as [k |] eqn:Hk; [| done].
  by rewrite (key_of_inv f k Hk).
Qed.

Lemma key_printable f : key_of f = Ret (key f) -> printable (Format.quality f) = true.
Proof. intros Hk. by rewrite <- key_of_returns, Hk. Qed.

Lemma parseInt_reading f :
  printable (Format.quality f) = true ->
  parseInt (Format.quality f) = Ret (reading f).
Proof.
  intros Hp. unfold parseInt, reading. by rewrite (ToString_text _ Hp).
Qed.

Lemma compare_order x y :
  printable (Format.quality x) = true -> printable (Format.quality y) = true ->
  compare x y = Ret (order x y).
Proof.
  intros Hx Hy. unfold compare, order.
  by rewrite (parseInt_reading x Hx), (parseInt_reading y Hy).
Qed.

Lemma order_ranks x y :
  printable (Format.quality x) = true -> printable (Format.quality y) = true ->
  order x y <= 0 <-> ranks_before x y.
Proof.
  intros Hx Hy. unfold order, ranks_before.
  rewrite (parseInt_reading x Hx), (parseInt_reading y Hy).
  destruct (reading x), (reading y); lia.
Qed.

Lemma order_total x y : order x y <= 0 \/ order y x <= 0.
Proof. unfold order. destruct (reading x), (reading y); lia. Qed.

Lemma order_trans x y z : order x y <= 0 -> order y z <= 0 -> order x z <= 0.
Proof. unfold order. destruct (reading x), (reading y), (reading z); lia. Qed.

(** The format of a record has the quality of the record. *)
Lemma classify_quality r f :
  classify r = Ret f -> Format.quality f = quality_of r.
Proof.
  unfold classify, quality_of. intros Hc.
  match type of Hc with
  | (?c ≫= _) = _ => destruct c; [| discriminate]
  end.
  cbn in Hc. by injection Hc as <-.
Qed.

(** The conversions of the body of the loop return exactly when the
    quality of the record converts. *)
Lemma classify_key_returns r :
  returns (f ← classify r; key_of f) = printable (quality_of r).
Proof.
  unfold classify, key_of, seen_key, quality_of.
  set (audio := nullish (get r "height") && nullish (get r "width")
                && negb (nullish (get r "abr"))).
  set (video := negb (is_str "none" (get r "vcodec"))
                && is_str "none" (get r "acodec")).
  assert (forall v, (printable v = true /\ ToString v = Ret (text v))
                    \/ (printable v = false /\ exists e, ToString v = Throw e))
    as Hcases.
  { intros v. destruct (printable v) eqn:Hp.
    - left. split; [done |]. by apply ToString_text.
    - right. split; [done |]. by apply ToString_throws. }
  destruct audio.
  - destruct (Hcases (get r "abr")) as [[-> Ha] | [-> [e Ha]]];
      rewrite Ha; cbn [mbind result_bind Format.quality Format.isAudioOnly];
      rewrite ?Ha; reflexivity.
  - destruct video.
    + unfold js_or. destruct (truthy (get r "height")) eqn:Ht.
      * destruct (Hcases (get r "height")) as [[-> Hh] | [-> [e Hh]]];
          rewrite Hh; cbn [mbind result_bind Format.quality Format.isAudioOnly];
          rewrite ?Hh; cbn [mbind result_bind Format.quality Format.isAudioOnly];
          rewrite ?Hh; reflexivity.
      * pose proof (falsy_printable _ Ht) as Hp.
        rewrite (ToString_text _ Hp).
        cbn [mbind result_bind Format.quality Format.isAudioOnly].
        destruct (Hcases (get r "format_id")) as [[-> Hf] | [-> [e Hf]]];
          rewrite Hf; reflexivity.
    + cbn [mbind result_bind Format.isAudioOnly Format.quality].
      destruct (Hcases (js_or (get r "height") (get r "format_id")))
        as [[-> Hq] | [-> [e Hq]]]; rewrite Hq; reflexivity.
Qed.

Lemma rank_returns st r : returns (rank st r) = rankable r.
Proof.
  destruct st as [fs seen]. unfold rank, rankable.
  destruct (nullish r); [reflexivity |]. cbn [negb andb].
  rewrite <- classify_key_returns.
  destruct (classify r) as [f |]; [| reflexivity]. cbn [mbind result_bind].
  destruct (key_of f) as [k |]; [| reflexivity]. cbn [mbind result_bind].
  by destruct (truthy _ && negb _).
Qed.

(** The loop returns exactly on records that are all rankable. *)
Lemma forEach_rank_returns items st :
  returns (forEach rank items st) = forallb rankable items.
Proof.
  revert st. induction items as [| r items IH]; intros st; [reflexivity |].
  cbn [forEach forallb]. rewrite <- (rank_returns st r).
  destruct (rank st r) as [st' |]; [| reflexivity].
  cbn [mbind result_bind returns andb]. apply IH.
Qed.

Lemma rank_kept done fs seen r fs' seen' :
  rank (fs, seen) r = Ret (fs', seen') ->
  kept done fs seen ->
  exists f, classify r = Ret f /\ kept (done ++ [f]) fs' seen'.
Proof.
  unfold rank. destruct (nullish r); [done |].
  destruct (classify r) as [f |]; [| done]. cbn [mbind result_bind].
  destruct (key_of f) as [k |] eqn:Hk; [| done]. cbn [mbind result_bind].
  pose proof (key_of_inv f k Hk) as ->.
  intros Hrank (Hkeys & Hseen & Hnodup & Hsub & Hfirst & Hall).
  exists f. split; [done |].
  assert (Forall (fun g => key_of g = Ret (key g)) (done ++ [f])) as Hkeys'.
  { apply Forall_app. split; [done |]. by constructor. }
  assert (forall f0, f0 ∈ fs ->
            truthy (Format.quality f0) = true /\
            exists pre post,
              done ++ [f] = pre ++ f0 :: post /\
              forall g, g ∈ pre -> truthy (Format.quality g) = true ->
                        key g <> key f0) as Hfirst'.
  { intros f0 Hf0. destruct (Hfirst f0 Hf0) as (Ht & pre & post & Hd & Hpre).
    split; [done |]. exists pre, (post ++ [f]).
    split; [| done]. rewrite Hd. by rewrite <- app_assoc. }
  destruct (truthy (Format.quality f)) eqn:Htruthy; cbn in Hrank;
    [destruct (bool_decide (key f ∈ seen)) eqn:Hin; cbn in Hrank |];
    injection Hrank as <- <-.
  - (* the key was seen *)
    apply bool_decide_eq_true in Hin.
    split; [done |]. split; [done |]. split; [done |].
    split; [by apply sublist_inserts_r |].
    split; [done |].
    intros g Hg Hgt.
    apply elem_of_app in Hg as [Hg | Hg]; [by apply Hall |].
    apply list_elem_of_singleton in Hg as ->. by apply Hseen.
  - (* a new key *)
    apply bool_decide_eq_false in Hin.
    split; [done |]. split; [| split; [| split; [| split]]].
    + intros k. rewrite fmap_app, elem_of_app, elem_of_union, elem_of_singleton.
      cbn. rewrite list_elem_of_singleton, Hseen. tauto.
    + rewrite fmap_app. apply NoDup_app. split; [done |].
      split; [| apply NoDup_singleton].
      intros k Hk'. cbn. rewrite list_elem_of_singleton. intros ->.
      by apply Hin, Hseen.
    + by apply sublist_app.
    + intros f0 [Hf0 | Hf0]%elem_of_app; [by apply Hfirst' |].
      apply list_elem_of_singleton in Hf0 as ->.
      split; [done |]. exists done, [].
      split; [done |].
      intros g Hg Hgt Hkey. apply Hin, Hseen. rewrite <- Hkey. by apply Hall.
    + intros g Hg Hgt. rewrite fmap_app, elem_of_app.
      apply elem_of_app in Hg as [Hg | Hg]; [left; by apply Hall |].
      apply list_elem_of_singleton in Hg as ->. right. cbn. set_solver.
  - (* a falsy quality *)
    split; [done |]. split; [done |]. split; [done |].
    split; [by apply sublist_inserts_r |].
    split; [done |].
    intros g Hg Hgt.
    apply elem_of_app in Hg as [Hg | Hg]; [by apply Hall |].
    apply list_elem_of_singleton in Hg as ->. congruence.
Qed.

Lemma forEach_kept items done fs seen fs' seen' :
  forEach rank items (fs, seen) = Ret (fs', seen') ->
  kept done fs seen ->
  exists cs, mapM classify items = Ret cs /\ kept (done ++ cs) fs' seen'.
Proof.
  revert done fs seen. induction items as [| r items IH]; intros done fs seen.
  - cbn. intros [= <- <-] Hkept. exists []. by rewrite app_nil_r.
  - cbn [forEach]. destruct (rank (fs, seen) r) as [[fs1 seen1] |] eqn:Hr; [| done].
    cbn [mbind result_bind]. intros Hrest Hkept.
    destruct (rank_kept done fs seen r fs1 seen1 Hr Hkept) as (f & Hf & Hkept1).
    destruct (IH (done ++ [f]) fs1 seen1 Hrest Hkept1) as (cs & Hcs & Hkept2).
    exists (f :: cs). split.
    + cbn. rewrite Hf. cbn. rewrite Hcs. reflexivity.
    + by rewrite <- app_assoc in Hkept2.
Qed.

Lemma kept_nothing : kept [] [] ∅.
Proof.
  split; [constructor |].
  split; [set_solver |]. split; [constructor |]. split; [constructor |].
  split; [intros f Hf; by apply elem_of_nil in Hf |].
  intros g Hg. by apply elem_of_nil in Hg.
Qed.

Lemma StronglySorted_weaken {A} (R S : A -> A -> Prop) l :
  (forall a b, R a b -> S a b) -> StronglySorted R l -> StronglySorted S l.
Proof.
  intros HRS. induction 1 as [| a l Hs IH Hall]; constructor; [done |].
  eapply Forall_impl; [exact Hall | auto].
Qed.

Lemma StronglySorted_pair {A} (R : A -> A -> Prop) pre a mid b post :
  StronglySorted R (pre ++ a :: mid ++ b :: post) -> R a b.
Proof.
  induction pre as [| x pre IH]; cbn; intros Hs.
  - apply StronglySorted_inv in Hs as [_ Hall].
    rewrite Forall_forall in Hall. apply Hall. set_solver.
  - apply StronglySorted_inv in Hs as [Hs _]. by apply IH.
Qed.


(** ** Numbers read back *)

Lemma read_digits_app a rest acc :
  all_chars is_digit a = true ->
  read_digits 10 (a +:+ rest) acc = read_digits 10 rest (read_digits 10 a acc).
Proof.
  revert acc. induction a as [| c a IH]; intros acc Hall; [reflexivity |].
  cbn in Hall. apply andb_true_iff in Hall as [Hc Ha].
  destruct (hex_value_digit c Hc) as (d & Hd & Hrange).
  rewrite str_app_cons. cbn [read_digits]. rewrite Hd.
  destruct (Z.ltb_spec d 10); [| lia]. by apply IH.
Qed.

Lemma read_digits_zeros j v :
  read_digits 10 (zeros j) (Some v) = Some (v * 10 ^ Z.of_nat j).
Proof.
  revert v. induction j as [| j IH]; intros v.
  - cbn. f_equal. lia.
  - cbn [zeros read_digits]. change (hex_value "0") with (Some 0).
    cbn [default Z.ltb Z.compare]. rewrite IH. f_equal.
    rewrite Nat2Z.inj_succ, Z.pow_succ_r by lia. unfold id. lia.
Qed.

Lemma all_chars_zeros j : all_chars is_digit (zeros j) = true.
Proof. induction j as [| j IH]; [reflexivity |]. cbn. exact IH. Qed.

Lemma length_zeros j : String.length (zeros j) = j.
Proof. induction j as [| j IH]; [reflexivity |]. cbn. by rewrite IH. Qed.

Lemma str_length_app (a b : string) :
  String.length (a +:+ b) = (String.length a + String.length b)%nat.
Proof.
  induction a as [| c a IH]; [reflexivity |].
  rewrite str_app_cons. cbn. by rewrite IH.
Qed.

(** The digits read with an empty start are read as well with the start
    [0]. *)
Lemma read_digits_start s :
  s <> "" -> all_chars is_digit s = true ->
  read_digits 10 s None = read_digits 10 s (Some 0).
Proof.
  intros Hne Hall. destruct s as [| c s]; [done |].
  cbn in Hall. apply andb_true_iff in Hall as [Hc _].
  destruct (hex_value_digit c Hc) as (d & Hd & Hrange).
  cbn [read_digits]. rewrite Hd.
  destruct (Z.ltb_spec d 10); [reflexivity | lia].
Qed.

Lemma digits_value_start s :
  all_chars is_digit s = true ->
  read_digits 10 s (Some 0) = Some (digits_value s).
Proof.
  intros Hall. unfold digits_value. destruct s as [| c s]; [reflexivity |].
  rewrite <- read_digits_start by done.
  destruct (read_digits_bound (String c s) 0 Hall) as (v & Hv & _); [lia |].
  rewrite read_digits_start, Hv by done. reflexivity.
Qed.

(** The value of the first digits of a number is the number without its
    last digits. *)
Lemma digits_value_app a b :
  all_chars is_digit a = true -> all_chars is_digit b = true ->
  digits_value a = digits_value (a +:+ b) / 10 ^ Z.of_nat (String.length b)
  /\ (b = zeros (String.length b) ->
      digits_value (a +:+ b) = digits_value a * 10 ^ Z.of_nat (String.length b)).
Proof.
  intros Ha Hb.
  assert (all_chars is_digit (a +:+ b) = true) as Hab
    by (by rewrite all_chars_app, Ha, Hb).
  pose proof (digits_value_start _ Hab) as Hv.
  rewrite read_digits_app, digits_value_start in Hv by done.
  pose proof (digits_value_bound a Ha) as [Hpos _].
  destruct (read_digits_bound b (digits_value a) Hb Hpos) as (v & Hv' & Hbound).
  rewrite Hv in Hv'. injection Hv' as <-.
  assert (0 < 10 ^ Z.of_nat (String.length b)) by (apply Z.pow_pos_nonneg; lia).
  split.
  - apply Z.div_unique_pos with
      (r := digits_value (a +:+ b)
            - digits_value a * 10 ^ Z.of_nat (String.length b)); lia.
  - intros Hz.
    pose proof (read_digits_zeros (String.length b) (digits_value a)) as Hr.
    rewrite <- Hz, Hv in Hr. by injection Hr as ->.
Qed.

Lemma substring_split s p :
  (p <= String.length s)%nat ->
  s = substring 0 p s +:+ substring p (String.length s - p) s
  /\ String.length (substring 0 p s) = p.
Proof.
  revert p. induction s as [| c s IH]; intros p Hp.
  - cbn in Hp. replace p with O by lia. done.
  - destruct p as [| p].
    + cbn [substring String.length Nat.sub]. split; [| reflexivity].
      rewrite str_app_nil_l. f_equal.
      clear. induction s as [| c s IH]; [reflexivity |]. cbn. by rewrite <- IH.
    + cbn [String.length] in Hp. destruct (IH p) as [Heq Hlen]; [lia |].
      cbn [substring String.length Nat.sub]. rewrite str_app_cons.
      split; [by rewrite <- Heq | by rewrite Hlen].
Qed.

(** [parseInt] reads the digits that start a text, up to the end or to a
    decimal point. *)
Lemma parseInt_leading d rest :
  d <> "" -> all_chars is_digit d = true ->
  rest = "" \/ (exists r, rest = String "." r) ->
  parseInt_string (d +:+ rest) = Some (to_double (digits_value d))
  /\ parseInt_string ("-" +:+ d +:+ rest)
     = Some (to_double (- digits_value d)).
Proof.
  intros Hne Hall Hrest. destruct d as [| c d]; [done |].
  pose proof Hall as Hall'.
  cbn in Hall. apply andb_true_iff in Hall as [Hc Hd].
  destruct (digit_plain c Hc) as (Hsp & Hminus & Hplus & _).
  rewrite str_app_cons.
  assert (read_digits 10 (String c (d +:+ rest)) None
          = Some (digits_value (String c d))) as Hread.
  { rewrite <- str_app_cons, read_digits_app by done.
    rewrite read_digits_start, digits_value_start by done.
    destruct Hrest as [-> | [r ->]]; reflexivity. }
  assert (forall sign,
    (let '(radix, s) :=
       match String c (d +:+ rest) with
       | String c0 (String x s') =>
           if is_char "0" c0 && (is_char "x" x || is_char "X" x)
           then (16, s') else (10, String c (d +:+ rest))
       | _ => (10, String c (d +:+ rest))
       end in
     match read_digits radix s None with
     | Some n => Some (to_double (sign * n))
     | None => None
     end) = Some (to_double (sign * digits_value (String c d)))) as Hradix.
  { intros sign.
    destruct (d +:+ rest) as [| x t] eqn:Ht; [by rewrite Hread |].
    assert (is_char "x" x = false /\ is_char "X" x = false) as [-> ->].
    { destruct d as [| y d'].
      - rewrite str_app_nil_l in Ht. destruct Hrest as [-> | [r ->]]; [done |].
        by injection Ht as <- _.
      - rewrite str_app_cons in Ht. injection Ht as <- _.
        cbn in Hd. apply andb_true_iff in Hd as [Hy _].
        by destruct (digit_plain y Hy) as (_ & _ & _ & -> & ->). }
    rewrite andb_false_r. by rewrite Hread. }
  split.
  - unfold parseInt_string.
    rewrite skip_spaces_plain by (unfold is_digit in Hc; lia || done).
    cbv zeta. rewrite Hminus, Hplus.
    rewrite (Hradix 1). do 2 f_equal; lia.
  - unfold parseInt_string.
    change ("-" +:+ String c (d +:+ rest))
      with (String "-" (String c (d +:+ rest))).
    rewrite skip_spaces_plain by (vm_compute; done).
    cbv zeta. change (is_char "-" "-") with true. cbv iota.
    rewrite (Hradix (-1)). do 2 f_equal; lia.
Qed.

Lemma digits_value_zeros j : digits_value (zeros j) = 0.
Proof.
  destruct (digits_value_app "" (zeros j) eq_refl (all_chars_zeros j))
    as [_ Hz].
  rewrite str_app_nil_l, length_zeros in Hz. by rewrite Hz.
Qed.

(** A number of magnitude from 1e-6 up to below 1e21 prints in plain
    decimal, and [parseInt] reads its integer part. *)
Lemma parseInt_plain literal n :
  Number_of literal = Finite n -> plain_decimal n ->
  parseInt (Num literal) = Ret (Some (to_double (integer_part n))).
Proof.
  unfold plain_decimal, integer_part.
  intros Hliteral Hrange. unfold parseInt. cbn [ToString mbind result_bind].
  do 2 f_equal. unfold num_to_string. rewrite Hliteral. clear Hliteral.
  unfold decimal_to_string.
  assert (0 < 10 ^ Z.of_nat (scale n)) as Hten by (apply Z.pow_pos_nonneg; lia).
  destruct (Z.eqb_spec (mant n) 0) as [Hzero | Hnz].
  { rewrite Hzero, Z.quot_0_l by lia. reflexivity. }
  destruct Hrange as [? | [Hlow Hhigh]]; [done |].
  set (m := Z.abs (mant n)) in *.
  set (d := pretty (Z.abs_N (mant n))).
  assert (0 < m) as Hm by lia.
  (* the digits of the mantissa *)
  destruct (pretty_N_digits (Z.abs_N (mant n))) as [Hd _]. fold d in Hd.
  pose proof (digits_value_pretty (Z.abs_N (mant n))) as Hvalue. fold d in Hvalue.
  replace (Z.of_N (Z.abs_N (mant n))) with m in Hvalue by lia.
  destruct (pretty_length (Z.abs_N (mant n))) as [Hlen_low Hlen_high]; [lia |].
  fold d in Hlen_low, Hlen_high.
  replace (Z.of_N (Z.abs_N (mant n))) with m in Hlen_low, Hlen_high by lia.
  set (L := String.length d) in *.
  (* without their trailing zeros *)
  destruct (strip_zeros_spec d) as [Hk Hstrip]. fold L in Hk, Hstrip.
  set (s := strip_zeros d) in *. set (k := String.length s) in *.
  assert (all_chars is_digit s = true) as Hs.
  { rewrite <- Hstrip, all_chars_app in Hd. by apply andb_true_iff in Hd as [? _]. }
  destruct (digits_value_app s (zeros (L - k)) Hs (all_chars_zeros _)) as [_ Hmul].
  rewrite length_zeros, Hstrip, Hvalue in Hmul.
  specialize (Hmul eq_refl).
  assert (s <> "") as Hne.
  { intros Hempty. rewrite Hempty in Hmul. cbn in Hmul. lia. }
  assert (0 < k)%nat as Hkpos by (destruct s; [done | cbn; lia]).
  (* the place of the point *)
  set (point := Z.of_nat L - Z.of_nat (scale n)).
  assert (-6 < point <= 21) as Hpoint.
  { split.
    - assert (10 ^ Z.of_nat (scale n) < 10 ^ (Z.of_nat L + 6)) as Hlt.
      { rewrite Z.pow_add_r by lia. lia. }
      apply Z.pow_lt_mono_r_iff in Hlt; lia.
    - assert (10 ^ (Z.of_nat L - 1) < 10 ^ (21 + Z.of_nat (scale n))) as Hlt.
      { rewrite (Z.pow_add_r 10 21) by lia. lia. }
      apply Z.pow_lt_mono_r_iff in Hlt; lia. }
  (* the integer part is the value of the digits before the point *)
  assert (exists lead rest,
    (if (Z.of_nat k <=? point) && (point <=? 21)
     then s +:+ zeros (Z.to_nat point - k)
     else if (0 <? point) && (point <=? 21)
     then substring 0 (Z.to_nat point) s +:+ "."
          +:+ substring (Z.to_nat point) (k - Z.to_nat point) s
     else if (-6 <? point) && (point <=? 0)
     then "0." +:+ zeros (Z.to_nat (- point)) +:+ s
     else match s with
          | String c (String c' rest) =>
              String c ("." +:+ String c' rest) +:+ exponent_text (point - 1)
          | _ => s +:+ exponent_text (point - 1)
          end) = lead +:+ rest
    /\ lead <> "" /\ all_chars is_digit lead = true
    /\ (rest = "" \/ exists r, rest = String "." r)
    /\ digits_value lead = m / 10 ^ Z.of_nat (scale n)) as Hbody.
  { destruct (Z.leb_spec point 21); [| lia].
    destruct (Z.leb_spec (Z.of_nat k) point) as [Hint | Hfrac]; cbn [andb].
    - (* an integer *)
      exists (s +:+ zeros (Z.to_nat point - k)), "".
      split; [by rewrite str_app_nil_r |].
      split; [by destruct s |].
      split; [by rewrite all_chars_app, Hs, all_chars_zeros |].
      split; [by left |].
      destruct (digits_value_app s (zeros (Z.to_nat point - k)) Hs
                  (all_chars_zeros _)) as [_ Hz].
      rewrite length_zeros in Hz. rewrite (Hz eq_refl), Hmul.
      replace (Z.of_nat (L - k))
        with (Z.of_nat (Z.to_nat point - k) + Z.of_nat (scale n)) by lia.
      rewrite Z.pow_add_r, Z.mul_assoc, Z.div_mul by lia. reflexivity.
    - destruct (Z.ltb_spec 0 point) as [Hpos | Hsmall]; cbn [andb].
      + (* digits on both sides of the point *)
        destruct (substring_split s (Z.to_nat point)) as [Hsplit Hlen];
          [fold k; lia |]. fold k in Hsplit.
        set (pre := substring 0 (Z.to_nat point) s) in *.
        set (post := substring (Z.to_nat point) (k - Z.to_nat point) s) in *.
        assert (k = String.length pre + String.length post)%nat as Hkk.
        { unfold k. rewrite Hsplit at 1. apply str_length_app. }
        assert (all_chars is_digit pre = true /\ all_chars is_digit post = true)
          as [Hpre Hpost].
        { rewrite Hsplit, all_chars_app in Hs. by apply andb_true_iff in Hs. }
        exists pre, ("." +:+ post).
        split; [reflexivity |].
        split; [destruct pre; [cbn in Hlen; lia | done] |].
        split; [done |].
        split; [right; by exists post |].
        destruct (digits_value_app pre post Hpre Hpost) as [Hdiv _].
        rewrite <- Hsplit in Hdiv. rewrite Hdiv, Hmul.
        replace (Z.of_nat (scale n))
          with (Z.of_nat (String.length post) + Z.of_nat (L - k)) by lia.
        rewrite Z.pow_add_r by lia.
        rewrite Z.div_mul_cancel_r; [reflexivity | |];
          apply Z.pow_nonzero; lia.
      + (* below one *)
        destruct (Z.ltb_spec (-6) point); [| lia].
        destruct (Z.leb_spec point 0); [| lia]. cbn [andb].
        exists "0", ("." +:+ zeros (Z.to_nat (- point)) +:+ s).
        split; [reflexivity |]. split; [done |]. split; [done |].
        split; [right; by eexists |].
        rewrite Z.div_small; [reflexivity |]. split; [lia |].
        assert (10 ^ Z.of_nat L <= 10 ^ Z.of_nat (scale n))
          by (apply Z.pow_le_mono_r; lia).
        lia. }
  destruct Hbody as (lead & rest & -> & Hlead & Hdigits & Hrest & Hquot).
  destruct (parseInt_leading lead rest Hlead Hdigits Hrest) as [Hplus Hminus].
  destruct (Z.ltb_spec (mant n) 0).
  - rewrite Hminus, Hquot. do 2 f_equal.
    assert (mant n = - m) as Hneg by lia. rewrite Hneg.
    by rewrite Z.quot_opp_l, Z.quot_div_nonneg by lia.
  - rewrite str_app_nil_l, Hplus, Hquot. do 2 f_equal.
    assert (mant n = m) as Hpos by lia. rewrite Hpos.
    by rewrite Z.quot_div_nonneg by lia.
Qed.

Lemma StronglySorted_weaken_in {A} (R S : A -> A -> Prop) l :
  (forall a b, a ∈ l -> b ∈ l -> R a b -> S a b) ->
  StronglySorted R l -> StronglySorted S l.
Proof.
  intros HRS Hs. induction Hs as [| a l Hs IH Hall]; constructor.
  - apply IH. intros x y Hx Hy. apply HRS; set_solver.
  - rewrite Forall_forall in Hall |- *. intros b Hb.
    apply HRS; [set_solver | set_solver | by apply Hall].
Qed.

Lemma forallb_all {A} (p : A -> bool) l :
  forallb p l = true <-> Forall (fun x => p x = true) l.
Proof.
  induction l as [| x l IH]; cbn; [by split |].
  rewrite andb_true_iff, IH, Forall_cons. tauto.
Qed.

(** The comparator does not throw on what the loop has kept. *)
Lemma sort_by_kept done formats seen :
  kept done formats seen ->
  sort_by compare formats = Ret (sort order formats).
Proof.
  intros (Hkeys & _ & _ & Hsub & _).
  apply sort_by_pure. intros x y Hx Hy.
  rewrite Forall_forall in Hkeys.
  apply compare_order; apply key_printable, Hkeys;
    by eapply elem_of_sublist.
Qed.

(** The ranker returns exactly on records that are all rankable. *)
Lemma getFormats_returns items :
  returns (getFormats (Arr items)) = forallb rankable items.
Proof.
  cbn [getFormats]. rewrite <- (forEach_rank_returns items ([], ∅)).
  destruct (forEach rank items ([], ∅)) as [[fs seen] |] eqn:Hloop;
    [| done].
  cbn [mbind result_bind].
  destruct (forEach_kept items [] [] ∅ fs seen Hloop kept_nothing)
    as (cs & _ & Hkept).
  by rewrite (sort_by_kept _ fs seen Hkept).
Qed.

(** C3, as stated, fails three times.  A quality that is not numeric sorts
    before the numeric ones, not after.  Two bitrates with the same integer
    part stay in the order of the input, here the lower one first.  And a
    bitrate that prints in exponent form is read by its first digit: 1e-7
    is read as 1 and comes before 0.5, which is read as 0. *)
Lemma getFormats_opaque_first :
  getFormats (Arr [Obj [("format_id", Str "22"); ("height", int 720)];
                   Obj [("format_id", Str "hls-a")]])
  = Ret [Format.mk false (Str "hls-a") "" (Str "hls-a");
         Format.mk false (int 720) "p" (Str "22")]
  /\ parseInt (Str "hls-a") = Ret None
  /\ parseInt (int 720) = Ret (Some 720)
  /\ getFormats (Arr [Obj [("abr", Num (mkNum 1282 1))];
                      Obj [("abr", Num (mkNum 1287 1))]])
     = Ret [Format.mk true (Num (mkNum 1282 1)) "kbps"
              (Str "bestaudio[abr<=128.2]");
            Format.mk true (Num (mkNum 1287 1)) "kbps"
              (Str "bestaudio[abr<=128.7]")]
  /\ num_ltb (mkNum 1282 1) (mkNum 1287 1) = true
  /\ getFormats (Arr [Obj [("abr", Num (mkNum 5 1))];
                      Obj [("abr", Num (mkNum 1 7))]])
     = Ret [Format.mk true (Num (mkNum 1 7)) "kbps"
              (Str "bestaudio[abr<=1e-7]");
            Format.mk true (Num (mkNum 5 1)) "kbps"
              (Str "bestaudio[abr<=0.5]")]
  /\ num_ltb (mkNum 1 7) (mkNum 5 1) = true
  /\ parseInt (Num (mkNum 1 7)) = Ret (Some 1)
  /\ parseInt (Num (mkNum 5 1)) = Ret (Some 0).
Proof. by vm_compute. Qed.

(** C3, amended.  The ranker returns exactly on a list of raw records
    that are all rankable: none is [null] or [undefined] and every quality
    converts to a string.  Its output is ordered by what [parseInt] reads
    from the text of the quality: the formats whose quality it cannot read
    come first, then the others from the largest integer read to the
    smallest.  For an integer quality of magnitude below [2^53] the integer
    read is the quality; for a number of magnitude from 1e-6 up to below
    1e21 it is the integer part.  Formats for which it reads the same, the
    unreadable ones among them, keep the order of the input.  No two
    entries of the output have the same (isAudioOnly, quality); each entry
    is the first record with its key among the records with a truthy
    quality, and every such record has its key in the output. *)
Theorem getFormats_ranked (items : list jsval) :
  (returns (getFormats (Arr items)) = true
   <-> Forall (fun r => rankable r = true) items)
  /\ forall out,
      getFormats (Arr items) = Ret out ->
      StronglySorted ranks_before out
      /\ (forall pre a mid b post,
            out = pre ++ a :: mid ++ b :: post ->
            (parseInt (Format.quality b) = Ret None ->
             parseInt (Format.quality a) = Ret None) /\
            (forall za zb,
                Format.quality a = int za -> Format.quality b = int zb ->
                Z.abs za < 2 ^ 53 -> Z.abs zb < 2 ^ 53 -> zb <= za) /\
            (forall da db na nb,
                Format.quality a = Num da -> Format.quality b = Num db ->
                Number_of da = Finite na -> Number_of db = Finite nb ->
                plain_decimal na -> plain_decimal nb ->
                to_double (integer_part nb) <= to_double (integer_part na)))
      /\ (exists done formats,
            mapM classify items = Ret done /\
            formats `sublist_of` done /\
            out ≡ₚ formats /\
            (forall k : option Z,
              filter (fun f => parseInt (Format.quality f) = Ret k) out
              = filter (fun f => parseInt (Format.quality f) = Ret k) formats) /\
            Forall (fun g => key_of g = Ret (key g)) done /\
            (forall f, f ∈ out ->
              truthy (Format.quality f) = true /\
              exists pre post,
                done = pre ++ f :: post /\
                forall g, g ∈ pre -> truthy (Format.quality g) = true ->
                          key g <> key f) /\
            (forall g, g ∈ done ->
              truthy (Format.quality g) = true -> key g ∈ key <$> out))
      /\ NoDup ((fun f => (Format.isAudioOnly f, Format.quality f)) <$> out)
      /\ NoDup (key <$> out).
Proof.
  split; [by rewrite <- forallb_all, getFormats_returns |].
  intros out. cbn [getFormats].
  destruct (forEach rank items ([], ∅)) as [[formats seen] |] eqn:Hloop; [| done].
  cbn [mbind result_bind].
  destruct (forEach_kept items [] [] ∅ formats seen Hloop kept_nothing)
    as (done & Hdone & Hkept).
  rewrite app_nil_l in Hkept.
  rewrite (sort_by_kept _ formats seen Hkept). intros [= <-].
  destruct Hkept as (Hkeys & Hseen & Hnodup & Hsub & Hfirst & Hall).
  pose proof (sort_perm order formats) as Hperm.
  assert (forall f, f ∈ sort order formats ->
            printable (Format.quality f) = true) as Hprint.
  { intros f Hf. rewrite Forall_forall in Hkeys.
    apply key_printable, Hkeys. rewrite Hperm in Hf.
    by eapply elem_of_sublist. }
  assert (NoDup (key <$> sort order formats)) as Hnodup'
    by (by rewrite Hperm).
  assert (StronglySorted (fun a b => order a b <= 0) (sort order formats))
    as Hordered by (apply sort_sorted; [apply order_total | apply order_trans]).
  assert (forall pre a mid b post,
    sort order formats = pre ++ a :: mid ++ b :: post ->
    ranks_before a b) as Hpair.
  { intros pre a mid b post Hout.
    pose proof Hordered as Hs. rewrite Hout in Hs.
    apply StronglySorted_pair in Hs.
    apply order_ranks; [| | done]; apply Hprint; rewrite Hout; set_solver. }
  split.
  { eapply StronglySorted_weaken_in; [| exact Hordered].
    intros a b Ha Hb. by apply order_ranks; apply Hprint. }
  split.
  { intros pre a mid b post Hout.
    pose proof (Hpair pre a mid b post Hout) as Hab.
    unfold ranks_before in Hab.
    split; [| split].
    - intros Hb. rewrite Hb in Hab.
      by destruct (parseInt (Format.quality a)) as [[|] |].
    - intros za zb Ha Hb Hza Hzb.
      by rewrite Ha, Hb, !parseInt_int in Hab.
    - intros da db na nb Ha Hb Hda Hdb Hna Hnb.
      by rewrite Ha, Hb, (parseInt_plain da na), (parseInt_plain db nb) in Hab. }
  split.
  { exists done, formats. split; [done |]. split; [done |]. split; [done |].
    split.
    { intros k. apply (sort_filter order (fun f => parseInt (Format.quality f) = Ret k)).
      intros a b Ha Hb. unfold order, reading.
      assert (forall f, parseInt (Format.quality f) = Ret k ->
                parseInt_string (text (Format.quality f)) = k) as Hread.
      { intros f Hf. unfold parseInt, text in *.
        destruct (ToString (Format.quality f)); [| done]. by injection Hf. }
      rewrite (Hread a Ha), (Hread b Hb). destruct k; lia. }
    split; [done |].
    split.
    { intros f Hf. apply Hfirst. by rewrite <- Hperm. }
    intros g Hg Hgt. rewrite Hperm. by apply Hall. }
  split; [| done].
  apply (NoDup_fmap_1 (fun p : bool * jsval =>
                         (if p.1 then "a" else "v") +:+ text p.2)).
  by rewrite <- list_fmap_compose.
Qed.

Lemma getFormats_ranked_witness :
  exists out,
    getFormats (Arr [Obj [("format_id", Str "18"); ("height", int 360)];
                     Obj [("format_id", Str "hls-a")];
                     Obj [("format_id", Str "22"); ("height", int 720)];
                     Obj [("format_id", Str "134"); ("height", int 360)]])
    = Ret out /\
    StronglySorted ranks_before out /\
    NoDup ((fun f => (Format.isAudioOnly f, Format.quality f)) <$> out).
Proof.
  eexists. split; [vm_compute; reflexivity |].
  match goal with
  | |- StronglySorted _ ?out /\ _ =>
      destruct (getFormats_ranked
                  [Obj [("format_id", Str "18"); ("height", int 360)];
                   Obj [("format_id", Str "hls-a")];
                   Obj [("format_id", Str "22"); ("height", int 720)];
                   Obj [("format_id", Str "134"); ("height", int 360)]])
        as [_ H];
      destruct (H out) as (Hsorted & _ & _ & Hnodup & _);
      [vm_compute; reflexivity | split; assumption]
  end.
Defined.

(** * Further properties *)

(** ** Runs of the scheduler *)

Lemma step_capacity db os st c :
  Z.of_nat (size (active st)) <= Z.max 0 (Db.simultaneous db) ->
  Z.of_nat (size (active (step db os st c))) <= Z.max 0 (Db.simultaneous db).
Proof.
  intros Hinv. destruct c as [child req | url | url]; cbn [step].
  - unfold download.
    destruct (Z.leb_spec (Db.simultaneous db) (Z.of_nat (size (active st))));
      [done |].
    destruct (generateArgs db os req) as [[args d] |]; [| done]. cbn.
    rewrite map_size_insert.
    destruct (active st !! Request.url req); unfold id; lia.
  - cbn. rewrite map_size_delete.
    destruct (active st !! url); unfold id; lia.
  - done.
Qed.

(** X1. Whatever requests, ends of output and cancellations follow one
    another from the start of the module, the active set never holds more
    urls than the limit of simultaneous downloads. *)
Theorem capacity_never_exceeded (db : Db.t) (os : Os.t) (calls : list call) :
  Z.of_nat (size (active (run db os calls initial)))
  <= Z.max 0 (Db.simultaneous db).
Proof.
  unfold run.
  assert (Z.of_nat (size (active initial)) <= Z.max 0 (Db.simultaneous db))
    as Hinit by (cbn; rewrite map_size_empty; lia).
  revert Hinit. generalize initial as st.
  induction calls as [| c calls IH]; intros st Hinv; [done |].
  cbn [fold_left]. by apply IH, step_capacity.
Qed.

Lemma ends_snoc urls url st : ends (urls ++ [url]) st = on_end url (ends urls st).
Proof. unfold ends. by rewrite fold_left_app. Qed.

Lemma tail_drop {A} (l : list A) n : tail (drop n l) = drop (S n) l.
Proof.
  replace (tail (drop n l)) with (drop 1 (drop n l)) by (by destruct (drop n l)).
  by rewrite drop_drop, Nat.add_1_r.
Qed.

Lemma ends_queue_log urls st :
  queue (ends urls st) = drop (length urls) (queue st)
  /\ log (ends urls st)
     = log st ++ map (fun i => Emit (queue st !! i)) (seq 0 (length urls)).
Proof.
  induction urls as [| url urls IH] using rev_ind.
  - cbn. by rewrite drop_0, app_nil_r.
  - rewrite ends_snoc. destruct IH as [Hq Hl]. cbn [on_end queue log].
    rewrite Hq, Hl, length_app, Nat.add_1_r. split.
    + apply tail_drop.
    + rewrite seq_S, map_app, <- app_assoc. cbn. do 3 f_equal.
      by rewrite head_lookup, lookup_drop, Nat.add_0_r.
Qed.

(** X2. The wait list is served first in, first out: after the output of
    [n] children has ended, the [n] oldest waiting urls are gone from the
    wait list and the [i]-th of these ends has announced the [i]-th waiting
    url, or nothing once the wait list was empty. *)
Theorem ends_announce_in_order (urls : list string) (st : Scheduler) :
  queue (ends urls st) = drop (length urls) (queue st)
  /\ log (ends urls st)
     = log st ++ map (fun i => Emit (queue st !! i)) (seq 0 (length urls)).
Proof. apply ends_queue_log. Qed.

Lemma filter_other url (l : list string) :
  url ∉ l -> filter (fun u => u <> url) l = l.
Proof.
  induction l as [| y l IH]; [done |].
  intros [Hne Hl]%not_elem_of_cons.
  rewrite filter_cons_True by done. by rewrite IH.
Qed.

(** X3. In a wait list without duplicates a cancellation removes the url
    and keeps the others in their order, and no later end of output
    announces the cancelled url. *)
Theorem cancelled_never_announced (url : string) (st : Scheduler)
    (urls : list string) :
  NoDup (queue st) ->
  queue (pause url st) = filter (fun u => u <> url) (queue st)
  /\ (url ∉ queue (pause url st))
  /\ exists news,
      log (ends urls (pause url st)) = log (pause url st) ++ news /\
      Emit (Some url) ∉ news.
Proof.
  intros Hnodup.
  assert (queue (pause url st) = filter (fun u => u <> url) (queue st)) as Hq.
  { destruct (decide (url ∈ queue st)) as [Hin | Hout].
    - destruct (list_elem_of_split_l _ _ Hin) as (pre & post & Hsplit & Hpre).
      rewrite (pause_queue_first url st pre post Hsplit Hpre).
      rewrite Hsplit in Hnodup |- *.
      apply NoDup_app in Hnodup as (_ & _ & [Hpost _]%NoDup_cons).
      rewrite filter_app, filter_cons_False by (intros H; by apply H).
      by rewrite !filter_other.
    - by rewrite pause_queue_absent, filter_other. }
  assert (url ∉ queue (pause url st)) as Hgone.
  { rewrite Hq. intros [Hne _]%list_elem_of_filter. by apply Hne. }
  split; [done |]. split; [done |].
  destruct (ends_queue_log urls (pause url st)) as [_ Hlog].
  eexists. split; [exact Hlog |].
  intros (i & Heq & _)%list_elem_of_fmap.
  injection Heq as Heq. apply Hgone. symmetry in Heq.
  by eapply list_elem_of_lookup_2.
Qed.

Lemma cancelled_never_announced_witness :
  queue (pause "b" (mkScheduler ∅ ["a"; "b"; "c"] [])) = ["a"; "c"]
  /\ exists news,
      log (ends ["x"; "y"; "z"] (pause "b" (mkScheduler ∅ ["a"; "b"; "c"] [])))
      = log (pause "b" (mkScheduler ∅ ["a"; "b"; "c"] [])) ++ news /\
      Emit (Some "b") ∉ news.
Proof.
  destruct (cancelled_never_announced "b" (mkScheduler ∅ ["a"; "b"; "c"] [])
              ["x"; "y"; "z"]) as (Hq & _ & Hnews).
  - cbn. repeat constructor; set_solver.
  - split; [exact Hq | exact Hnews].
Defined.

(** X4. A request below the limit for a url that is already running
    starts a second child under the same key: the active set does not
    grow, the recorded process becomes the new one, and a cancellation
    then signals the new process only. *)
Theorem relaunch_replaces_pid (db : Db.t) (os : Os.t) (child : Child.t)
    (req : Request.t) (st : Scheduler) (old : option Z) :
  Z.of_nat (size (active st)) < Db.simultaneous db ->
  well_formed db req ->
  active st !! Request.url req = Some old ->
  exists st',
    download db os child req st = Ret (st', Some (Piped child)) /\
    size (active st') = size (active st) /\
    active st' !! Request.url req = Some (Child.pid child) /\
    forall p, Child.pid child = Some p -> p <> 0 ->
              log (pause (Request.url req) st') = log st' ++ [Kill p].
Proof.
  intros Hroom Hwf%(generateArgs_returns db os) Hold.
  destruct (download_launched db os child req st Hroom Hwf)
    as (args & d & _ & Hd).
  eexists. split; [exact Hd |]. cbn [active].
  split; [by rewrite map_size_insert_Some |].
  split; [by rewrite lookup_insert_eq |].
  intros p Hp Hnz. unfold pause. cbn [active log queue].
  rewrite lookup_insert_eq, Hp. cbn.
  by destruct (Z.eqb_spec p 0).
Qed.

Lemma relaunch_replaces_pid_witness :
  exists st',
    download db0 os0 (Child.mk (Some 9)) (request0 "u") busy
    = Ret (st', Some (Piped (Child.mk (Some 9)))) /\
    size (active st') = size (active busy) /\
    active st' !! "u" = Some (Some 9) /\
    forall p, Some 9 = Some p -> p <> 0 ->
              log (pause "u" st') = log st' ++ [Kill p].
Proof.
  apply (relaunch_replaces_pid db0 os0 (Child.mk (Some 9)) (request0 "u")
           busy (Some 7)).
  - vm_compute. reflexivity.
  - split; [cbn; lia | discriminate].
  - vm_compute. reflexivity.
Defined.

(** X5. When the output of a running child ends while the active set is
    within the limit, a well-formed request for the announced url is
    launched at once and the url has left the wait list.  When the url that
    ends was not running and the active set is full, the same request goes
    back to the end of the wait list. *)
Theorem slot_handed_over (db : Db.t) (os : Os.t) (child : Child.t)
    (req : Request.t) (st : Scheduler) (url : string) (rest : list string) :
  queue st = Request.url req :: rest ->
  (forall pid,
      active st !! url = Some pid ->
      Z.of_nat (size (active st)) <= Db.simultaneous db ->
      well_formed db req ->
      exists st',
        download db os child req (on_end url st) = Ret (st', Some (Piped child))
        /\ queue st' = rest
        /\ Request.url req ∈ dom (active st')
        /\ Z.of_nat (size (active st')) <= Db.simultaneous db)
  /\ (active st !! url = None ->
      Db.simultaneous db <= Z.of_nat (size (active st)) ->
      exists st',
        download db os child req (on_end url st) = Ret (st', None)
        /\ queue st' = rest ++ [Request.url req]
        /\ active st' = active st).
Proof.
  intros Hq. split.
  - intros pid Hpid Hsize Hwf%(generateArgs_returns db os).
    assert (size (active (on_end url st)) = pred (size (active st))) as Hless
      by (cbn; by rewrite map_size_delete, Hpid).
    assert (size (active st) <> 0%nat) as Hpos.
    { intros Hz%map_size_empty_inv. rewrite Hz in Hpid. done. }
    destruct (download_launched db os child req (on_end url st))
      as (args & d & _ & Hd); [lia | done |].
    eexists. split; [exact Hd |]. cbn [queue active on_end].
    rewrite Hq. split; [done |].
    split; [rewrite dom_insert_L; set_solver |].
    rewrite map_size_insert.
    destruct (delete url (active st) !! Request.url req); unfold id;
      cbn in Hless; lia.
  - intros Hnone Hfull.
    assert (active (on_end url st) = active st) as Hsame
      by (cbn; by apply delete_id).
    eexists. split.
    + apply download_queued. rewrite Hsame. lia.
    + cbn. rewrite Hq. split; [done |]. by apply delete_id.
Qed.

Lemma slot_handed_over_witness :
  (exists st',
      download db1 os0 (Child.mk (Some 8)) (request0 "u") (on_end "u" busy)
      = Ret (st', Some (Piped (Child.mk (Some 8))))
      /\ queue st' = []
      /\ "u" ∈ dom (active st')
      /\ Z.of_nat (size (active st')) <= Db.simultaneous db1)
  /\ exists st',
      download db1 os0 (Child.mk (Some 8)) (request0 "u") (on_end "zz" busy)
      = Ret (st', None)
      /\ queue st' = [] ++ ["u"]
      /\ active st' = active busy.
Proof.
  split.
  - destruct (slot_handed_over db1 os0 (Child.mk (Some 8)) (request0 "u")
                busy "u" []) as [H _]; [reflexivity |].
    apply (H (Some 7)).
    + vm_compute. reflexivity.
    + vm_compute. discriminate.
    + split; [cbn; lia | discriminate].
  - destruct (slot_handed_over db1 os0 (Child.mk (Some 8)) (request0 "u")
                busy "zz" []) as [_ H]; [reflexivity |].
    apply H; [vm_compute; reflexivity | vm_compute; discriminate].
Defined.

(** ** Lines of the extractor *)

Lemma stops_app p s rest : s <> "" -> stops p s -> stops p (s +:+ rest).
Proof. by destruct s. Qed.

Lemma run_stops (p q : ascii -> bool) s rest :
  run_of q s -> (forall c, q c = true -> p c = false) -> stops p (s +:+ rest).
Proof.
  intros [Hne Hall] Hpq. destruct s as [| c s]; [done |].
  cbn in Hall. apply andb_true_iff in Hall as [Hc _]. cbn. by apply Hpq.
Qed.

Lemma digit_not_non_digit c : is_digit c = true -> non_digit c = false.
Proof. unfold non_digit. by intros ->. Qed.

Lemma non_digit_not_digit c : non_digit c = true -> is_digit c = false.
Proof. unfold non_digit. by destruct (is_digit c). Qed.

Lemma match_many_then_one p x r run rest pieces :
  run_of p run -> p x = false -> match_here r rest = Some pieces ->
  match_here (Many p :: One (is_char x) :: r) (run +:+ String x rest)
  = Some (run :: String x "" :: pieces).
Proof.
  intros [Hne Hall] Hx Hrest. apply match_many_run; [done | done | done |].
  rewrite match_one_cons. unfold is_char. rewrite Ascii.eqb_refl.
  by rewrite Hrest.
Qed.

(** The search skips what cannot start a match. *)
Lemma exec_atoms_skip p r pre s :
  all_chars p pre = true -> (forall c, p c = true -> is_digit c = false) ->
  exec_atoms (Many is_digit :: r) (pre +:+ s) = exec_atoms (Many is_digit :: r) s.
Proof.
  intros Hall Hp. induction pre as [| c pre IH]; [done |].
  cbn in Hall. apply andb_true_iff in Hall as [Hc Hall].
  rewrite str_app_cons. cbn [exec_atoms].
  rewrite match_many_stops by (cbn; by apply Hp). by apply IH.
Qed.

Lemma progress_atoms :
  map snd progress_regex =
  [Many is_digit; One (is_char "."); Many is_digit; Many non_digit;
   Many is_digit; One (is_char "."); Many is_digit; Many is_word;
   Many non_digit;
   Many is_digit; One (is_char "."); Many is_digit; Many is_word;
   One (is_char "/"); One (is_char "s");
   Many non_digit; Many digit_or_colon].
Proof. reflexivity. Qed.

Section ProgressLine.
Variables (pre p1 p2 sep1 s1 s2 unit sep2 v1 v2 per sep3 eta post : string).
Hypothesis Hpre : all_chars non_digit pre = true.
Hypotheses (Hp1 : digits p1) (Hp2 : digits p2).
Hypotheses (Hs1 : digits s1) (Hs2 : digits s2).
Hypotheses (Hv1 : digits v1) (Hv2 : digits v2).
Hypotheses (Hsep1 : run_of non_digit sep1) (Hsep2 : run_of non_digit sep2).
Hypothesis Hsep3 : run_of non_digit sep3.
Hypotheses (Hunit : run_of is_word unit) (Hunit0 : stops is_digit unit).
Hypotheses (Hper : run_of is_word per) (Hper0 : stops is_digit per).
Hypothesis Hsep2w : stops is_word sep2.
Hypotheses (Heta : run_of digit_or_colon eta) (Heta0 : stops non_digit eta).
Hypothesis Hpost : stops digit_or_colon post.

Local Abbreviation line :=
  (progress_line pre p1 p2 sep1 s1 s2 unit sep2 v1 v2 per sep3 eta post).

Lemma exec_progress_line :
  exec progress_regex line =
  Some [p1; "."; p2; sep1; s1; "."; s2; unit; sep2; v1; "."; v2; per; "/"; "s";
        sep3; eta].
Proof.
  unfold exec, progress_line. rewrite progress_atoms.
  rewrite (exec_atoms_skip non_digit) by auto using non_digit_not_digit.
  apply exec_atoms_here.
  change ("/s" +:+ sep3 +:+ eta +:+ post)
    with (String "/" (String "s" (sep3 +:+ eta +:+ post))).
  change ("." +:+ ?x) with (String "." x).
  apply match_many_then_one; [done | done |].
  apply match_many_run; [apply Hp2 | apply Hp2 | |].
  { eapply run_stops; [exact Hsep1 | apply non_digit_not_digit]. }
  apply match_many_run; [apply Hsep1 | apply Hsep1 | |].
  { eapply run_stops; [exact Hs1 | apply digit_not_non_digit]. }
  change ("." +:+ s2 +:+ ?x) with (String "." (s2 +:+ x)).
  apply match_many_then_one; [done | done |].
  apply match_many_run; [apply Hs2 | apply Hs2 | |].
  { apply stops_app; [apply Hunit | done]. }
  apply match_many_run; [apply Hunit | apply Hunit | |].
  { apply stops_app; [apply Hsep2 | done]. }
  apply match_many_run; [apply Hsep2 | apply Hsep2 | |].
  { eapply run_stops; [exact Hv1 | apply digit_not_non_digit]. }
  change ("." +:+ v2 +:+ ?x) with (String "." (v2 +:+ x)).
  apply match_many_then_one; [done | done |].
  apply match_many_run; [apply Hv2 | apply Hv2 | |].
  { apply stops_app; [apply Hper | done]. }
  apply match_many_run; [apply Hper | apply Hper | done |].
  rewrite !match_one_cons. cbn [is_char Ascii.eqb Bool.eqb].
  cut (match_here [Many non_digit; Many digit_or_colon]
         (sep3 +:+ eta +:+ post) = Some [sep3; eta]).
  { by intros ->. }
  apply match_many_run; [apply Hsep3 | apply Hsep3 | |].
  { apply stops_app; [apply Heta | done]. }
  apply match_many_run; [apply Heta | apply Heta | done | done].
Qed.

(** X6. On a line made of a percentage, a size with its unit, a speed per
    second and an ETA that starts with a digit and that [getETA] can
    format, whatever text without digits stands before and between them,
    the parser returns the record with exactly these texts: the percentage
    as written, the size followed by its unit, the speed with its unit and
    [/s], and the formatted ETA; the downloaded amount is the product of
    the doubles, as [toFixed(2)] prints it. *)
Theorem getProgress_line (e : string) :
  getETA eta = Ret e ->
  getProgress line =
  Ret (Info {|
    Progress.percent := p1 +:+ "." +:+ p2;
    Progress.downloaded :=
      toFixed2 (fmul (fdiv (Number_of_decimal (p1 +:+ "." +:+ p2))
                           (double_of_Z 100))
                     (Number_of_decimal (s1 +:+ "." +:+ s2)));
    Progress.size := (s1 +:+ "." +:+ s2) +:+ unit;
    Progress.speed := v1 +:+ "." +:+ v2 +:+ per +:+ "/s";
    Progress.eta := e
  |}).
Proof.
  intros He. unfold getProgress. rewrite exec_progress_line.
  unfold groups.
  cbn -[toFixed2 fmul fdiv Number_of_decimal double_of_Z getETA].
  rewrite !str_app_nil_r, He. reflexivity.
Qed.
End ProgressLine.

Lemma getProgress_line_witness :
  getProgress "[download]  45.2% of 100.00MiB at  1.20MiB/s ETA 00:45 (frag 3)"
  = Ret (Info (Progress.mk "45.2" "45.20" "100.00MiB" "1.20MiB/s" "46s left")).
Proof.
  apply (getProgress_line "[download]  " "45" "2" "% of " "100" "00" "MiB"
           " at  " "1" "20" "MiB" " ETA " "00:45" " (frag 3)");
    try (split; [discriminate | reflexivity]); reflexivity.
Defined.

(** X7. A chunk with fewer than three full stops is never read as a
    progress record and never makes the parser throw: it gives
    ["processing"] when it holds [[ffmpeg]] and the empty text otherwise. *)
Theorem getProgress_needs_three_dots (data : string) :
  (count_char "." data < 3)%nat ->
  getProgress data =
  Ret (Text (if includes "[ffmpeg]" data then "processing" else "")).
Proof.
  intros Hdots. apply getProgress_unmatched.
  destruct (exec progress_regex data) as [pieces |] eqn:He; [| done].
  exfalso. revert He. unfold exec. rewrite progress_atoms.
  intros (pre & suffix & -> & Hm)%exec_atoms_sound.
  apply match_here_sound in Hm as [Hf [rest ->]].
  invert_pieces. cbn [fold_right] in Hdots.
  rewrite !count_char_app in Hdots. cbn in Hdots. lia.
Qed.

Lemma getProgress_needs_three_dots_witness :
  getProgress "[download] Destination: clip 12.mp4" = Ret (Text "")
  /\ getProgress "[ffmpeg] Merging formats into clip.mkv"
     = Ret (Text "processing").
Proof.
  split.
  - apply (getProgress_needs_three_dots "[download] Destination: clip 12.mp4").
    vm_compute. lia.
  - apply (getProgress_needs_three_dots
             "[ffmpeg] Merging formats into clip.mkv").
    vm_compute. lia.
Defined.

Lemma getProgress_null_groups data pieces :
  exec progress_regex data = Some pieces ->
  ~ has_pair (default "" (groups progress_regex pieces "eta")) ->
  getProgress data = Throw null_groups.
Proof.
  intros Hm Hno. unfold getProgress. rewrite Hm.
  by rewrite (getETA_throws _ Hno).
Qed.

(** X8. The stream of a download stops at the first chunk whose ETA cannot
    be formatted: the signals of the chunks before it have been pushed, in
    order, and neither that chunk nor any later one pushes anything. *)
Theorem progress_stream_stalls (good : list string) (bad : string)
    (rest : list string) (signals : list signal) (pieces : list string) :
  mapM getProgress good = Ret signals ->
  exec progress_regex bad = Some pieces ->
  ~ has_pair (default "" (groups progress_regex pieces "eta")) ->
  progress_stream (good ++ bad :: rest)
  = Transform.mk signals (Some null_groups).
Proof.
  intros Hgood Hm Hno. unfold progress_stream.
  apply pipe_stops; [done |]. by eapply getProgress_null_groups.
Qed.

Lemma progress_stream_stalls_witness :
  progress_stream
    ["[download] Destination: clip.mp4";
     "[download]  7.1% of 9.50MiB at 1.00MiB/s ETA 0";
     "[download]  9.3% of 9.50MiB at 1.00MiB/s ETA 00:08"]
  = Transform.mk [Text ""] (Some null_groups).
Proof.
  apply (progress_stream_stalls ["[download] Destination: clip.mp4"]
           "[download]  7.1% of 9.50MiB at 1.00MiB/s ETA 0"
           ["[download]  9.3% of 9.50MiB at 1.00MiB/s ETA 00:08"]
           [Text ""]
           ["7"; "."; "1"; "% of "; "9"; "."; "50"; "MiB"; " at "; "1"; ".";
            "00"; "MiB"; "/"; "s"; " ETA "; "0"]).
  - vm_compute. reflexivity.
  - vm_compute. reflexivity.
  - intros Hpair%getETA_returns. vm_compute in Hpair. discriminate.
Defined.

(** ** Division of doubles *)

Lemma round53_bounds a :
  2 ^ 53 <= a ->
  exists k,
    0 < k /\ 2 ^ (k - 1) * 2 ^ 53 <= a
    /\ a / 2 ^ k * 2 ^ k <= round53 a <= a + 2 ^ (k - 1)
    /\ k = Z.log2 a - 52.
Proof.
  intros Ha. exists (Z.log2 a - 52).
  assert (53 <= Z.log2 a) as Hlog by (apply Z.log2_le_pow2; lia).
  set (k := Z.log2 a - 52) in *.
  split; [lia |].
  assert (2 ^ (k - 1) * 2 ^ 53 <= a) as Hlow.
  { rewrite <- Z.pow_add_r by lia.
    replace (k - 1 + 53) with (Z.log2 a) by lia. apply Z.log2_spec. lia. }
  split; [exact Hlow |]. split; [| reflexivity].
  unfold round53. fold k. destruct (Z.leb_spec k 0); [lia |].
  assert (2 ^ k = 2 * 2 ^ (k - 1)) as Hk2.
  { replace k with (Z.succ (k - 1)) at 1 by lia.
    by rewrite Z.pow_succ_r by lia. }
  assert (0 < 2 ^ (k - 1)) as Hh by (apply Z.pow_pos_nonneg; lia).
  pose proof (Z.div_mod a (2 ^ k) ltac:(lia)) as Hdm.
  pose proof (Z.mod_pos_bound a (2 ^ k) ltac:(lia)) as Hmod.
  set (q := a / 2 ^ k) in *. set (r := a mod 2 ^ k) in *.
  rewrite Hk2 in *. set (h := 2 ^ (k - 1)) in *.
  destruct (Z.ltb_spec h r); cbn [orb]; [lia |].
  destruct (Z.eqb_spec r h); cbn [andb]; [| lia].
  destruct (Z.odd q); lia.
Qed.

(** For an integer below [2^53] the rounding of the quotient does not
    reach the next integer: the floor of the quotient of the doubles is
    the quotient of the integers. *)
Lemma floor_quotient_small n d :
  0 <= n < 2 ^ 53 -> 0 < d < 2 ^ 64 -> floor_quotient n d = n / d.
Proof.
  intros Hn Hd. unfold floor_quotient.
  destruct (Z.eq_dec n 0) as [-> | Hnz]; [by rewrite Z.div_0_l by lia |].
  rewrite Z.abs_eq, Z.sgn_pos, Z.mul_1_l by lia.
  set (S := n * 2 ^ 1200).
  set (sticky := if S mod d =? 0 then 0 else 1).
  assert (0 <= sticky <= 1) as Hsticky by (unfold sticky; destruct (_ =? _); lia).
  pose proof (Z.div_mod S d ltac:(lia)) as HS.
  pose proof (Z.mod_pos_bound S d ltac:(lia)) as HSr.
  pose proof (Z.div_mod n d ltac:(lia)) as HN.
  pose proof (Z.mod_pos_bound n d ltac:(lia)) as HNr.
  set (q0 := S / d) in *. set (Q := n / d) in *.
  assert (0 <= Q) as HQ by (apply Z.div_pos; lia).
  assert (Q <= n) as HQn by (apply Z.div_le_upper_bound; nia).
  set (A := 2 * q0 + sticky).
  change (2 ^ 1201) with (2 * 2 ^ 1200).
  assert (2 ^ 64 * (2 ^ 53 + 1) < 2 ^ 1200) as HP by (vm_compute; reflexivity).
  assert (2 ^ 1200 * 2 ^ 54 = 2 ^ 1254) as HP54 by reflexivity.
  assert (forall k, 0 < k <= 1201 ->
            exists c, 0 < c /\ 2 * 2 ^ 1200 = c * 2 ^ k) as Hdiv.
  { intros k Hk. exists (2 ^ (1201 - k)). split; [apply Z.pow_pos_nonneg; lia |].
    rewrite <- Z.pow_add_r by lia. by replace (1201 - k + k) with 1201 by lia. }
  subst S. set (P := 2 ^ 1200) in *.
  (* the quotient lies between the multiples of the two integers *)
  assert (Q * P <= q0) as Hlow.
  { apply Z.div_le_lower_bound; [lia |]. nia. }
  assert (q0 < (Q + 1) * P) as Hhigh.
  { apply Z.div_lt_upper_bound; [lia |]. nia. }
  assert (d * A <= 2 * (n * P) + d) as HdA by (unfold A; nia).
  assert (2 ^ 53 <= A) as HA.
  { assert (P <= q0 * 2 ^ 64) by nia. unfold A. lia. }
  destruct (round53_bounds A HA) as (k & Hk & Hk53 & [Hdown Hup] & Hklog).
  assert (k <= 1201) as Hk1201.
  { assert (A < 2 ^ 1254).
    { rewrite <- HP54. fold P. unfold A. nia. }
    assert (Z.log2 A < 1254) by (apply Z.log2_lt_pow2; lia). lia. }
  destruct (Hdiv k ltac:(lia)) as (c & Hc & HcP).
  assert (0 < 2 ^ k) as H2k by (apply Z.pow_pos_nonneg; lia).
  assert (Q * (2 * P) <= A / 2 ^ k * 2 ^ k) as Hfloor.
  { assert (Q * c <= A / 2 ^ k) by (apply Z.div_le_lower_bound; unfold A; nia).
    nia. }
  assert (round53 A < (Q + 1) * (2 * P)) as Hceil.
  { assert (2 ^ 53 * d * (A + 2 ^ (k - 1)) < 2 ^ 53 * d * ((Q + 1) * (2 * P)));
      [| nia].
    assert (d * (Q + 1) >= n + 1) by nia.
    assert (2 ^ 53 * d * (A + 2 ^ (k - 1)) <= d * A * (2 ^ 53 + 1)) by nia.
    assert (d * A * (2 ^ 53 + 1) <= (2 * (n * P) + d) * (2 ^ 53 + 1)) by nia.
    assert ((2 * (n * P) + d) * (2 ^ 53 + 1) < 2 ^ 53 * ((n + 1) * (2 * P)))
      by nia.
    nia. }
  symmetry. apply Z.div_unique_pos with (r := round53 A - Q * (2 * P)); lia.
Qed.

(** The same floor through the division of the reference doubles, where
    the rounding of the quotient shows and where it does not. *)
Lemma floor_quotient_as_fdiv :
  Forall (fun n =>
            floor_of_double (fdiv (double_of_Z n) (double_of_Z 3600))
            = Some (floor_quotient n 3600)
            /\ floor_of_double (fdiv (double_of_Z n) (double_of_Z 60))
               = Some (floor_quotient n 60))
    [1; 59; 3599; 3600; 7325; 86399; 2 ^ 53 - 1; 2 ^ 53; 10 ^ 20;
     to_double (3600 * (2 ^ 53 + 1)); to_double (60 * (2 ^ 54 + 2));
     to_double (10 ^ 300); -1; -3600; -3601; - 10 ^ 20]
  /\ floor_quotient (10 ^ 20) 3600 = 27777777777777776
  /\ 10 ^ 20 / 3600 = 27777777777777777.
Proof.
  split; [| by vm_compute].
  repeat (constructor; [split; vm_compute; reflexivity |]). constructor.
Qed.

(** ** Duration *)

Lemma pad_two n :
  0 <= n < 60 ->
  String.length (pad n) = 2%nat /\ all_chars is_digit (pad n) = true
  /\ digits_value (pad n) = n.
Proof.
  intros Hn.
  assert (exists k, n = Z.of_nat k /\ (k < 60)%nat) as (k & -> & Hk)
    by (exists (Z.to_nat n); lia).
  do 60 (destruct k as [| k]; [by vm_compute |]). lia.
Qed.

(** X9. A missing duration, or one from zero up to below one second,
    renders as ["-"].  From one second up to below [2^53] seconds the text
    is [H:MM:SS] from one hour on, [MM:SS] from one minute on and [0:SS]
    below, where [MM] and [SS] are two digits each, below 60, and the
    fields give back the duration in whole seconds.  A negative duration
    does not render as ["-"]: minus half a second gives ["-1:-1:-1"]. *)
Theorem getDuration_fields (d : jsnum) :
  getDuration None = "-"
  /\ (num_floor d = 0 -> getDuration (Some d) = "-")
  /\ (1 <= num_floor d < 2 ^ 53 ->
      let t := num_floor d in
      exists mm ss,
        String.length mm = 2%nat /\ String.length ss = 2%nat /\
        all_chars is_digit mm = true /\ all_chars is_digit ss = true /\
        digits_value mm < 60 /\ digits_value ss < 60 /\
        t = t / 3600 * 3600 + digits_value mm * 60 + digits_value ss /\
        getDuration (Some d) =
          if 3600 <=? t
          then int_to_string (t / 3600) +:+ ":" +:+ mm +:+ ":" +:+ ss
          else if 60 <=? t then mm +:+ ":" +:+ ss
          else "0:" +:+ ss)
  /\ getDuration (Some (mkNum (-5) 1)) = "-1:-1:-1".
Proof.
  split; [reflexivity |]. split.
  { intros Hz. unfold getDuration. rewrite Hz.
    by destruct (num_is_zero d). }
  split; [| by vm_compute].
  intros Ht t.
  assert (num_is_zero d = false) as Hnz.
  { unfold num_is_zero, num_floor in *.
    destruct (Number_of d) as [n | negative]; [| done].
    destruct (Z.eqb_spec (mant n) 0) as [Hm |]; [| done].
    rewrite Hm, Z.div_0_l in Ht; [lia |].
    apply Z.pow_nonzero; lia. }
  pose proof (Z.mod_pos_bound t 3600 ltac:(lia)) as Hr.
  pose proof (Z.mod_pos_bound (t mod 3600) 60 ltac:(lia)) as Hs.
  pose proof (Z.div_mod t 3600 ltac:(lia)) as Hdm.
  pose proof (Z.div_mod (t mod 3600) 60 ltac:(lia)) as Hdm'.
  assert (0 <= t mod 3600 / 60 < 60) as Hm
    by (split; [apply Z.div_pos; lia | apply Z.div_lt_upper_bound; lia]).
  destruct (pad_two (t mod 3600 / 60) Hm) as (Lm & Dm & Vm).
  destruct (pad_two ((t mod 3600) mod 60) Hs) as (Ls & Ds & Vs).
  exists (pad (t mod 3600 / 60)), (pad ((t mod 3600) mod 60)).
  rewrite Vm, Vs.
  repeat (split; [done || lia |]).
  unfold getDuration. rewrite Hnz. fold t.
  destruct (Z.eqb_spec t 0); [lia |].
  assert (2 ^ 53 <= 2 ^ 1024) by (apply Z.pow_le_mono_r; lia).
  destruct (Z.leb_spec (2 ^ 1024) (Z.abs t)); [lia |].
  rewrite !Z.rem_mod_nonneg by lia.
  assert (2 ^ 53 < 2 ^ 64) as Hbig by (apply Z.pow_lt_mono_r; lia).
  rewrite !floor_quotient_small by lia.
  assert (0 <= t / 3600 <= t) as Hq
    by (split; [apply Z.div_pos; lia | apply Z.div_le_upper_bound; lia]).
  rewrite double_to_string_small by lia.
  destruct (Z.leb_spec 3600 t) as [Hh | Hh].
  - destruct (Z.eqb_spec (t / 3600) 0) as [Hq0 |]; [| done].
    apply Z.div_small_iff in Hq0; lia.
  - rewrite (Z.div_small t 3600) by lia. cbn [Z.eqb negb].
    rewrite (Z.mod_small t 3600) in * by lia.
    destruct (Z.leb_spec 60 t) as [Hmin | Hmin].
    + destruct (Z.eqb_spec (t / 60) 0) as [Hq0 |]; [| done].
      apply Z.div_small_iff in Hq0; lia.
    + by rewrite (Z.div_small t 60) by lia.
Qed.

Lemma getDuration_fields_witness :
  exists mm ss,
    String.length mm = 2%nat /\ String.length ss = 2%nat /\
    all_chars is_digit mm = true /\ all_chars is_digit ss = true /\
    digits_value mm < 60 /\ digits_value ss < 60 /\
    3725 = 3725 / 3600 * 3600 + digits_value mm * 60 + digits_value ss /\
    getDuration (Some (mkNum 37259 1)) = "1" +:+ ":" +:+ mm +:+ ":" +:+ ss.
Proof.
  destruct (getDuration_fields (mkNum 37259 1)) as (_ & _ & H & _).
  apply H. vm_compute. split; discriminate || reflexivity.
Defined.

(** ** Metadata records *)

Lemma findIndex_spec {A} (p : A -> bool) l i :
  (findIndex p l i = -1 /\ Forall (fun x => p x = false) l) \/
  exists k x,
    findIndex p l i = i + Z.of_nat k /\ l !! k = Some x /\ p x = true /\
    forall j y, (j < k)%nat -> l !! j = Some y -> p y = false.
Proof.
  revert i. induction l as [| x l IH]; intros i; [left; by split |].
  cbn [findIndex]. destruct (p x) eqn:Hx.
  - right. exists O, x. split; [lia |]. split; [done |]. split; [done |].
    intros j y Hj. lia.
  - destruct (IH (i + 1)) as [[Hnone Hall] | (k & y & Hk & Hy & Hpy & Hbefore)].
    + left. split; [done | by constructor].
    + right. exists (S k), y. split; [lia |]. split; [done |].
      split; [done |]. intros [| j] z Hj Hz.
      * cbn in Hz. by injection Hz as <-.
      * apply (Hbefore j); [lia | done].
Qed.

Lemma createDownloadable_inv STOPPED data d :
  createDownloadable STOPPED data = Ret d ->
  exists text m fs subs,
    data = Record_ text m /\
    getFormats (js_or (Metadata.formats m) (Metadata.format_id m)) = Ret fs /\
    getSubtitles (Metadata.requested_subtitles m) = Ret subs /\
    Downloadable.formats d = fs /\
    Downloadable.formatIndex d
    = findIndex (fun x => negb (Format.isAudioOnly x)) fs 0 /\
    Downloadable.subtitles d = subs.
Proof.
  unfold createDownloadable. destruct data as [text | text | text m];
    [done | done |].
  cbn [JSON_parse destructure mbind result_bind].
  destruct (getFormats _) as [fs |] eqn:Hfs; [| done]. cbn.
  destruct (getSubtitles _) as [subs |] eqn:Hsubs; [| done]. cbn.
  intros [= <-]. by exists text, m, fs, subs.
Qed.

(** X10. In every record built from a chunk, [formatIndex] is [-1] and all
    the formats are audio only, or it is the position of the first format
    that is not audio only. *)
Theorem createDownloadable_formatIndex (STOPPED : jsval) (data : chunk)
    (d : Downloadable.t) :
  createDownloadable STOPPED data = Ret d ->
  (Downloadable.formatIndex d = -1 /\
   Forall (fun f => Format.isAudioOnly f = true) (Downloadable.formats d))
  \/ exists k f,
      Downloadable.formatIndex d = Z.of_nat k /\
      Downloadable.formats d !! k = Some f /\
      Format.isAudioOnly f = false /\
      forall j g, (j < k)%nat -> Downloadable.formats d !! j = Some g ->
                  Format.isAudioOnly g = true.
Proof.
  intros (text & m & fs & subs & _ & _ & _ & <- & -> & _)%createDownloadable_inv.
  destruct (findIndex_spec (fun x => negb (Format.isAudioOnly x))
              (Downloadable.formats d) 0)
    as [[Hnone Hall] | (k & f & Hk & Hf & Hpf & Hbefore)].
  - left. split; [done |]. eapply Forall_impl; [exact Hall |].
    intros f Hf. by apply negb_false_iff.
  - right. exists k, f. split; [lia |]. split; [done |].
    split; [by apply negb_true_iff |].
    intros j g Hj Hg. apply negb_false_iff. by eapply Hbefore.
Qed.

Lemma createDownloadable_formatIndex_witness :
  exists d,
    createDownloadable Null (Record_ "{...}" metadata0) = Ret d /\
    ((Downloadable.formatIndex d = -1 /\
      Forall (fun f => Format.isAudioOnly f = true) (Downloadable.formats d))
     \/ exists k f,
         Downloadable.formatIndex d = Z.of_nat k /\
         Downloadable.formats d !! k = Some f /\
         Format.isAudioOnly f = false /\
         forall j g, (j < k)%nat -> Downloadable.formats d !! j = Some g ->
                     Format.isAudioOnly g = true).
Proof.
  eexists. split; [vm_compute; reflexivity |].
  eapply (createDownloadable_formatIndex Null (Record_ "{...}" metadata0)).
  vm_compute. reflexivity.
Defined.

(** X11. A chunk gives a record exactly when its text parses to a value
    other than [null], every element of the list of formats (or, without
    one, of a format identifier that is a list) is rankable, that is, it
    is not [null] or [undefined] and its quality converts to a string, and
    the subtitle map is not [undefined]; in every other case the transform
    throws.  The duration is a number or is missing, as the metadata
    record has it. *)
Theorem createDownloadable_returns (STOPPED : jsval) (data : chunk) :
  returns (createDownloadable STOPPED data) = true <->
  exists text m,
    data = Record_ text m /\
    (forall items,
        js_or (Metadata.formats m) (Metadata.format_id m) = Arr items ->
        Forall (fun r => rankable r = true) items) /\
    Metadata.requested_subtitles m <> Undefined.
Proof.
  unfold createDownloadable. destruct data as [text | text | text m];
    try (split; [done | by intros (? & ? & ? & _)]).
  cbn [JSON_parse destructure mbind result_bind].
  assert (returns (getFormats
                     (js_or (Metadata.formats m) (Metadata.format_id m))) = true
          <-> forall items,
                js_or (Metadata.formats m) (Metadata.format_id m) = Arr items ->
                Forall (fun r => rankable r = true) items) as Hf.
  { destruct (js_or (Metadata.formats m) (Metadata.format_id m))
      as [| | b | n | s | items | fields];
      try (split; [intros _ items; discriminate | done]).
    rewrite getFormats_returns, forallb_all. split.
    - by intros Hall items' [= <-].
    - intros Hall. by apply Hall. }
  destruct (getFormats _) as [fs |]; cbn.
  - assert (returns (getSubtitles (Metadata.requested_subtitles m)) = true
            <-> Metadata.requested_subtitles m <> Undefined) as Hs
      by (by destruct (Metadata.requested_subtitles m)).
    destruct (getSubtitles _) as [subs |]; cbn.
    + split; [| done]. intros _. exists text, m.
      split; [done |]. split; [by apply Hf | by apply Hs].
    + split; [done |]. intros (? & ? & [= <- <-] & _ & Hsub).
      by apply Hs in Hsub.
  - split; [done |]. intros (? & ? & [= <- <-] & Hall & _).
    by apply Hf in Hall.
Qed.

Lemma createDownloadable_returns_witness :
  returns (createDownloadable Null (Record_ "{...}" metadata0)) = true.
Proof.
  apply (createDownloadable_returns Null (Record_ "{...}" metadata0)).
  exists "{...}", metadata0. split; [reflexivity |].
  split; [| discriminate].
  intros items Hitems. vm_compute in Hitems. injection Hitems as <-.
  repeat constructor.
Defined.

(** X12. Without a list of formats the record has exactly one format, not
    audio only, whose quality and code are both the format identifier of
    the metadata, whatever it is, and [formatIndex] is 0. *)
Theorem createDownloadable_scalar (STOPPED : jsval) (text : string)
    (m : Metadata.t) :
  truthy (Metadata.formats m) = false ->
  (forall items, Metadata.format_id m <> Arr items) ->
  Metadata.requested_subtitles m <> Undefined ->
  exists d,
    createDownloadable STOPPED (Record_ text m) = Ret d /\
    Downloadable.formats d
    = [Format.mk false (Metadata.format_id m) "" (Metadata.format_id m)] /\
    Downloadable.formatIndex d = 0.
Proof.
  intros Hfalsy Hscalar Hsubs. unfold createDownloadable.
  cbn [JSON_parse destructure mbind result_bind]. unfold js_or. rewrite Hfalsy.
  assert (getFormats (Metadata.format_id m)
          = Ret [Format.mk false (Metadata.format_id m) ""
                   (Metadata.format_id m)]) as ->.
  { destruct (Metadata.format_id m) as [| | | | | items |]; try done.
    by destruct (Hscalar items). }
  cbn.
  destruct (getSubtitles (Metadata.requested_subtitles m)) as [subs |] eqn:Hs.
  - cbn. eexists. split; [reflexivity |]. by split.
  - by destruct (Metadata.requested_subtitles m).
Qed.

Lemma createDownloadable_scalar_witness :
  exists d,
    createDownloadable Null
      (Record_ "{...}"
         (Metadata.mk (Str "https://example.org/a") (Str "Song") Null None
            Undefined (Str "mp3-128") Null Null Null Null Null)) = Ret d /\
    Downloadable.formats d = [Format.mk false (Str "mp3-128") "" (Str "mp3-128")]
    /\ Downloadable.formatIndex d = 0.
Proof.
  apply (createDownloadable_scalar Null "{...}"
           (Metadata.mk (Str "https://example.org/a") (Str "Song") Null None
              Undefined (Str "mp3-128") Null Null Null Null Null));
    [reflexivity | discriminate | discriminate].
Defined.

(** ** Argument list *)

(** X13. Whenever the argument list of a download can be built, the url is
    its last element, the dispatch reports that url, and its first six
    elements are the transcoder location, the selector code of the format
    and an output template.  With ASCII file names on,
    [--restrict-filenames] stands just before the url.  When the selected
    target format is ["default"] there is no re-encoding option at all. *)
Theorem generateArgs_shape (db : Db.t) (os : Os.t) (req : Request.t)
    (args : list jsval) (dispatched : effect) :
  generateArgs db os req = Ret (args, dispatched) ->
  last args = Some (Str (Request.url req))
  /\ (exists filepath, dispatched = Dispatch (Request.url req) filepath)
  /\ (exists out,
       take 6 args =
       [Str "--ffmpeg-location"; Str (ffmpegPath os); Str "-f";
        Format.code (Request.format req); Str "-o"; Str out])
  /\ (Db.ascii db = true ->
      exists front,
        args = front ++ [Str "--restrict-filenames"; Str (Request.url req)])
  /\ (getAVOptions db (Format.isAudioOnly (Request.format req)) = [] ->
      length args = if Db.ascii db then 8%nat else 7%nat)
  /\ (element (if Format.isAudioOnly (Request.format req)
               then Db.audioFormats db else Db.videoFormats db)
              (if Format.isAudioOnly (Request.format req)
               then Db.audioIndex db else Db.videoIndex db) = Str "default" ->
      getAVOptions db (Format.isAudioOnly (Request.format req)) = []).
Proof.
  unfold generateArgs.
  destruct (getOutputFormat db os (Request.url req) (Request.playlist req))
    as [[out d] |] eqn:Hout; [| done].
  cbn [mbind result_bind]. intros [= <- <-].
  split; [apply last_snoc |].
  split.
  { unfold getOutputFormat in Hout.
    repeat match type of Hout with
           | (?r ≫= _) = _ =>
               destruct r; cbn [mbind result_bind] in Hout; [| discriminate]
           end.
    injection Hout as _ <-. by eexists. }
  split; [exists out; destruct (Db.ascii db); reflexivity |].
  split.
  { intros ->. cbv iota.
    exists ([Str "--ffmpeg-location"; Str (ffmpegPath os); Str "-f";
             Format.code (Request.format req); Str "-o"; Str out]
            ++ getAVOptions db (Format.isAudioOnly (Request.format req))).
    cbn [app]. by rewrite <- app_assoc. }
  split.
  { intros ->. destruct (Db.ascii db); reflexivity. }
  intros Hdefault. unfold getAVOptions.
  destruct (Format.isAudioOnly (Request.format req)); by rewrite Hdefault.
Qed.

Lemma generateArgs_shape_witness :
  exists args dispatched,
    generateArgs db0 os0 (request0 "u") = Ret (args, dispatched) /\
    last args = Some (Str "u") /\
    length args = 7%nat.
Proof.
  eexists _, _. split; [vm_compute; reflexivity |].
  match goal with
  | |- last ?args = _ /\ _ =>
      destruct (generateArgs_shape db0 os0 (request0 "u") args
                  (Dispatch "u" "/downloads/*"))
        as (Hlast & _ & _ & _ & Hlen & Hdefault);
      [vm_compute; reflexivity |]
  end.
  split; [exact Hlast |].
  apply Hlen, Hdefault. reflexivity.
Defined.

(** X14. For an item that is not part of a playlist the output template
    and the reported pattern depend on the selected filename template and
    on the download location only: neither the numbering and ASCII
    settings nor the playlist fields of the request change them, and they
    are the template and [*] joined to the download location. *)
Theorem getOutputFormat_single (db db' : Db.t) (os : Os.t) (url : string)
    (playlist playlist' : Playlist.t) :
  Playlist.exists_ playlist = false ->
  Playlist.exists_ playlist' = false ->
  Db.filenameIndex db' = Db.filenameIndex db ->
  Db.filenameFormats db' = Db.filenameFormats db ->
  Db.downloadLocation db' = Db.downloadLocation db ->
  getOutputFormat db' os url playlist' = getOutputFormat db os url playlist
  /\ forall key,
      nth_error (Db.filenameFormats db) (Db.filenameIndex db) = Some key ->
      getOutputFormat db os url playlist
      = Ret (Os.join os [Db.downloadLocation db; key],
             Dispatch url (Os.join os [Db.downloadLocation db; "*"])).
Proof.
  intros Hp Hp' Hi Hf Hd. unfold getOutputFormat.
  rewrite Hp, Hp', Hi, Hf, Hd. split; [reflexivity |].
  intros key ->. reflexivity.
Qed.

Lemma getOutputFormat_single_witness :
  getOutputFormat db1 os0 "u" (Playlist.mk false (int 3) Null Null)
  = getOutputFormat db0 os0 "u" (Playlist.mk false Undefined Undefined Undefined)
  /\ getOutputFormat db0 os0 "u" (Playlist.mk false Undefined Undefined Undefined)
     = Ret ("/downloads/%(title)s.%(ext)s", Dispatch "u" "/downloads/*").
Proof.
  destruct (getOutputFormat_single db0 db1 os0 "u"
              (Playlist.mk false Undefined Undefined Undefined)
              (Playlist.mk false (int 3) Null Null)) as [Hsame Hvalue];
    try reflexivity.
  split; [exact Hsame |]. apply (Hvalue "%(title)s.%(ext)s"). reflexivity.
Defined.

(** ** Provenance *)

Lemma run_snoc (db : Db.t) (os : Os.t) (calls : list call) (c : call)
    (st : Scheduler) :
  run db os (calls ++ [c]) st = step db os (run db os calls st) c.
Proof. unfold run. by rewrite fold_left_app. Qed.

Lemma launched_snoc db os calls c child req :
  launched db os calls child req -> launched db os (calls ++ [c]) child req.
Proof.
  intros (before & after & st' & -> & Hd).
  exists before, (after ++ [c]), st'. split; [| done].
  by rewrite <- app_assoc.
Qed.

Lemma waited_snoc db os calls c req :
  waited db os calls req -> waited db os (calls ++ [c]) req.
Proof.
  intros (before & child & after & st' & -> & Hd).
  exists before, child, (after ++ [c]), st'. split; [| done].
  by rewrite <- app_assoc.
Qed.

(** Everything the two variables and the signals hold comes from a
    request: what waits comes from a request that was put on the wait
    list, what runs and what is signalled from a request that was
    launched.  This is the invariant of the runs from the empty state. *)
Lemma run_provenance (db : Db.t) (os : Os.t) (calls : list call) :
  (forall url, url ∈ queue (run db os calls initial) ->
     exists req, Request.url req = url /\ waited db os calls req)
  /\ (forall url pid, active (run db os calls initial) !! url = Some pid ->
        exists child req,
          Request.url req = url /\ Child.pid child = pid
          /\ launched db os calls child req)
  /\ (forall p, Kill p ∈ log (run db os calls initial) ->
        p <> 0 /\
        exists child req,
          Child.pid child = Some p /\ launched db os calls child req).
Proof.
  induction calls as [| c calls IH] using rev_ind.
  { cbn. repeat split; try (intros; exfalso; set_solver). }
  rewrite run_snoc.
  destruct IH as (IHq & IHa & IHk).
  set (st := run db os calls initial) in *.
  assert (Hq : forall url, url ∈ queue st ->
     exists req, Request.url req = url /\ waited db os (calls ++ [c]) req).
  { intros url H. destruct (IHq url H) as (rq & ? & ?).
    exists rq. split; [done | by apply waited_snoc]. }
  assert (Ha : forall url pid, active st !! url = Some pid ->
     exists child req,
       Request.url req = url /\ Child.pid child = pid
       /\ launched db os (calls ++ [c]) child req).
  { intros url pid H. destruct (IHa url pid H) as (ch & rq & ? & ? & ?).
    exists ch, rq. split; [done |]. split; [done | by apply launched_snoc]. }
  assert (Hk : forall p, Kill p ∈ log st ->
     p <> 0 /\
     exists child req,
       Child.pid child = Some p /\ launched db os (calls ++ [c]) child req).
  { intros p H. destruct (IHk p H) as (? & ch & rq & ? & ?).
    split; [done |]. exists ch, rq. split; [done | by apply launched_snoc]. }
  clear IHq IHa IHk.
  destruct c as [child req | url' | url']; cbn [step].
  - destruct (download db os child req st) as [[st' stream] |] eqn:Hd;
      [| exact (conj Hq (conj Ha Hk))].
    destruct (download_inv db os child req st st' stream Hd)
      as [(_ & -> & ->) | (_ & -> & args & d & Hargs & ->)]; cbn.
    + split; [| split; [apply Ha | apply Hk]].
      intros url [H | H]%elem_of_app; [by apply Hq |].
      apply list_elem_of_singleton in H as ->.
      exists req. split; [done |].
      eexists calls, child, [], _. split; [done | exact Hd].
    + assert (launched db os (calls ++ [Requested child req]) child req)
        as Hlaunched by (eexists calls, [], _; split; [done | exact Hd]).
      split; [done |]. split.
      * intros url pid.
        destruct (decide (Request.url req = url)) as [<- | Hne].
        -- rewrite lookup_insert_eq. intros [= <-]. by exists child, req.
        -- rewrite lookup_insert_ne by done. apply Ha.
      * intros p [H | H]%elem_of_app; [by apply Hk |].
        exfalso.
        destruct (generateArgs_dispatch db os req args d Hargs) as [f ->].
        set_solver.
  - unfold on_end. cbn. split; [| split].
    + intros url H. apply Hq. destruct (queue st); [done | set_solver].
    + intros url pid H. apply lookup_delete_Some in H as [_ H].
      by apply Ha.
    + intros p [H | H]%elem_of_app; [by apply Hk | set_solver].
  - unfold pause. cbn. split; [| split]; [| done |].
    + intros url H. apply Hq.
      destruct (negb (indexOf url' (queue st) 0 =? -1)); [| done].
      unfold splice1 in H.
      by eapply list_elem_of_delete_inv.
    + intros p.
      destruct (mjoin (active st !! url')) as [q |] eqn:Hpid; [| apply Hk].
      destruct (q =? 0) eqn:Hq0; cbn [negb]; [apply Hk |].
      intros [H | H]%elem_of_app; [by apply Hk |].
      apply list_elem_of_singleton in H as [= ->].
      split; [lia |].
      destruct (active st !! url') as [pid |] eqn:Hact; [| done].
      cbn in Hpid. subst pid.
      destruct (Ha url' (Some q) Hact) as (ch & rq & ? & ? & ?).
      by exists ch, rq.
Qed.

(** X15. Whatever calls the module has received since it was loaded, a
    url that waits is the url of a request that was put on the wait list,
    and a url that is recorded as running is the url of a request that was
    launched, recorded with the process of the child spawned for that
    request. *)
Theorem only_requested_urls (db : Db.t) (os : Os.t) (calls : list call)
    (url : string) :
  (url ∈ queue (run db os calls initial) ->
   exists req, Request.url req = url /\ waited db os calls req)
  /\ (forall pid,
        active (run db os calls initial) !! url = Some pid ->
        exists child req,
          Request.url req = url /\ Child.pid child = pid
          /\ launched db os calls child req).
Proof.
  destruct (run_provenance db os calls) as (Hq & Ha & _).
  split; [apply Hq | apply Ha].
Qed.

Lemma only_requested_urls_witness :
  (exists req,
      Request.url req = "u"
      /\ waited db1 os0
           [Requested (Child.mk (Some 7)) (request0 "u");
            Requested (Child.mk (Some 8)) (request0 "u")] req)
  /\ exists child req,
      Request.url req = "u" /\ Child.pid child = Some 7
      /\ launched db1 os0
           [Requested (Child.mk (Some 7)) (request0 "u");
            Requested (Child.mk (Some 8)) (request0 "u")] child req.
Proof.
  destruct (only_requested_urls db1 os0
              [Requested (Child.mk (Some 7)) (request0 "u");
               Requested (Child.mk (Some 8)) (request0 "u")] "u")
    as [Hq Ha].
  split.
  - apply Hq. vm_compute. apply list_elem_of_here.
  - apply Ha. by vm_compute.
Defined.

(** X16. The module signals only processes it has started: every
    termination signal in a run from the empty state goes to the nonzero
    process identifier of the child spawned for a request that was
    launched earlier in the run. *)
Theorem signals_only_own_children (db : Db.t) (os : Os.t)
    (calls : list call) (p : Z) :
  Kill p ∈ log (run db os calls initial) ->
  p <> 0 /\
  exists child req,
    Child.pid child = Some p /\ launched db os calls child req.
Proof. apply run_provenance. Qed.

Lemma signals_only_own_children_witness :
  7 <> 0 /\
  exists child req,
    Child.pid child = Some 7
    /\ launched db1 os0
         [Requested (Child.mk (Some 7)) (request0 "u"); Paused "u"] child req.
Proof.
  apply (signals_only_own_children db1 os0
           [Requested (Child.mk (Some 7)) (request0 "u"); Paused "u"] 7).
  vm_compute. do 2 apply list_elem_of_further. apply list_elem_of_here.
Defined.
